(** * bhlaspaceapiclient: the traversal and bulk-maintenance core of
    [bhlaspaceapiclient/client.py], embedded as Rocq functions.

    Python dictionaries with a fixed set of keys are records whose optional
    keys are [option] fields; a subscript on a missing key is a [KeyError],
    a subscript past the end of a list an [IndexError].  The backend is a
    finite map from uris to records; every request is appended to a trace.
    The two module-level walkers have a default argument bound once at
    definition time: that list object is part of the client state. *)

From Stdlib Require Import String Ascii List Bool Arith Lia.
From stdpp Require Import base option list gmap strings.

Set Warnings "-register-all".

Open Scope string_scope.
Open Scope list_scope.
Open Scope nat_scope.

(** ** Strings as Python uses them *)

Module PyStr.

(** [str.isspace] on the ASCII range (Python 3): TAB..CR, FS..US, SPACE. *)
Definition isspace (c : ascii) : bool :=
  let n := nat_of_ascii c in
  ((9 <=? n) && (n <=? 13)) || ((28 <=? n) && (n <=? 32)).

Fixpoint lstrip (s : string) : string :=
  match s with
  | EmptyString => EmptyString
  | String c s' => if isspace c then lstrip s' else s
  end.

Fixpoint rstrip (s : string) : string :=
  match s with
  | EmptyString => EmptyString
  | String c s' =>
      match rstrip s' with
      | EmptyString => if isspace c then EmptyString else String c EmptyString
      | r => String c r
      end
  end.

(** [s.strip()] *)
Definition strip (s : string) : string := rstrip (lstrip s).

(** [sep.join(l)] *)
Definition join (sep : string) (l : list string) : string := String.concat sep l.

(** [needle in hay] for strings. *)
Fixpoint contains (needle hay : string) : bool :=
  String.prefix needle hay
  || match hay with
     | EmptyString => false
     | String _ hay' => contains needle hay'
     end.

(** Truthiness of a string: non-empty. *)
Definition truthy (s : string) : bool :=
  match s with EmptyString => false | _ => true end.

(** [d.get(k)] read for truthiness, with the value when it is truthy. *)
Definition get_truthy (o : option string) : option string :=
  match o with
  | Some s => if truthy s then Some s else None
  | None => None
  end.

(** [a < b] on strings: lexicographic on code points. *)
Definition lt (a b : string) : bool := String.ltb a b.

End PyStr.

(** ** The regular expression of [sanitize_title]

    [re.sub(r"<.*?>", "", title)]: scanning from the left, a [<] followed on
    the same line by a [>] is removed together with everything up to the
    nearest such [>]; [.] does not match a line feed, so a [<] with a line
    feed before the next [>] stays. *)

Module Re.

Definition newline : ascii := ascii_of_nat 10.

(** Number of characters between a [<] and the nearest [>] on the same
    line, when there is one. *)
Fixpoint tag_body_length (s : string) : option nat :=
  match s with
  | EmptyString => None
  | String c s' =>
      if Ascii.eqb c ">" then Some 0
      else if Ascii.eqb c newline then None
      else S <$> tag_body_length s'
  end.

(** [skip] characters are still inside a matched tag. *)
Fixpoint sub_tags_from (skip : nat) (s : string) : string :=
  match s with
  | EmptyString => EmptyString
  | String c s' =>
      match skip with
      | S k => sub_tags_from k s'
      | O =>
          if Ascii.eqb c "<" then
            match tag_body_length s' with
            | Some n => sub_tags_from (S n) s'
            | None => String c (sub_tags_from 0 s')
            end
          else String c (sub_tags_from 0 s')
      end
  end.

Definition sub_tags (s : string) : string := sub_tags_from 0 s.

End Re.

(** ** Records *)

Inductive error : Type :=
| KeyError (key : string)
| IndexError
| TypeError (msg : string)
| CommunicationError (status_code : nat)
| ArchivesSpaceError (msg : string)
| XMLSyntaxError.

Inductive result (A : Type) : Type :=
| Ok (a : A)
| Err (e : error).
Arguments Ok {A} a.
Arguments Err {A} e.

Record date : Type := Date {
  date_type : string;
  expression : option string;
  date_begin : option string;
  date_end : option string
}.

Record subnote : Type := Subnote {
  subnote_content : option string
}.

Record note : Type := Note {
  jsonmodel_type : string;
  note_type : string;
  publish : bool;
  content : option (list string);
  subnotes : option (list subnote)
}.

Record instance : Type := Instance {
  instance_type : string;
  digital_object_ref : option string;
  top_container_ref : option string
}.

(** One JSON record of the backend: an archival object, a resource, a
    digital object or a top container, by the keys the client reads. *)
Record aspace_json : Type := Json {
  uri : option string;
  title : option string;
  dates : option (list date);
  parent : option string;
  display_string : option string;
  notes : option (list note);
  instances : option (list instance);
  linked_instances : option (list string);
  collection : option (list string)
}.

(** A node of the tree projection. *)
Inductive tree_node : Type :=
  TreeNode (record_uri : string) (has_children : bool)
           (instance_types : list string) (children : list tree_node).

Definition subscript {A} (key : string) (o : option A) : result A :=
  match o with
  | Some a => Ok a
  | None => Err (KeyError key)
  end.

(** ** Formatters *)

(** [aspace_json.get("dates")] read for truthiness. *)
Definition get_dates (j : aspace_json) : list date :=
  match dates j with Some ds => ds | None => [] end.

Definition has_dates (j : aspace_json) : bool :=
  match get_dates j with [] => false | _ => true end.

(** The expression computed at the top of the loop body of [format_dates]. *)
Definition date_expression (d : date) : string :=
  match PyStr.get_truthy (expression d) with
  | Some e => e
  | None =>
      match PyStr.get_truthy (date_begin d), PyStr.get_truthy (date_end d) with
      | Some b, Some e => b +:+ "-" +:+ e
      | Some b, None => b
      | None, _ => ""
      end
  end.

Fixpoint format_dates_loop (ds : list date) (inclusive_dates bulk_dates : list string)
  : list string * list string :=
  match ds with
  | [] => (inclusive_dates, bulk_dates)
  | d :: ds' =>
      let e := date_expression d in
      let inclusive_dates :=
        if String.eqb (date_type d) "inclusive"
        then inclusive_dates ++ [PyStr.strip e] else inclusive_dates in
      let bulk_dates :=
        if String.eqb (date_type d) "bulk"
        then bulk_dates ++ [PyStr.strip e] else bulk_dates in
      format_dates_loop ds' inclusive_dates bulk_dates
  end.

Definition format_dates (j : aspace_json) : string :=
  if has_dates j then
    let '(inclusive_dates, bulk_dates) := format_dates_loop (get_dates j) [] [] in
    let ds := PyStr.join ", " inclusive_dates in
    match bulk_dates with
    | b :: _ => ds +:+ " (bulk " +:+ b +:+ ")"
    | [] => ds
    end
  else "".

Definition sanitize_title (t : string) : string := PyStr.strip (Re.sub_tags t).

Definition format_note (n : note) : result string :=
  if String.eqb (jsonmodel_type n) "note_singlepart" then
    match subscript "content" (content n) with
    | Err e => Err e
    | Ok [] => Err IndexError
    | Ok (c :: _) => Ok c
    end
  else
    match subscript "subnotes" (subnotes n) with
    | Err e => Err e
    | Ok [] => Err IndexError
    | Ok (s :: _) => subscript "content" (subnote_content s)
    end.

(** ** The client: backend store, request trace, default accumulators *)

Inductive request : Type :=
| GET (u : string)
| POST (u : string)
| DELETE (u : string)
| GET_TREE (resource_number : string)
| GET_METADATA (top_container_id : string).

Record client : Type := Client {
  repository : string;
  (** records of the backend, by uri *)
  records : gmap string aspace_json;
  (** [children] of the tree of a resource, by resource number *)
  trees : gmap string (list tree_node);
  (** [archival_object_uri]s of the [archival_objects] of the
      metadata-for-container response, by top container id *)
  container_metadata : gmap string (list string);
  (** requests sent so far, oldest first *)
  trace : list request;
  (** the list object bound to [archival_object_uris=[]] when
      [extract_archival_object_uris_from_children] was defined *)
  default_archival_object_uris : list string;
  (** the list object bound to [children_with_instances=[]] when
      [find_children_with_instances] was defined *)
  default_children_with_instances : list string
}.

Definition set_records (f : gmap string aspace_json → gmap string aspace_json)
  (c : client) : client :=
  Client (repository c) (f (records c)) (trees c) (container_metadata c)
         (trace c) (default_archival_object_uris c)
         (default_children_with_instances c).

Definition send (r : request) (c : client) : client :=
  Client (repository c) (records c) (trees c) (container_metadata c)
         (trace c ++ [r]) (default_archival_object_uris c)
         (default_children_with_instances c).

Definition set_default_archival_object_uris (l : list string) (c : client) : client :=
  Client (repository c) (records c) (trees c) (container_metadata c)
         (trace c) l (default_children_with_instances c).

Definition set_default_children_with_instances (l : list string) (c : client) : client :=
  Client (repository c) (records c) (trees c) (container_metadata c)
         (trace c) (default_archival_object_uris c) l.

(** A method of the client: it may raise, and what it did to the backend
    and to the default lists before raising stays done. *)
Definition M (A : Type) : Type := client → result A * client.

Definition ret {A} (a : A) : M A := fun c => (Ok a, c).

Definition raise {A} (e : error) : M A := fun c => (Err e, c).

Definition bind {A B} (m : M A) (k : A → M B) : M B :=
  fun c =>
    match m c with
    | (Ok a, c') => k a c'
    | (Err e, c') => (Err e, c')
    end.

Definition lift {A} (r : result A) : M A := fun c => (r, c).

Declare Scope client_scope.
Delimit Scope client_scope with client.
Notation "'let*' x ':=' m 'in' k" := (bind m (fun x => k))
  (at level 10, x pattern, m at level 100, k at level 200) : client_scope.
Open Scope client_scope.

(** [for x in l: body(x)] *)
Fixpoint for_each {A} (l : list A) (body : A → M unit) : M unit :=
  match l with
  | [] => ret tt
  | x :: l' => let* _ := body x in for_each l' body
  end.

(** *** Requests *)

Definition not_found : nat := 404.

(** [get_aspace_json]: a uri the backend does not have answers 404, which
    [_request] turns into a [CommunicationError]. *)
Definition get_aspace_json (aspace_uri : string) : M aspace_json :=
  fun c =>
    let c' := send (GET aspace_uri) c in
    match records c !! aspace_uri with
    | Some j => (Ok j, c')
    | None => (Err (CommunicationError not_found), c')
    end.

Definition delete_aspace_object (aspace_uri : string) : M unit :=
  fun c =>
    let c' := send (DELETE aspace_uri) c in
    match records c !! aspace_uri with
    | Some _ => (Ok tt, set_records (delete aspace_uri) c')
    | None => (Err (CommunicationError not_found), c')
    end.

(** [self.session.post(self.backend_url + uri, json=...).json()]: the
    status code is not looked at. *)
Definition session_post (aspace_uri : string) (json : aspace_json) : M unit :=
  fun c => (Ok tt, set_records (insert aspace_uri json) (send (POST aspace_uri) c)).

(** The parameters of [_post(self, url, params={}, data=None,
    expected_response=200)]. *)
Definition _post_parameters : list string :=
  ["url"; "params"; "data"; "expected_response"].

(** A call with keyword arguments: a keyword that is no parameter of the
    callee is a [TypeError], raised before the body runs. *)
Definition accepts (parameters keywords : list string) : bool :=
  forallb (fun k => existsb (String.eqb k) parameters) keywords.

Definition _post (keywords : list string) (aspace_uri : string)
  (data : option aspace_json) : M unit :=
  if accepts _post_parameters keywords then
    match data with
    | Some j => session_post aspace_uri j
    | None => fun c => (Ok tt, send (POST aspace_uri) c)
    end
  else raise (TypeError "_post() got an unexpected keyword argument").

(** [post_aspace_json]: [self._post(url, params=params, json=json)]. *)
Definition post_aspace_json (aspace_uri : string) (json : aspace_json) : M unit :=
  _post ["url"; "params"; "json"] aspace_uri (Some json).

Definition update_aspace_object (aspace_uri : string) (aspace_json : aspace_json)
  : M unit :=
  let* u := lift (subscript "uri" (uri aspace_json)) in
  if String.eqb aspace_uri u then post_aspace_json aspace_uri aspace_json
  else raise (ArchivesSpaceError "Unable to update object").

(** [get_resource_tree(n)["children"]] *)
Definition get_resource_tree_children (resource_number : string)
  : M (list tree_node) :=
  fun c =>
    let c' := send (GET_TREE resource_number) c in
    match trees c !! resource_number with
    | Some t => (Ok t, c')
    | None => (Err (CommunicationError not_found), c')
    end.

(** [get_metadata_for_container(id)["archival_objects"]], each entry read
    at ["archival_object_uri"]. *)
Definition get_metadata_for_container (top_container_id : string)
  : M (list string) :=
  fun c =>
    let c' := send (GET_METADATA top_container_id) c in
    match container_metadata c !! top_container_id with
    | Some l => (Ok l, c')
    | None => (Err (CommunicationError not_found), c')
    end.

(** ** Tree walkers

    Both walkers append to the accumulator they are given and return it;
    the functions below return the contents of that list at the end. *)

Fixpoint extract_node (child : tree_node) (archival_object_uris : list string)
  : list string :=
  match child with
  | TreeNode record_uri has_children _ children =>
      let archival_object_uris := archival_object_uris ++ [record_uri] in
      if has_children
      then fold_left (fun acc c => extract_node c acc) children archival_object_uris
      else archival_object_uris
  end.

(** [extract_archival_object_uris_from_children(children,
    archival_object_uris=acc)] *)
Definition extract_archival_object_uris_from_children
  (children : list tree_node) (archival_object_uris : list string) : list string :=
  fold_left (fun acc c => extract_node c acc) children archival_object_uris.

(** [instance_type=False] is [None]; an empty string is falsy as well. *)
Definition qualifies (instance_type : option string) (instance_types : list string)
  : bool :=
  match instance_types with
  | [] => false
  | _ =>
      match PyStr.get_truthy instance_type with
      | Some t => existsb (String.eqb t) instance_types
      | None => true
      end
  end.

Fixpoint find_node (instance_type : option string) (child : tree_node)
  (children_with_instances : list string) : list string :=
  match child with
  | TreeNode record_uri has_children instance_types children =>
      let children_with_instances :=
        if qualifies instance_type instance_types
        then children_with_instances ++ [record_uri]
        else children_with_instances in
      if has_children
      then fold_left (fun acc c => find_node instance_type c acc)
                     children children_with_instances
      else children_with_instances
  end.

(** [find_children_with_instances(children, children_with_instances=acc,
    instance_type=t)] *)
Definition find_children_with_instances (children : list tree_node)
  (children_with_instances : list string) (instance_type : option string)
  : list string :=
  fold_left (fun acc c => find_node instance_type c acc)
            children children_with_instances.

(** A top-level call that leaves the accumulator to its default: the
    default list object is appended to and returned. *)
Definition extract_archival_object_uris_from_children_default
  (children : list tree_node) : M (list string) :=
  fun c =>
    let l := extract_archival_object_uris_from_children
               children (default_archival_object_uris c) in
    (Ok l, set_default_archival_object_uris l c).

Definition find_children_with_instances_default
  (children : list tree_node) (instance_type : option string) : M (list string) :=
  fun c =>
    let l := find_children_with_instances
               children (default_children_with_instances c) instance_type in
    (Ok l, set_default_children_with_instances l c).

(** ** Container merge *)

Definition top_container_uri (c : client) (top_container_id : string) : string :=
  repository c +:+ "/top_containers/" +:+ top_container_id.

Definition set_instances (l : list instance) (j : aspace_json) : aspace_json :=
  Json (uri j) (title j) (dates j) (parent j) (display_string j) (notes j)
       (Some l) (linked_instances j) (collection j).

Definition set_top_container_ref (r : string) (i : instance) : instance :=
  Instance (instance_type i) (digital_object_ref i) (Some r).

(** The list comprehension followed by the loop over [matching_instances]:
    every instance is read at ["sub_container"]["top_container"]["ref"],
    and the matching ones are repointed in place. *)
Fixpoint repoint_instances (source_uri target_uri : string) (l : list instance)
  : result (list instance) :=
  match l with
  | [] => Ok []
  | i :: l' =>
      match subscript "sub_container" (top_container_ref i) with
      | Err e => Err e
      | Ok r =>
          match repoint_instances source_uri target_uri l' with
          | Err e => Err e
          | Ok l'' =>
              Ok ((if String.eqb r source_uri
                   then set_top_container_ref target_uri i else i) :: l'')
          end
      end
  end.

Definition merge_one (source_uri target_uri archival_object_uri : string) : M unit :=
  let* archival_object := get_aspace_json archival_object_uri in
  let* l := lift (subscript "instances" (instances archival_object)) in
  let* l' := lift (repoint_instances source_uri target_uri l) in
  update_aspace_object archival_object_uri (set_instances l' archival_object).

Definition merge_top_containers (source_id target_id : string) : M unit :=
  let* archival_object_uris := get_metadata_for_container source_id in
  fun c =>
    let source_uri := top_container_uri c source_id in
    let target_uri := top_container_uri c target_id in
    (let* _ := for_each archival_object_uris (merge_one source_uri target_uri) in
     delete_aspace_object source_uri) c.

(** ** Orphan association cleanup *)

Definition instance_uri (i : instance) : result string :=
  if String.eqb (instance_type i) "digital_object"
  then subscript "digital_object" (digital_object_ref i)
  else subscript "sub_container" (top_container_ref i).

Fixpoint instance_uris_of (l : list instance) : result (list string) :=
  match l with
  | [] => Ok []
  | i :: l' =>
      match instance_uri i with
      | Err e => Err e
      | Ok u =>
          match instance_uris_of l' with
          | Err e => Err e
          | Ok us => Ok (u :: us)
          end
      end
  end.

Definition find_instance_uris (aspace_uri : string) (instance_type_filter : option string)
  : M (list string) :=
  let* aspace_json := get_aspace_json aspace_uri in
  let* l := lift (subscript "instances" (instances aspace_json)) in
  let l :=
    match PyStr.get_truthy instance_type_filter with
    | Some t => List.filter (fun i => String.eqb (instance_type i) t) l
    | None => l
    end in
  lift (instance_uris_of l).

Definition delete_single_resource_instances (instance_uri : string) : M unit :=
  if PyStr.contains "digital_objects" instance_uri then
    let* digital_object := get_aspace_json instance_uri in
    let* l := lift (subscript "linked_instances" (linked_instances digital_object)) in
    if length l =? 1 then delete_aspace_object instance_uri else ret tt
  else if PyStr.contains "top_containers" instance_uri then
    let* top_container := get_aspace_json instance_uri in
    let* l := lift (subscript "collection" (collection top_container)) in
    if length l =? 1 then delete_aspace_object instance_uri else ret tt
  else ret tt.

Fixpoint collect_instance_uris (children_with_instances instance_uris : list string)
  : M (list string) :=
  match children_with_instances with
  | [] => ret instance_uris
  | child_uri :: rest =>
      let* us := find_instance_uris child_uri None in
      collect_instance_uris rest (instance_uris ++ us)
  end.

(** [set_order l] is the order in which [set(l)] is iterated: Python leaves
    it open, so it is an argument; it lists every element of [l] once. *)
Definition remove_resource_associations (set_order : list string → list string)
  (resource_number : string) : M unit :=
  let* resource_tree := get_resource_tree_children resource_number in
  let* children_with_instances :=
    find_children_with_instances_default resource_tree None in
  let* instance_uris := collect_instance_uris children_with_instances [] in
  for_each (set_order instance_uris) delete_single_resource_instances.

(** ** Display strings and hierarchy *)

Definition get_title (j : aspace_json) : option string := PyStr.get_truthy (title j).

(** The result is [None] where the Python method falls off its end. *)
Definition make_display_string (aspace_json : aspace_json) (add_parent_title : bool)
  : M (option string) :=
  match get_title aspace_json, has_dates aspace_json with
  | Some t, true => ret (Some (sanitize_title t +:+ ", " +:+ format_dates aspace_json))
  | Some t, false => ret (Some (sanitize_title t))
  | None, true =>
      if add_parent_title then
        let* parent_ref := lift (subscript "parent" (parent aspace_json)) in
        let* parent_json := get_aspace_json parent_ref in
        let* d := lift (subscript "display_string" (display_string parent_json)) in
        ret (Some (sanitize_title d +:+ ", " +:+ format_dates aspace_json))
      else ret (Some (format_dates aspace_json))
  | None, false => ret None
  end.

(** [sep.join(l)] where an item may be [None]: a [TypeError]. *)
Fixpoint all_strings (l : list (option string)) : result (list string) :=
  match l with
  | [] => Ok []
  | None :: _ => Err (TypeError "sequence item: expected str instance, NoneType found")
  | Some s :: l' =>
      match all_strings l' with
      | Err e => Err e
      | Ok ss => Ok (s :: ss)
      end
  end.

(** How a [while] loop run with a bound on its iterations ends. *)
Inductive run (A : Type) : Type :=
| Returned (a : A)
| StillLooping.
Arguments Returned {A} a.
Arguments StillLooping {A}.

(** The [while aspace_json.get("parent")] loop, at most [fuel] iterations. *)
Fixpoint build_hierarchy_loop (fuel : nat) (aspace_json : aspace_json)
  (parent_titles : list (option string)) : M (run (list (option string))) :=
  match parent aspace_json with
  | None => ret (Returned parent_titles)
  | Some parent_ref =>
      match fuel with
      | O => ret StillLooping
      | S fuel' =>
          let* parent_json := get_aspace_json parent_ref in
          let* parent_title := make_display_string parent_json false in
          build_hierarchy_loop fuel' parent_json (parent_titles ++ [parent_title])
      end
  end.

Definition build_hierarchy (fuel : nat) (aspace_json : aspace_json) (delimiter : string)
  : M (run string) :=
  let* r := build_hierarchy_loop fuel aspace_json [] in
  match r with
  | StillLooping => ret StillLooping
  | Returned parent_titles =>
      match rev parent_titles with
      | [] => ret (Returned "")
      | titles =>
          let* ss := lift (all_strings titles) in
          ret (Returned (PyStr.join (" " +:+ delimiter +:+ " ") ss))
      end
  end.

(** ** Restriction sweeps *)

Record log_entry : Type := LogEntry {
  log_uri : string;
  log_title : string;
  log_restriction : string
}.

Definition set_publish (b : bool) (n : note) : note :=
  Note (jsonmodel_type n) (note_type n) b (content n) (subnotes n).

Definition set_notes (l : list note) (j : aspace_json) : aspace_json :=
  Json (uri j) (title j) (dates j) (parent j) (display_string j) (Some l)
       (instances j) (linked_instances j) (collection j).

(** The guard of both sweeps: [note["type"] == "accessrestrict" and
    note["publish"]]. *)
Definition published_accessrestrict (n : note) : bool :=
  String.eqb (note_type n) "accessrestrict" && publish n.

(** The loop over [archival_object["notes"]], the same in both sweeps but
    for the test applied to the formatted note.  Returns the notes as the
    loop leaves them, [update_archival_object], and the entries appended to
    [unpublished_log]. *)
Fixpoint unpublish_notes (test : string → result bool)
  (archival_object_uri : string) (display : option string) (l : list note)
  : result (list note * bool * list log_entry) :=
  match l with
  | [] => Ok ([], false, [])
  | n :: l' =>
      if published_accessrestrict n then
        match format_note n with
        | Err e => Err e
        | Ok accessrestrict =>
            match test accessrestrict with
            | Err e => Err e
            | Ok true =>
                match subscript "display_string" display with
                | Err e => Err e
                | Ok t =>
                    match unpublish_notes test archival_object_uri display l' with
                    | Err e => Err e
                    | Ok (l'', _, entries) =>
                        Ok (set_publish false n :: l'', true,
                            LogEntry archival_object_uri t accessrestrict :: entries)
                    end
                end
            | Ok false =>
                match unpublish_notes test archival_object_uri display l' with
                | Err e => Err e
                | Ok (l'', update, entries) => Ok (n :: l'', update, entries)
                end
            end
        end
      else
        match unpublish_notes test archival_object_uri display l' with
        | Err e => Err e
        | Ok (l'', update, entries) => Ok (n :: l'', update, entries)
        end
  end.

(** The body of the loop over [archival_object_uris]. *)
Definition sweep_archival_object (test : string → result bool)
  (archival_object_uri : string) : M (list log_entry) :=
  let* archival_object := get_aspace_json archival_object_uri in
  let* l := lift (subscript "notes" (notes archival_object)) in
  let* r :=
    lift (unpublish_notes test archival_object_uri (display_string archival_object) l) in
  let '(l', update_archival_object, entries) := r in
  let* _ :=
    if update_archival_object
    then session_post archival_object_uri (set_notes l' archival_object)
    else ret tt in
  ret entries.

Fixpoint sweep (test : string → result bool) (archival_object_uris : list string)
  (unpublished_log : list log_entry) : M (list log_entry) :=
  match archival_object_uris with
  | [] => ret unpublished_log
  | archival_object_uri :: rest =>
      let* entries := sweep_archival_object test archival_object_uri in
      sweep test rest (unpublished_log ++ entries)
  end.

Definition get_resource_archival_object_uris (resource_number : string)
  : M (list string) :=
  let* resource_tree := get_resource_tree_children resource_number in
  extract_archival_object_uris_from_children_default resource_tree.

Section Lxml.

(** [etree.fromstring(doc).xpath("./date")], each date element by its
    [normal] attribute when it has one; a document that does not parse is
    an [XMLSyntaxError]. *)
Variable xpath_date_normals : string → result (list (option string)).

(** [accessrestrict_date and accessrestrict_date[0].attrib["normal"] <
    today] on the note wrapped in an [accessrestrict] element. *)
Definition expired (today accessrestrict : string) : result bool :=
  match xpath_date_normals
          ("<accessrestrict>" +:+ accessrestrict +:+ "</accessrestrict>") with
  | Err e => Err e
  | Ok [] => Ok false
  | Ok (d :: _) =>
      match subscript "normal" d with
      | Err e => Err e
      | Ok normal => Ok (PyStr.lt normal today)
      end
  end.

(** [today] is [datetime.today().strftime("%Y-%m-%d")]. *)
Definition unpublish_expired_restrictions_for_resource
  (today resource_number : string) : M (list log_entry) :=
  let* archival_object_uris := get_resource_archival_object_uris resource_number in
  sweep (expired today) archival_object_uris [].

End Lxml.

Definition text_matches (restriction_text accessrestrict : string) : result bool :=
  Ok (String.eqb accessrestrict restriction_text).

(** What [unpublish_restrictions_by_text] returns: a message or the log. *)
Inductive sweep_report : Type :=
| Message (s : string)
| UnpublishedLog (l : list log_entry).

(** [restriction_text=False] is [None]. *)
Definition unpublish_restrictions_by_text (resource_number : string)
  (restriction_text : option string) : M sweep_report :=
  match PyStr.get_truthy restriction_text with
  | None => ret (Message "No restriction text provided")
  | Some text =>
      let* archival_object_uris := get_resource_archival_object_uris resource_number in
      let* l := sweep (text_matches text) archival_object_uris [] in
      ret (UnpublishedLog l)
  end.

(** ** The formatters and sweeps as the specification words them *)

Module Spec.

Definition present (o : option string) : bool :=
  match o with Some s => PyStr.truthy s | None => false end.

Definition value (o : option string) : string :=
  match o with Some s => s | None => "" end.

(** The effective expression of a date entry. *)
Definition effective_expression (d : date) : string :=
  if present (expression d) then value (expression d)
  else if present (date_begin d) && present (date_end d)
       then value (date_begin d) +:+ "-" +:+ value (date_end d)
  else if present (date_begin d) then value (date_begin d)
  else "".

Definition of_type (t : string) (d : date) : bool := String.eqb (date_type d) t.

Definition trimmed_expressions (t : string) (ds : list date) : list string :=
  map (fun d => PyStr.strip (effective_expression d)) (List.filter (of_type t) ds).

(** The date formatter: the join of the inclusive expressions, of the
    non-empty ones only when [only_non_empty] is set, then the first bulk
    expression in parentheses. *)
Definition format_dates (only_non_empty : bool) (ds : list date) : string :=
  let inclusive := trimmed_expressions "inclusive" ds in
  let inclusive :=
    if only_non_empty then List.filter PyStr.truthy inclusive else inclusive in
  PyStr.join ", " inclusive
  +:+ match trimmed_expressions "bulk" ds with
      | b :: _ => " (bulk " +:+ b +:+ ")"
      | [] => ""
      end.

(** A note is unpublished by a sweep when it is a published
    access-restriction note whose formatted text passes the test. *)
Definition unpublishes (test : string → result bool) (n : note) : bool :=
  published_accessrestrict n
  && match format_note n with
     | Ok text => match test text with Ok b => b | Err _ => false end
     | Err _ => false
     end.

Definition unpublish_if (test : string → result bool) (n : note) : note :=
  if unpublishes test n then set_publish false n else n.

Definition entry (u : string) (j : aspace_json) (n : note) : log_entry :=
  LogEntry u (value (display_string j))
           (match format_note n with Ok text => text | Err _ => "" end).

(** The sweep over a list of uris: every record is fetched; a record with
    a note to unpublish is written back once, whole, and gives one log
    entry per such note.  Returns the requests sent, the log and the
    records of the backend. *)
Fixpoint sweep (test : string → result bool) (uris : list string)
  (recs : gmap string aspace_json)
  : list request * list log_entry * gmap string aspace_json :=
  match uris with
  | [] => ([], [], recs)
  | u :: rest =>
      match recs !! u with
      | None => ([GET u], [], recs)
      | Some j =>
          let l := match notes j with Some l => l | None => [] end in
          let hits := List.filter (unpublishes test) l in
          let changed := match hits with [] => false | _ => true end in
          let recs' :=
            if changed then <[u := set_notes (map (unpublish_if test) l) j]> recs
            else recs in
          let '(tr, log, recs'') := sweep test rest recs' in
          (GET u :: (if changed then [POST u] else []) ++ tr,
           map (entry u j) hits ++ log, recs'')
      end
  end.

End Spec.

(** ** Relations between the records before and after an operation *)

(** One note across a sweep: untouched, or a published access-restriction
    note that passed the test and is now unpublished. *)
Definition note_step (test : string → result bool) (n n' : note) : Prop :=
  n' = n
  ∨ (n' = set_publish false n ∧ published_accessrestrict n = true
     ∧ ∃ text, format_note n = Ok text ∧ test text = Ok true).

Definition record_step (test : string → result bool) (j j' : aspace_json) : Prop :=
  j' = j
  ∨ ∃ l l', notes j = Some l ∧ j' = set_notes l' j ∧ Forall2 (note_step test) l l'.

Definition records_step (test : string → result bool)
  (recs recs' : gmap string aspace_json) : Prop :=
  ∀ u, option_Forall2 (record_step test) (recs !! u) (recs' !! u).

(** A record the cleanup may delete: a digital object with one linked
    instance, a top container in one collection. *)
Definition sole_owner (u : string) (j : aspace_json) : Prop :=
  (PyStr.contains "digital_objects" u = true
   ∧ ∃ l, linked_instances j = Some l ∧ length l = 1)
  ∨ (PyStr.contains "digital_objects" u = false
     ∧ PyStr.contains "top_containers" u = true
     ∧ ∃ l, collection j = Some l ∧ length l = 1).

(** The parent chain of a record ends after [n] fetches: at a record with
    no parent, or at a parent the backend does not have. *)
Inductive chain_ends (recs : gmap string aspace_json) : aspace_json → nat → Prop :=
| chain_root j : parent j = None → chain_ends recs j 0
| chain_missing j p : parent j = Some p → recs !! p = None → chain_ends recs j 1
| chain_parent j p pj n :
    parent j = Some p → recs !! p = Some pj → chain_ends recs pj n →
    chain_ends recs j (S n).

(** A set of records closed under parent references, none of them a root:
    a chain from inside it never ends. *)
Definition chain_cyclic (recs : gmap string aspace_json) (inside : aspace_json → Prop)
  : Prop :=
  ∀ j, inside j → ∃ p pj, parent j = Some p ∧ recs !! p = Some pj ∧ inside pj.

(** The uris a trace deletes, in order. *)
Definition deleted_uris (tr : list request) : list string :=
  flat_map (λ r, match r with DELETE u => [u] | _ => [] end) tr.

(** The records after a cleanup: each as before, or gone and a sole owner. *)
Definition only_deleted (recs recs' : gmap string aspace_json) : Prop :=
  ∀ u, recs' !! u = recs !! u
       ∨ (recs' !! u = None ∧ ∃ j, recs !! u = Some j ∧ sole_owner u j).

(** One record across any of the bulk operations: the same but for notes
    that went from published to unpublished. *)
Definition only_unpublished (j j' : aspace_json) : Prop :=
  j' = j
  ∨ ∃ l l', notes j = Some l ∧ j' = set_notes l' j
      ∧ Forall2 (λ n n', n' = n ∨ (publish n = true ∧ n' = set_publish false n)) l l'.

(** A note a sweep passes over: not a published access-restriction note, or
    one whose text fails the test. *)
Definition calm (test : string → result bool) (n : note) : Prop :=
  published_accessrestrict n = false
  ∨ ∃ text, format_note n = Ok text ∧ test text = Ok false.

Definition quiet (test : string → result bool) (j : aspace_json) : Prop :=
  ∃ l, notes j = Some l ∧ Forall (calm test) l.

(** A record a sweep can read: it has notes and a display string, and its
    published access-restriction notes can be formatted and tested. *)
Definition readable (test : string → result bool) (j : aspace_json) : Prop :=
  ∃ l d, notes j = Some l ∧ display_string j = Some d
         ∧ Forall (λ n, published_accessrestrict n = false
                        ∨ ∃ text b, format_note n = Ok text ∧ test text = Ok b) l.

(** A record with a published access-restriction note that cannot be
    formatted. *)
Definition stuck (j : aspace_json) : Prop :=
  ∃ l n e, notes j = Some l ∧ n ∈ l ∧ published_accessrestrict n = true
           ∧ format_note n = Err e.

(** ** What a sweep leaves behind *)

(** The uris of a list, each at its first occurrence. *)
Fixpoint first_visits (uris : list string) : list string :=
  match uris with
  | [] => []
  | u :: rest => u :: List.filter (λ v, negb (String.eqb v u)) (first_visits rest)
  end.

(** The notes of a record that a sweep unpublishes, and the log entries
    they give. *)
Definition due (test : string → result bool) (j : aspace_json) : list note :=
  match notes j with
  | Some l => List.filter (Spec.unpublishes test) l
  | None => []
  end.

Definition due_entries (test : string → result bool)
  (recs : gmap string aspace_json) (u : string) : list log_entry :=
  match recs !! u with
  | Some j => map (Spec.entry u j) (due test j)
  | None => []
  end.

(** Two notes that agree on every key but [publish], and two records that
    agree on every key but [notes]. *)
Definition same_but_publish (n n' : note) : Prop :=
  jsonmodel_type n' = jsonmodel_type n ∧ note_type n' = note_type n
  ∧ content n' = content n ∧ subnotes n' = subnotes n.

Definition same_but_notes (j j' : aspace_json) : Prop :=
  uri j' = uri j ∧ title j' = title j ∧ dates j' = dates j
  ∧ parent j' = parent j ∧ display_string j' = display_string j
  ∧ instances j' = instances j ∧ linked_instances j' = linked_instances j
  ∧ collection j' = collection j.

(** A record after a visit of a sweep that did not raise. *)
Definition unpublish_record (test : string → result bool) (j : aspace_json)
  : aspace_json :=
  match notes j with
  | Some l => set_notes (map (Spec.unpublish_if test) l) j
  | None => j
  end.

(** ** What a cleanup reaches *)

(** The uris a trace fetches, in order. *)
Definition fetched_uris (tr : list request) : list string :=
  flat_map (λ r, match r with GET u => [u] | _ => [] end) tr.

(** A uri [delete_single_resource_instances] looks at. *)
Definition referenced_object (u : string) : bool :=
  PyStr.contains "digital_objects" u || PyStr.contains "top_containers" u.

(** A referenced object the cleanup can count the owners of: the backend
    has it, with [linked_instances] if it is a digital object and with
    [collection] if it is a top container. *)
Definition countable (recs : gmap string aspace_json) (u : string) : Prop :=
  (PyStr.contains "digital_objects" u = true →
   ∃ j l, recs !! u = Some j ∧ linked_instances j = Some l)
  ∧ (PyStr.contains "digital_objects" u = false →
     PyStr.contains "top_containers" u = true →
     ∃ j l, recs !! u = Some j ∧ collection j = Some l).

(** ** A fragment of lxml and sample backends, to run the client on *)

Module Sample.

(** The part of [s] after the first occurrence of [needle]. *)
Fixpoint after (needle s : string) : option string :=
  if String.prefix needle s
  then Some (String.substring (String.length needle)
                              (String.length s - String.length needle) s)
  else match s with
       | EmptyString => None
       | String _ s' => after needle s'
       end.

Fixpoint until (stop : ascii) (s : string) : string :=
  match s with
  | EmptyString => EmptyString
  | String c s' => if Ascii.eqb c stop then EmptyString else String c (until stop s')
  end.

(** [xpath("./date")] for notes that are text with at most one date
    element, its [normal] attribute in single quotes. *)
Definition xpath_date_normals (doc : string) : result (list (option string)) :=
  match after "<date normal='" doc with
  | Some rest => Ok [Some (until "'" rest)]
  | None =>
      match after "<date>" doc with
      | Some _ => Ok [None]
      | None => Ok []
      end
  end.

Definition record : aspace_json :=
  Json None None None None None None None None None.

Definition backend (recs : list (string * aspace_json))
  (ts : list (string * list tree_node)) (meta : list (string * list string))
  : client :=
  Client "/repositories/2" (list_to_map recs) (list_to_map ts) (list_to_map meta)
         [] [] [].

Definition ao (n : string) : string := "/repositories/2/archival_objects/" +:+ n.
Definition top (n : string) : string := "/repositories/2/top_containers/" +:+ n.
Definition dobj (n : string) : string := "/repositories/2/digital_objects/" +:+ n.

(** *** Trees *)

Definition leaf : tree_node := TreeNode (ao "1") false ["top_container"] [].

Definition series : tree_node :=
  TreeNode (ao "10") true []
    [TreeNode (ao "11") false ["digital_object"] [];
     TreeNode (ao "12") false ["top_container"] []].

(** *** Dates *)

Definition inclusive_1900_1910 : date := Date "inclusive" None (Some "1900") (Some "1910").
Definition inclusive_undated : date := Date "inclusive" None None None.
Definition bulk_1905 : date := Date "bulk" (Some " 1905 ") None None.

Definition dated_twice : aspace_json :=
  Json (Some (ao "1")) None (Some [inclusive_1900_1910; inclusive_undated])
       None None None None None None.

(** *** Parent chains *)

(** A record that is its own parent. *)
Definition own_parent : aspace_json :=
  Json (Some (ao "7")) (Some "Letters") None (Some (ao "7")) (Some "Letters")
       (Some []) (Some []) None None.

Definition cyclic_backend : client := backend [(ao "7", own_parent)] [] [].

Definition grandparent : aspace_json :=
  Json (Some (ao "20")) (Some "<title>Correspondence</title>") None None
       (Some "Correspondence") (Some []) (Some []) None None.

Definition parent_record : aspace_json :=
  Json (Some (ao "21")) (Some "Outgoing") (Some [inclusive_1900_1910; bulk_1905])
       (Some (ao "20")) (Some "Outgoing, 1900-1910 (bulk 1905)")
       (Some []) (Some []) None None.

Definition child_record : aspace_json :=
  Json (Some (ao "22")) None (Some [inclusive_1900_1910])
       (Some (ao "21")) (Some "1900-1910") (Some []) (Some []) None None.

Definition chain_backend : client :=
  backend [(ao "20", grandparent); (ao "21", parent_record); (ao "22", child_record)]
          [] [].

(** *** Containers *)

Definition box (collections : list string) : aspace_json :=
  Json None None None None None None None None (Some collections).

Definition digital (linked : list string) : aspace_json :=
  Json None None None None None None None (Some linked) None.

Definition in_box (n : string) : instance :=
  Instance "mixed_materials" None (Some (top n)).

Definition with_digital (n : string) : instance :=
  Instance "digital_object" (Some (dobj n)) None.

Definition housed (n : string) (l : list instance) : aspace_json :=
  Json (Some (ao n)) (Some "Folder") None None (Some "Folder") (Some [])
       (Some l) None None.

(** One archival object in box 1, to be merged into box 2. *)
Definition merge_backend : client :=
  backend [(ao "1", housed "1" [in_box "1"]);
           (top "1", box ["/repositories/2/resources/5"]);
           (top "2", box ["/repositories/2/resources/5"])]
          [] [("1", [ao "1"])].

(** Two archival objects sharing box 1 and digital object 3; box 2 is
    shared with another resource, digital object 4 with another
    instance. *)
Definition cleanup_backend : client :=
  backend [(ao "11", housed "11" [with_digital "3"; in_box "1"; in_box "2"]);
           (ao "12", housed "12" [in_box "1"; with_digital "3"; with_digital "4"]);
           (top "1", box ["/repositories/2/resources/5"]);
           (top "2", box ["/repositories/2/resources/5"; "/repositories/2/resources/6"]);
           (dobj "3", digital [ao "11"]);
           (dobj "4", digital [ao "12"; ao "99"])]
          [("5", [series])] [].

(** *** Restrictions *)

Definition restriction (published : bool) (text : string) : note :=
  Note "note_multipart" "accessrestrict" published None
       (Some [Subnote (Some text)]).

Definition scope_note : note :=
  Note "note_singlepart" "scopecontent" true (Some ["Letters."]) None.

Definition empty_restriction : note :=
  Note "note_multipart" "accessrestrict" true None (Some []).

Definition restricted (n : string) (l : list note) : aspace_json :=
  Json (Some (ao n)) (Some "Folder") None None (Some ("Folder " +:+ n)) (Some l)
       (Some []) None None.
 
Definition until_2020 : string := "Closed until <date normal='2020-01-01'>2020</date>.".
Definition until_2030 : string := "Closed until <date normal='2030-01-01'>2030</date>.".
Definition until_today : string := "Closed until <date normal='2025-06-01'>today</date>.".

Definition today : string := "2025-06-01".

Definition restricted_backend : client :=
  backend [(ao "10", restricted "10" [scope_note]);
           (ao "11", restricted "11"
              [restriction true until_2020; scope_note; restriction true until_2030;
               restriction true until_2020]);
           (ao "12", restricted "12"
              [restriction true until_today; restriction false until_2020])]
          [("5", [series])] [].

Definition broken_backend : client :=
  backend [(ao "10", restricted "10" [scope_note]);
           (ao "11", restricted "11" [scope_note; empty_restriction]);
           (ao "12", restricted "12" [restriction true until_2020])]
          [("5", [series])] [].

End Sample.

(** ** More of Python's strings *)

Module PyText.

(** [s.endswith(suffix)]: [suffix] is [s] or a tail of it. *)
Fixpoint endswith (suffix s : string) : bool :=
  String.eqb suffix s
  || match s with
     | EmptyString => false
     | String _ s' => endswith suffix s'
     end.

(** [s.rstrip(chars)] for a one-character [chars]. *)
Fixpoint rstrip_char (x : ascii) (s : string) : string :=
  match s with
  | EmptyString => EmptyString
  | String c s' =>
      match rstrip_char x s' with
      | EmptyString => if Ascii.eqb c x then EmptyString else String c EmptyString
      | r => String c r
      end
  end.

(** [s.split(sep)] for a one-character [sep]: never an empty list. *)
Fixpoint split (sep : ascii) (s : string) : list string :=
  match s with
  | EmptyString => [EmptyString]
  | String c s' =>
      if Ascii.eqb c sep then EmptyString :: split sep s'
      else match split sep s' with
           | piece :: pieces => String c piece :: pieces
           | [] => [String c EmptyString]
           end
  end.

(** [l[-1]] of a list of strings; an empty list is an [IndexError]. *)
Definition last_item (l : list string) : result string :=
  match List.rev l with
  | x :: _ => Ok x
  | [] => Err IndexError
  end.

Fixpoint has_char (x : ascii) (s : string) : bool :=
  match s with
  | EmptyString => false
  | String c s' => Ascii.eqb c x || has_char x s'
  end.

End PyText.

(** A string in which no [<] is followed by a [>] on its line: the regular
    expression of [sanitize_title] matches nowhere in it. *)
Fixpoint tagless (s : string) : Prop :=
  match s with
  | EmptyString => True
  | String c s' => (c = "<"%char → Re.tag_body_length s' = None) ∧ tagless s'
  end.

(** ** The walk of the tree projection, as a list of nodes *)

Definition node_uri (t : tree_node) : string :=
  match t with TreeNode record_uri _ _ _ => record_uri end.

Definition node_instance_types (t : tree_node) : list string :=
  match t with TreeNode _ _ instance_types _ => instance_types end.

(** The nodes both walkers come by, in the order they come by them: a node,
    then, when [has_children] is set, what is under its children. *)
Fixpoint visited_node (t : tree_node) : list tree_node :=
  match t with
  | TreeNode _ has_children _ children =>
      t :: (if has_children then flat_map visited_node children else [])
  end.

Definition visited (children : list tree_node) : list tree_node :=
  flat_map visited_node children.

(** A node [find_children_with_instances] keeps. *)
Definition carries (instance_type : option string) (t : tree_node) : bool :=
  qualifies instance_type (node_instance_types t).

(** [get_resource_children_with_instances] *)
Definition get_resource_children_with_instances (resource_number : string)
  (instance_type : option string) : M (list string) :=
  let* resource_tree := get_resource_tree_children resource_number in
  find_children_with_instances_default resource_tree instance_type.

(** ** Agents, subjects and punctuation *)

Definition verify_punctuation (subject_or_agent : string) : string :=
  if negb (PyText.endswith "." subject_or_agent
           || PyText.endswith ")" subject_or_agent
           || PyText.endswith "-" subject_or_agent)
  then subject_or_agent +:+ "."
  else subject_or_agent.

(** The test of [verify_punctuation]. *)
Definition punctuated (s : string) : bool :=
  PyText.endswith "." s || PyText.endswith ")" s || PyText.endswith "-" s.

Record term : Type := Term {
  term_text : option string
}.

Record linked_agent : Type := LinkedAgent {
  agent_ref : option string;
  agent_role : option string;
  agent_terms : option (list term)
}.

Fixpoint term_texts (l : list term) : result (list string) :=
  match l with
  | [] => Ok []
  | t :: l' =>
      match subscript "term" (term_text t) with
      | Err e => Err e
      | Ok s =>
          match term_texts l' with
          | Err e => Err e
          | Ok ss => Ok (s :: ss)
          end
      end
  end.

Definition construct_agent_name (linked_agent : linked_agent) : M string :=
  let* agent_ref := lift (subscript "ref" (agent_ref linked_agent)) in
  let* agent := get_aspace_json agent_ref in
  let* agent_name := lift (subscript "title" (title agent)) in
  match agent_terms linked_agent with
  | Some (t :: ts) =>
      let agent_name :=
        if PyText.endswith "." agent_name
        then PyText.rstrip_char "." agent_name else agent_name in
      let* terms := lift (term_texts (t :: ts)) in
      ret (verify_punctuation (PyStr.join " -- " (agent_name :: terms)))
  | _ => ret (verify_punctuation agent_name)
  end.

(** ** Extents *)

Record extent : Type := Extent {
  number : option string;
  extent_type : option string;
  container_summary : option string;
  physical_details : option string;
  dimensions : option string
}.

(** The [extents] key of the record [parse_extents] is given. *)
Record extents_json : Type := ExtentsJson {
  extents : option (list extent)
}.

Definition parenthetical_parts (e : extent) : list string :=
  omap PyStr.get_truthy
       [container_summary e; physical_details e; dimensions e].

(** The body of the loop of [parse_extents]. *)
Definition parse_extent (e : extent) : result string :=
  match subscript "number" (number e) with
  | Err err => Err err
  | Ok n =>
      match subscript "extent_type" (extent_type e) with
      | Err err => Err err
      | Ok t =>
          let parsed_extent := n +:+ " " +:+ t in
          match parenthetical_parts e with
          | [] => Ok parsed_extent
          | parts =>
              Ok (parsed_extent +:+ " (" +:+ PyStr.join "; " parts +:+ ")")
          end
      end
  end.

Fixpoint parse_extents_loop (l : list extent) (parsed_extents : list string)
  : result (list string) :=
  match l with
  | [] => Ok parsed_extents
  | e :: l' =>
      match parse_extent e with
      | Err err => Err err
      | Ok parsed_extent => parse_extents_loop l' (parsed_extents ++ [parsed_extent])
      end
  end.

Definition parse_extents (aspace_json : extents_json) : result string :=
  match parse_extents_loop
          (match extents aspace_json with Some l => l | None => [] end) [] with
  | Err err => Err err
  | Ok [] => Ok ""
  | Ok parsed_extents => Ok (PyStr.join "; " parsed_extents)
  end.

(** ** Notes by type *)

(** What [find_notes_by_type] returns: the empty string or the notes. *)
Inductive notes_found : Type :=
| NoNotes
| Notes (l : list note).

Definition matching_notes (note_type' : string) (l : list note) : list note :=
  List.filter (fun n => String.eqb (note_type n) note_type') l.

Definition find_notes_by_type (aspace_json : aspace_json) (note_type' : string)
  : result notes_found :=
  match subscript "notes" (notes aspace_json) with
  | Err e => Err e
  | Ok l =>
      match matching_notes note_type' l with
      | [] => Ok NoNotes
      | found => Ok (Notes found)
      end
  end.

Definition find_note_by_type (aspace_json : aspace_json) (note_type' : string)
  : result string :=
  match subscript "notes" (notes aspace_json) with
  | Err e => Err e
  | Ok l =>
      match matching_notes note_type' l with
      | [] => Ok ""
      | n :: _ => format_note n
      end
  end.

(** ** The most proximate date *)

(** The [while not aspace_json.get("dates") and aspace_json.get("parent")]
    loop, at most [fuel] iterations. *)
Fixpoint get_most_proximate_date (fuel : nat) (aspace_json : aspace_json)
  : M (run string) :=
  match has_dates aspace_json, parent aspace_json with
  | false, Some parent_ref =>
      match fuel with
      | O => ret StillLooping
      | S fuel' =>
          let* parent_json := get_aspace_json parent_ref in
          get_most_proximate_date fuel' parent_json
      end
  | _, _ => ret (Returned (format_dates aspace_json))
  end.

(** The record whose dates [get_most_proximate_date] formats, and the
    number of fetches on the way to it. *)
Inductive nearest_dated (recs : gmap string aspace_json)
  : aspace_json → nat → aspace_json → Prop :=
| nearest_here j : has_dates j = true → nearest_dated recs j 0 j
| nearest_root j : has_dates j = false → parent j = None → nearest_dated recs j 0 j
| nearest_up j p pj n j' :
    has_dates j = false → parent j = Some p → recs !! p = Some pj →
    nearest_dated recs pj n j' → nearest_dated recs j (S n) j'.

(** ** Hierarchy: the ancestors of a record *)

(** What [make_display_string] returns without [add_parent_title]. *)
Definition own_display_string (j : aspace_json) : option string :=
  match get_title j, has_dates j with
  | Some t, true => Some (sanitize_title t +:+ ", " +:+ format_dates j)
  | Some t, false => Some (sanitize_title t)
  | None, true => Some (format_dates j)
  | None, false => None
  end.

(** The records up the parent chain of a record, nearest first, with the
    uris they were fetched at. *)
Inductive ancestors (recs : gmap string aspace_json)
  : aspace_json → list (string * aspace_json) → Prop :=
| ancestors_root j : parent j = None → ancestors recs j []
| ancestors_parent j p pj l :
    parent j = Some p → recs !! p = Some pj → ancestors recs pj l →
    ancestors recs j ((p, pj) :: l).

(** The client after a run of requests that change no record. *)
Definition send_all (rs : list request) (c : client) : client :=
  fold_left (λ c' r, send r c') rs c.

(** ** Instances and the posting methods *)

Definition make_digital_object_instance (digital_object_uri : string) : instance :=
  Instance "digital_object" (Some digital_object_uri) None.

Definition update_top_container (container_id : string) (container_json : aspace_json)
  : M unit :=
  fun c =>
    post_aspace_json (repository c +:+ "/top_containers/" +:+ container_id)
                     container_json c.

Definition post_digital_object (digital_object_json : aspace_json) : M unit :=
  fun c => post_aspace_json (repository c +:+ "/digital_objects") digital_object_json c.

(** The uris a trace posts to, in order. *)
Definition posted_uris (tr : list request) : list string :=
  flat_map (λ r, match r with POST u => [u] | _ => [] end) tr.

(** ** Links and collection identifiers *)

(** [make_archival_object_link]; [frontend_url] is [self.frontend_url]. *)
Definition make_archival_object_link (frontend_url resource_number aspace_uri : string)
  : result string :=
  match PyText.last_item (PyText.split "/" aspace_uri) with
  | Err e => Err e
  | Ok archival_object_number =>
      Ok (frontend_url +:+ "/resources/" +:+ resource_number
          +:+ "#tree::archival_object_" +:+ archival_object_number)
  end.

(** The [ead_id] and [id_0] keys of the record [get_collection_id] is
    given. *)
Record resource_ids : Type := ResourceIds {
  ead_id : option string;
  id_0 : option string
}.

Section CollectionId.

(** [re.findall(r"^[\d\.]+", identifier)]: the leading run of digits and
    dots of the identifier when it has one. *)
Variable leading_digits_and_dots : string → option string.

Definition get_collection_id (resource_json : resource_ids) : result string :=
  match subscript "id_0" (id_0 resource_json) with
  | Err e => Err e
  | Ok id =>
      let identifier := PyStr.strip id in
      match PyStr.get_truthy (ead_id resource_json) with
      | Some ead => Ok (PyStr.join "-" (drop 2 (PyText.split "-" ead)))
      | None =>
          match leading_digits_and_dots identifier with
          | Some collection_id => Ok collection_id
          | None => Ok ""
          end
      end
  end.

End CollectionId.

(** ** More sample records *)

Module Cases.

Definition agent_uri : string := "/agents/people/1".

Definition agent_record : aspace_json :=
  Json (Some agent_uri) (Some "Smith, John.") None None None None None None None.

Definition agent_backend : client :=
  Sample.backend [(agent_uri, agent_record)] [] [].

Definition correspondent : linked_agent :=
  LinkedAgent (Some agent_uri) (Some "creator") (Some [Term (Some "Correspondence")]).

Definition boxes : extent :=
  Extent (Some "3") (Some "boxes") None None (Some "10x12").

Definition folders : extent :=
  Extent (Some "2") (Some "folders") (Some "in 1 box") (Some "") None.

Definition measured : extents_json := ExtentsJson (Some [boxes; folders]).

Definition other_date : date := Date "digitized" (Some "2019") None None.
Definition bulk_1907 : date := Date "bulk" (Some "1907") None None.

Definition dated (ds : list date) : aspace_json :=
  Json (Some (Sample.ao "1")) None (Some ds) None None None None None None.

Definition undated_child : aspace_json :=
  Json (Some (Sample.ao "23")) (Some "Drafts") None (Some (Sample.ao "22")) None
       (Some []) (Some []) None None.

Definition untitled_parent : aspace_json :=
  Json (Some (Sample.ao "30")) None None None None (Some []) (Some []) None None.

Definition orphan_child : aspace_json :=
  Json (Some (Sample.ao "31")) (Some "Notes") None (Some (Sample.ao "30")) None
       (Some []) (Some []) None None.

Definition untitled_backend : client :=
  Sample.backend [(Sample.ao "30", untitled_parent); (Sample.ao "31", orphan_child)]
                 [] [].

Definition empty_merge_backend : client :=
  Sample.backend [(Sample.top "1", Sample.box [])] [] [("1", [])].

Definition digital_merge_backend : client :=
  Sample.backend [(Sample.ao "1",
                   Sample.housed "1" [Sample.in_box "1";
                                      make_digital_object_instance (Sample.dobj "3")]);
                  (Sample.top "1", Sample.box [])]
                 [] [("1", [Sample.ao "1"])].

Definition digitized_backend : client :=
  Sample.backend [(Sample.ao "1",
                   Sample.housed "1"
                     (map make_digital_object_instance
                          [Sample.dobj "3"; Sample.dobj "4"]))]
                 [] [].

Definition two_resources : client :=
  Sample.backend [] [("5", [Sample.series]); ("6", [Sample.leaf])] [].

Definition noted : aspace_json :=
  Sample.restricted "11"
    [Sample.scope_note; Sample.restriction true Sample.until_2020;
     Sample.restriction true Sample.until_2030].

End Cases.

(** * Properties *)

(** ** Strings *)

Lemma append_empty_r (s : string) : s +:+ "" = s.
Proof.
  induction s as [|a s IH]; [reflexivity|].
  change (String a (s +:+ "") = String a s). by rewrite IH.
Qed.

Lemma lt_irreflexive (s : string) : PyStr.lt s s = false.
Proof.
  unfold PyStr.lt, String.ltb.
  pose proof (String.compare_antisym s s) as H.
  destruct (String.compare s s); [reflexivity | discriminate | reflexivity].
Qed.

(** ** The monad *)

Lemma bind_inv_ok {A B} (m : M A) (k : A → M B) c b c'' :
  bind m k c = (Ok b, c'') → ∃ a c', m c = (Ok a, c') ∧ k a c' = (Ok b, c'').
Proof.
  unfold bind. destruct (m c) as [[a|e] c']; [eauto | discriminate].
Qed.

(** ** Tree walkers *)

Lemma tree_node_induction (P : tree_node → Prop) :
  (∀ u hc its cs, Forall P cs → P (TreeNode u hc its cs)) → ∀ t, P t.
Proof.
  intros step. fix IH 1. intros [u hc its cs]. apply step.
  induction cs as [|c cs IHcs]; constructor; [apply IH | exact IHcs].
Qed.

Lemma fold_walk_app (walk : tree_node → list string → list string) cs :
  Forall (λ c, ∀ acc, walk c acc = acc ++ walk c []) cs →
  ∀ acc, fold_left (λ a c, walk c a) cs acc
         = acc ++ fold_left (λ a c, walk c a) cs [].
Proof.
  induction 1 as [|c cs Hc _ IH]; intros acc; simpl.
  - by rewrite app_nil_r.
  - rewrite IH, (IH (walk c [])), Hc. by rewrite app_assoc.
Qed.

Lemma extract_node_app t : ∀ acc, extract_node t acc = acc ++ extract_node t [].
Proof.
  induction t as [u hc its cs IH] using tree_node_induction. intros acc. simpl.
  destruct hc; [|reflexivity].
  rewrite (fold_walk_app extract_node cs IH (acc ++ [u])).
  rewrite (fold_walk_app extract_node cs IH [u]). by rewrite app_assoc.
Qed.

Lemma extract_app children acc :
  extract_archival_object_uris_from_children children acc
  = acc ++ extract_archival_object_uris_from_children children [].
Proof.
  apply (fold_walk_app extract_node). apply Forall_forall. intros t _.
  apply extract_node_app.
Qed.

Lemma find_node_app it t : ∀ acc, find_node it t acc = acc ++ find_node it t [].
Proof.
  induction t as [u hc its cs IH] using tree_node_induction. intros acc. simpl.
  destruct hc, (qualifies it its); simpl;
    rewrite ?(fold_walk_app (find_node it) cs IH (acc ++ [u])),
            ?(fold_walk_app (find_node it) cs IH [u]),
            ?(fold_walk_app (find_node it) cs IH acc);
    rewrite ?app_assoc, ?app_nil_r; reflexivity.
Qed.

Lemma find_app children acc it :
  find_children_with_instances children acc it
  = acc ++ find_children_with_instances children [] it.
Proof.
  apply (fold_walk_app (find_node it)). apply Forall_forall. intros t _.
  apply find_node_app.
Qed.

(** What a call that leaves the accumulator to its default returns, and
    what it leaves behind for the next call. *)
Lemma extract_default_run children c :
  extract_archival_object_uris_from_children_default children c
  = (Ok (default_archival_object_uris c
         ++ extract_archival_object_uris_from_children children []),
     set_default_archival_object_uris
       (default_archival_object_uris c
        ++ extract_archival_object_uris_from_children children []) c).
Proof.
  unfold extract_archival_object_uris_from_children_default.
  by rewrite extract_app.
Qed.

Lemma find_default_run children instance_type c :
  find_children_with_instances_default children instance_type c
  = (Ok (default_children_with_instances c
         ++ find_children_with_instances children [] instance_type),
     set_default_children_with_instances
       (default_children_with_instances c
        ++ find_children_with_instances children [] instance_type) c).
Proof.
  unfold find_children_with_instances_default. by rewrite find_app.
Qed.

(** C1: the walkers do not return a fresh list per call.  On the
    one-leaf tree, starting from a client whose default lists are still
    empty, the first call of either walker returns the leaf's uri and the
    second call, on the same tree, returns it twice: the default list
    object is appended to again.  On any tree, a call returns what the
    default list held before it followed by the uris of the tree, and the
    next call starts from that. *)
Theorem C1_second_call_returns_the_first_result_too :
  (let c0 := Sample.backend [] [] [] in
   let first := extract_archival_object_uris_from_children_default [Sample.leaf] c0 in
   let second :=
     extract_archival_object_uris_from_children_default [Sample.leaf] (snd first) in
   let first' := find_children_with_instances_default [Sample.leaf] None c0 in
   let second' := find_children_with_instances_default [Sample.leaf] None (snd first') in
   fst first = Ok [Sample.ao "1"]
   ∧ fst second = Ok [Sample.ao "1"; Sample.ao "1"]
   ∧ fst first' = Ok [Sample.ao "1"]
   ∧ fst second' = Ok [Sample.ao "1"; Sample.ao "1"])
  ∧ (∀ children c,
       let walk := extract_archival_object_uris_from_children children [] in
       let first := extract_archival_object_uris_from_children_default children c in
       fst first = Ok (default_archival_object_uris c ++ walk)
       ∧ fst (extract_archival_object_uris_from_children_default children (snd first))
         = Ok (default_archival_object_uris c ++ walk ++ walk))
  ∧ (∀ children instance_type c,
       let walk := find_children_with_instances children [] instance_type in
       let first := find_children_with_instances_default children instance_type c in
       fst first = Ok (default_children_with_instances c ++ walk)
       ∧ fst (find_children_with_instances_default children instance_type (snd first))
         = Ok (default_children_with_instances c ++ walk ++ walk)).
Proof.
  split; [by repeat split|]. split.
  - intros children c walk first. subst first.
    rewrite !extract_default_run. simpl. by rewrite <- app_assoc.
  - intros children it c walk first. subst first.
    rewrite !find_default_run. simpl. by rewrite <- app_assoc.
Qed.

(** ** Dates *)

Lemma date_expression_effective d :
  date_expression d = Spec.effective_expression d.
Proof.
  unfold date_expression, Spec.effective_expression, PyStr.get_truthy, Spec.present,
    Spec.value.
  destruct (expression d) as [e|]; [destruct (PyStr.truthy e); [reflexivity|]|];
    (destruct (date_begin d) as [b|]; [destruct (PyStr.truthy b)|]; simpl;
     [destruct (date_end d) as [x|]; [destruct (PyStr.truthy x)|]|..]; reflexivity).
Qed.

Lemma format_dates_loop_spec ds : ∀ inclusive_dates bulk_dates,
  format_dates_loop ds inclusive_dates bulk_dates
  = (inclusive_dates ++ Spec.trimmed_expressions "inclusive" ds,
     bulk_dates ++ Spec.trimmed_expressions "bulk" ds).
Proof.
  unfold Spec.trimmed_expressions.
  induction ds as [|d ds IH]; intros inc bulk; simpl.
  - by rewrite !app_nil_r.
  - rewrite IH, date_expression_effective. unfold Spec.of_type.
    destruct (String.eqb (date_type d) "inclusive"),
             (String.eqb (date_type d) "bulk"); simpl;
      rewrite <- ?app_assoc; reflexivity.
Qed.

Lemma format_dates_joins_all (j : aspace_json) :
  format_dates j = Spec.format_dates false (get_dates j).
Proof.
  unfold format_dates, has_dates, Spec.format_dates.
  destruct (get_dates j) as [|d ds] eqn:E; [reflexivity|].
  rewrite format_dates_loop_spec. simpl app.
  destruct (Spec.trimmed_expressions "bulk" (d :: ds)); [|reflexivity].
  by rewrite append_empty_r.
Qed.

(** C3, as amended: the effective expression of an entry is as stated, the
    output is the join of the trimmed expressions of all inclusive entries,
    empty ones included, followed by the first bulk expression in
    parentheses when there is a bulk entry; other entries are ignored, and
    absent or empty dates give the empty string. *)
Theorem C3_format_dates_joins_all_inclusive_expressions (j : aspace_json) :
  format_dates j = Spec.format_dates false (get_dates j)
  ∧ match dates j with Some (_ :: _) => True | _ => format_dates j = "" end.
Proof.
  split; [apply format_dates_joins_all|].
  unfold format_dates, has_dates, get_dates.
  by destruct (dates j) as [[|d ds]|].
Qed.

(** C3, as stated, fails: an inclusive entry with neither expression nor
    begin contributes an empty item to the join. *)
Lemma C3_empty_inclusive_expression_is_joined :
  format_dates Sample.dated_twice = "1900-1910, "
  ∧ Spec.format_dates true (get_dates Sample.dated_twice) = "1900-1910"
  ∧ format_dates Sample.dated_twice
    ≠ Spec.format_dates true (get_dates Sample.dated_twice).
Proof. repeat split. discriminate. Qed.

(** Where no inclusive expression is empty the two readings agree. *)
Lemma format_dates_without_empty_expressions (j : aspace_json) :
  forallb PyStr.truthy (Spec.trimmed_expressions "inclusive" (get_dates j)) = true →
  format_dates j = Spec.format_dates true (get_dates j).
Proof.
  intros H. rewrite format_dates_joins_all.
  unfold Spec.format_dates.
  replace (List.filter PyStr.truthy (Spec.trimmed_expressions "inclusive" (get_dates j)))
    with (Spec.trimmed_expressions "inclusive" (get_dates j)); [reflexivity|].
  induction (Spec.trimmed_expressions "inclusive" (get_dates j)) as [|s l IH];
    [reflexivity|].
  simpl in *. apply andb_true_iff in H as [-> H]. by rewrite <- IH.
Qed.

(** ** Container merge *)

(** [post_aspace_json] passes [json=] to [_post], which has no such
    parameter: the call raises before anything is sent. *)
Lemma post_aspace_json_raises aspace_uri json c :
  post_aspace_json aspace_uri json c
  = (Err (TypeError "_post() got an unexpected keyword argument"), c).
Proof. reflexivity. Qed.

Lemma update_aspace_object_raises aspace_uri json c :
  ∃ e, update_aspace_object aspace_uri json c = (Err e, c).
Proof.
  unfold update_aspace_object, bind, lift, subscript.
  destruct (uri json) as [u|]; [|eauto].
  destruct (String.eqb aspace_uri u); [|unfold raise; eauto].
  rewrite post_aspace_json_raises. eauto.
Qed.

(** An archival object of the merge is fetched and the merge raises: at
    the fetch, at its instances, or at the write-back. *)
Lemma merge_one_raises source_uri target_uri u c :
  ∃ e, merge_one source_uri target_uri u c = (Err e, send (GET u) c).
Proof.
  unfold merge_one, bind, get_aspace_json, lift, subscript.
  destruct (records c !! u) as [j|]; [|eauto].
  destruct (instances j) as [l|]; [|eauto].
  destruct (repoint_instances source_uri target_uri l) as [l'|]; [|eauto].
  destruct (update_aspace_object_raises u (set_instances l' j) (send (GET u) c))
    as [e ->].
  eauto.
Qed.

(** The records after a merge: as before, or without the source. *)
Lemma merge_records source_id target_id c r c' :
  merge_top_containers source_id target_id c = (r, c') →
  records c' = records c
  ∨ records c' = delete (top_container_uri c source_id) (records c).
Proof.
  unfold merge_top_containers, bind at 1, get_metadata_for_container.
  destruct (container_metadata c !! source_id) as [[|u us]|];
    [| |intros [= _ <-]; by left].
  - simpl for_each. unfold bind, ret, delete_aspace_object.
    change (records (send (GET_METADATA source_id) c)) with (records c).
    change (top_container_uri (send (GET_METADATA source_id) c) source_id)
      with (top_container_uri c source_id).
    destruct (records c !! top_container_uri c source_id);
      intros [= _ <-]; [by right | by left].
  - simpl for_each. unfold bind at 1. unfold bind at 1.
    match goal with
    | |- context [merge_one ?s ?t ?v ?c0] =>
        destruct (merge_one_raises s t v c0) as [e ->]
    end.
    intros [= _ <-]. by left.
Qed.

(** Whatever the backend holds, a merge whose source is referenced by at
    least one archival object raises, and the records are as before. *)
Lemma merge_with_a_referencing_object_raises source_id target_id c u us :
  container_metadata c !! source_id = Some (u :: us) →
  ∃ e c', merge_top_containers source_id target_id c = (Err e, c')
          ∧ records c' = records c.
Proof.
  intros Hmeta. unfold merge_top_containers, bind at 1, get_metadata_for_container.
  rewrite Hmeta. simpl for_each. unfold bind at 1. unfold bind at 1.
  unfold merge_one, bind at 1, get_aspace_json. simpl records.
  destruct (records c !! u) as [j|]; [|eauto].
  unfold bind at 1, lift, subscript.
  destruct (instances j) as [l|]; [|eauto].
  unfold bind at 1.
  destruct (repoint_instances _ _ l) as [l'|e]; [|eauto].
  destruct (update_aspace_object_raises u (set_instances l' j)
              (send (GET u) (send (GET_METADATA source_id) c))) as [e ->].
  eauto.
Qed.

(** C4: on a backend with one archival object housed in box 1, merging
    box 1 into box 2 raises a [TypeError] at the write-back; nothing was
    posted or deleted: the object still refers to box 1 and box 1 still
    exists. *)
Theorem C4_merge_raises_at_the_first_write_back :
  let r := merge_top_containers "1" "2" Sample.merge_backend in
  fst r = Err (TypeError "_post() got an unexpected keyword argument")
  ∧ trace (snd r) = [GET_METADATA "1"; GET (Sample.ao "1")]
  ∧ records (snd r) !! Sample.ao "1"
    = Some (Sample.housed "1" [Sample.in_box "1"])
  ∧ is_Some (records (snd r) !! Sample.top "1").
Proof. vm_compute. repeat split. eauto. Qed.

(** ** Display strings *)

Lemma get_title_present j t :
  title j = Some t → PyStr.truthy t = true → get_title j = Some t.
Proof. unfold get_title, PyStr.get_truthy. by intros -> ->. Qed.

Lemma get_title_absent j : Spec.present (title j) = false → get_title j = None.
Proof.
  unfold get_title, PyStr.get_truthy, Spec.present.
  destruct (title j) as [t|]; [by intros ->|reflexivity].
Qed.

(** Without [add_parent_title] nothing is fetched and nothing raises. *)
Lemma make_display_string_alone j c :
  ∃ s, make_display_string j false c = (Ok s, c).
Proof.
  unfold make_display_string.
  destruct (get_title j), (has_dates j); unfold ret; eauto.
Qed.

(** C6: the display string by the presence of title and dates.  A title
    is present when the key holds a non-empty string, dates when the key
    holds a non-empty list.  With [add_parent_title] and no title the
    parent is fetched and its stored [display_string] is used, whatever
    its title and dates are. *)
Theorem C6_make_display_string_priority_rules
  (j : aspace_json) (add_parent_title : bool) (c : client) :
  (∀ t, title j = Some t → PyStr.truthy t = true → has_dates j = true →
     make_display_string j add_parent_title c
     = (Ok (Some (sanitize_title t +:+ ", " +:+ format_dates j)), c))
  ∧ (∀ t, title j = Some t → PyStr.truthy t = true → has_dates j = false →
       make_display_string j add_parent_title c = (Ok (Some (sanitize_title t)), c))
  ∧ (Spec.present (title j) = false → has_dates j = true →
     add_parent_title = false →
     make_display_string j add_parent_title c = (Ok (Some (format_dates j)), c))
  ∧ (∀ p pj d, Spec.present (title j) = false → has_dates j = true →
       add_parent_title = true →
       parent j = Some p → records c !! p = Some pj → display_string pj = Some d →
       make_display_string j add_parent_title c
       = (Ok (Some (sanitize_title d +:+ ", " +:+ format_dates j)), send (GET p) c)).
Proof.
  unfold make_display_string. repeat split.
  - intros t Ht Hne ->. by rewrite (get_title_present j t Ht Hne).
  - intros t Ht Hne ->. by rewrite (get_title_present j t Ht Hne).
  - intros Hno -> ->. by rewrite (get_title_absent j Hno).
  - intros p pj d Hno -> -> Hp Hpj Hd. rewrite (get_title_absent j Hno).
    unfold bind, lift, subscript, get_aspace_json. by rewrite Hp, Hpj, Hd.
Qed.

Lemma C6_make_display_string_priority_rules_witness :
  make_display_string Sample.parent_record false Sample.chain_backend
  = (Ok (Some "Outgoing, 1900-1910 (bulk 1905)"), Sample.chain_backend)
  ∧ make_display_string Sample.grandparent true Sample.chain_backend
    = (Ok (Some "Correspondence"), Sample.chain_backend)
  ∧ make_display_string Sample.child_record false Sample.chain_backend
    = (Ok (Some "1900-1910"), Sample.chain_backend)
  ∧ make_display_string Sample.child_record true Sample.chain_backend
    = (Ok (Some "Outgoing, 1900-1910 (bulk 1905), 1900-1910"),
       send (GET (Sample.ao "21")) Sample.chain_backend).
Proof.
  split; [|split; [|split]].
  - exact (proj1 (C6_make_display_string_priority_rules
                    Sample.parent_record false Sample.chain_backend)
             "Outgoing" eq_refl eq_refl eq_refl).
  - exact (proj1 (proj2 (C6_make_display_string_priority_rules
                           Sample.grandparent true Sample.chain_backend))
             "<title>Correspondence</title>" eq_refl eq_refl eq_refl).
  - exact (proj1 (proj2 (proj2 (C6_make_display_string_priority_rules
                                  Sample.child_record false Sample.chain_backend)))
             eq_refl eq_refl eq_refl).
  - exact (proj2 (proj2 (proj2 (C6_make_display_string_priority_rules
                                  Sample.child_record true Sample.chain_backend)))
             (Sample.ao "21") Sample.parent_record "Outgoing, 1900-1910 (bulk 1905)"
             eq_refl eq_refl eq_refl eq_refl eq_refl eq_refl).
Defined.

(** ** Hierarchy *)

Lemma build_hierarchy_loop_ends recs j n :
  chain_ends recs j n →
  ∀ fuel titles c, records c = recs → n ≤ fuel →
    build_hierarchy_loop fuel j titles c = build_hierarchy_loop n j titles c
    ∧ ∀ c', build_hierarchy_loop fuel j titles c ≠ (Ok StillLooping, c').
Proof.
  induction 1 as [j Hroot | j p Hp Hnone | j p pj n Hp Hsome Hends IH];
    intros fuel titles c Hrecs Hle.
  - destruct fuel; simpl; rewrite Hroot; split; try reflexivity; discriminate.
  - destruct fuel as [|fuel]; [lia|]. simpl. rewrite Hp.
    unfold bind, get_aspace_json. rewrite Hrecs, Hnone.
    split; [reflexivity | discriminate].
  - destruct fuel as [|fuel]; [lia|]. simpl. rewrite Hp.
    unfold bind at 1 3 5, get_aspace_json. rewrite Hrecs, Hsome.
    unfold bind.
    destruct (make_display_string_alone pj (send (GET p) c)) as [s ->].
    apply IH; [exact Hrecs | lia].
Qed.

Lemma build_hierarchy_loop_cyclic recs inside :
  chain_cyclic recs inside →
  ∀ fuel j titles c, records c = recs → inside j →
    ∃ c', build_hierarchy_loop fuel j titles c = (Ok StillLooping, c').
Proof.
  intros Hcyc. induction fuel as [|fuel IH]; intros j titles c Hrecs Hin;
    destruct (Hcyc j Hin) as (p & pj & Hp & Hpj & Hin'); simpl; rewrite Hp.
  - unfold ret. eauto.
  - unfold bind at 1, get_aspace_json. rewrite Hrecs, Hpj. unfold bind.
    destruct (make_display_string_alone pj (send (GET p) c)) as [s ->].
    apply IH; [exact Hrecs | exact Hin'].
Qed.

Lemma build_hierarchy_cyclic recs inside :
  chain_cyclic recs inside →
  ∀ fuel j delimiter c, records c = recs → inside j →
    fst (build_hierarchy fuel j delimiter c) = Ok StillLooping.
Proof.
  intros Hcyc fuel j delimiter c Hrecs Hin. unfold build_hierarchy, bind.
  destruct (build_hierarchy_loop_cyclic recs inside Hcyc fuel j [] c Hrecs Hin)
    as [c' ->].
  reflexivity.
Qed.

Lemma own_parent_cyclic :
  chain_cyclic (records Sample.cyclic_backend) (λ j, j = Sample.own_parent).
Proof.
  intros j ->. exists (Sample.ao "7"), Sample.own_parent. repeat split.
Qed.

(** C2, as amended: [build_hierarchy] returns for every parent chain that
    ends, after as many iterations as the chain has fetches; it keeps no
    set of visited uris, and on a chain that runs into a cycle the loop is
    still running after any number of iterations. *)
Theorem C2_build_hierarchy_returns_on_chains_that_end
  (j : aspace_json) (delimiter : string) (c : client) :
  (∀ n fuel, chain_ends (records c) j n → n ≤ fuel →
     build_hierarchy fuel j delimiter c = build_hierarchy n j delimiter c
     ∧ fst (build_hierarchy fuel j delimiter c) ≠ Ok StillLooping)
  ∧ (∀ inside fuel, chain_cyclic (records c) inside → inside j →
       fst (build_hierarchy fuel j delimiter c) = Ok StillLooping).
Proof.
  split.
  - intros n fuel Hends Hle.
    destruct (build_hierarchy_loop_ends _ j n Hends fuel [] c eq_refl Hle)
      as [Heq Hne].
    unfold build_hierarchy, bind. rewrite Heq in *. split; [reflexivity|].
    destruct (build_hierarchy_loop n j [] c) as [[[titles|]|e] c'] eqn:E.
    + unfold ret, lift. destruct (rev titles) as [|o l]; simpl; [by intros [=]|].
      destruct o; [destruct (all_strings l)|]; simpl; by intros [=].
    + by destruct (Hne c').
    + discriminate.
  - intros inside fuel Hcyc Hin.
    by apply (build_hierarchy_cyclic (records c) inside).
Qed.

Lemma C2_build_hierarchy_returns_on_chains_that_end_witness :
  fst (build_hierarchy 5 Sample.child_record ">" Sample.chain_backend)
  = Ok (Returned "Correspondence > Outgoing, 1900-1910 (bulk 1905)")
  ∧ fst (build_hierarchy 5 Sample.child_record ">" Sample.chain_backend)
    ≠ Ok StillLooping
  ∧ fst (build_hierarchy 5 Sample.own_parent ">" Sample.cyclic_backend)
    = Ok StillLooping.
Proof.
  split; [reflexivity | split].
  - refine (proj2 (proj1 (C2_build_hierarchy_returns_on_chains_that_end
                            Sample.child_record ">" Sample.chain_backend) 2 5 _ _)).
    + eapply chain_parent; [reflexivity | reflexivity |].
      eapply chain_parent; [reflexivity | reflexivity |].
      by apply chain_root.
    + lia.
  - exact (proj2 (C2_build_hierarchy_returns_on_chains_that_end
                    Sample.own_parent ">" Sample.cyclic_backend)
             (λ j, j = Sample.own_parent) 5 own_parent_cyclic eq_refl).
Defined.

(** C2, as stated, fails: a record that is its own parent is fetched again
    and again; no number of iterations ends the loop and no error is
    raised. *)
Lemma C2_own_parent_loops_forever :
  records Sample.cyclic_backend !! Sample.ao "7" = Some Sample.own_parent
  ∧ parent Sample.own_parent = Some (Sample.ao "7")
  ∧ ∀ fuel, fst (build_hierarchy fuel Sample.own_parent ">" Sample.cyclic_backend)
            = Ok StillLooping.
Proof.
  split; [reflexivity|]. split; [reflexivity|]. intros fuel.
  by apply (build_hierarchy_cyclic _ _ own_parent_cyclic).
Qed.

(** ** Restriction sweeps *)

Lemma unpublishes_inv test n :
  Spec.unpublishes test n = true →
  published_accessrestrict n = true
  ∧ ∃ text, format_note n = Ok text ∧ test text = Ok true.
Proof.
  unfold Spec.unpublishes. intros [Hp H]%andb_true_iff. split; [exact Hp|].
  destruct (format_note n) as [text|]; [|discriminate].
  destruct (test text) as [[]|] eqn:E; try discriminate. eauto.
Qed.

(** The loop over the notes, when it does not raise, is a map over the
    notes and gives one entry per note it unpublished, in order. *)
Lemma unpublish_notes_ok test u d l : ∀ l' update entries,
  unpublish_notes test u d l = Ok (l', update, entries) →
  l' = map (Spec.unpublish_if test) l
  ∧ update = (match List.filter (Spec.unpublishes test) l with
              | [] => false | _ => true end)
  ∧ entries
    = map (λ n, LogEntry u (Spec.value d)
                  (match format_note n with Ok text => text | Err _ => "" end))
          (List.filter (Spec.unpublishes test) l).
Proof.
  induction l as [|n l IH]; intros l' update entries; simpl unpublish_notes.
  - intros [= <- <- <-]. done.
  - intros H.
    change (map (Spec.unpublish_if test) (n :: l))
      with (Spec.unpublish_if test n :: map (Spec.unpublish_if test) l).
    simpl List.filter. unfold Spec.unpublish_if at 1.
    assert (Spec.unpublishes test n
            = published_accessrestrict n
              && match format_note n with
                 | Ok text => match test text with Ok b => b | Err _ => false end
                 | Err _ => false
                 end) as Hu by reflexivity.
    destruct (published_accessrestrict n); simpl in Hu.
    + destruct (format_note n) as [text|e] eqn:Ef; [|discriminate].
      destruct (test text) as [[]|e]; [| |discriminate]; rewrite Hu.
      * destruct d as [t|]; simpl in H; [|discriminate].
        destruct (unpublish_notes test u (Some t) l) as [[[l1 u1] e1]|e] eqn:E;
          [|discriminate].
        injection H as <- <- <-. destruct (IH _ _ _ eq_refl) as (-> & _ & ->).
        simpl. by rewrite Ef.
      * destruct (unpublish_notes test u d l) as [[[l1 u1] e1]|e] eqn:E;
          [|discriminate].
        injection H as <- <- <-. by destruct (IH _ _ _ eq_refl) as (-> & -> & ->).
    + rewrite Hu.
      destruct (unpublish_notes test u d l) as [[[l1 u1] e1]|e] eqn:E; [|discriminate].
      injection H as <- <- <-. by destruct (IH _ _ _ eq_refl) as (-> & -> & ->).
Qed.

Lemma unpublish_if_step test n : note_step test n (Spec.unpublish_if test n).
Proof.
  unfold Spec.unpublish_if. destruct (Spec.unpublishes test n) eqn:E.
  - right. split; [reflexivity|]. by apply unpublishes_inv.
  - by left.
Qed.

Lemma map_unpublish_if_step test l :
  Forall2 (note_step test) l (map (Spec.unpublish_if test) l).
Proof. induction l; constructor; [apply unpublish_if_step | done]. Qed.

(** One archival object of a sweep that does not raise. *)
Lemma sweep_archival_object_ok test u c entries c' :
  sweep_archival_object test u c = (Ok entries, c') →
  ∃ j l, records c !! u = Some j ∧ notes j = Some l
    ∧ entries = map (Spec.entry u j) (List.filter (Spec.unpublishes test) l)
    ∧ c' = match List.filter (Spec.unpublishes test) l with
           | [] => send (GET u) c
           | _ => set_records (insert u (set_notes (map (Spec.unpublish_if test) l) j))
                    (send (POST u) (send (GET u) c))
           end.
Proof.
  unfold sweep_archival_object, bind at 1, get_aspace_json.
  destruct (records c !! u) as [j|] eqn:Ej; [|discriminate].
  unfold bind at 1, lift at 1, subscript.
  destruct (notes j) as [l|] eqn:El; [|discriminate].
  unfold bind at 1, lift.
  destruct (unpublish_notes test u (display_string j) l) as [[[l' update] es]|e] eqn:E;
    [|discriminate].
  destruct (unpublish_notes_ok _ _ _ _ _ _ _ E) as (-> & -> & ->).
  intros H. exists j, l. split; [reflexivity|]. split; [exact El|].
  destruct (List.filter (Spec.unpublishes test) l);
    unfold bind, ret, session_post in H; simpl in H; by injection H as <- <-.
Qed.

(** The sweep, when it does not raise, sends the requests, returns the log
    and leaves the records that the specification's sweep gives. *)
Lemma sweep_refines test uris : ∀ unpublished_log c log c',
  sweep test uris unpublished_log c = (Ok log, c') →
  ∃ tr lg, Spec.sweep test uris (records c) = (tr, lg, records c')
    ∧ log = unpublished_log ++ lg
    ∧ trace c' = trace c ++ tr.
Proof.
  induction uris as [|u uris IH]; intros acc c log c'; simpl.
  - intros [= <- <-]. exists [], []. by rewrite !app_nil_r.
  - intros H. apply bind_inv_ok in H as (entries & c1 & H1 & H2).
    apply sweep_archival_object_ok in H1 as (j & l & Hj & Hl & -> & ->).
    apply IH in H2 as (tr & lg & Hspec & -> & Htr).
    rewrite Hj, Hl.
    destruct (List.filter (Spec.unpublishes test) l) as [|n hits] eqn:Ehits;
      simpl in Hspec, Htr; rewrite Hspec; rewrite <- ?app_assoc in Htr.
    + exists (GET u :: tr), lg. rewrite Htr, <- app_assoc.
      split; [|split]; reflexivity.
    + exists (GET u :: POST u :: tr), (map (Spec.entry u j) (n :: hits) ++ lg).
      rewrite Htr, <- app_assoc. split; [|split]; reflexivity.
Qed.

Lemma lt_asymmetric a b : PyStr.lt a b = true → PyStr.lt b a = false.
Proof.
  unfold PyStr.lt, String.ltb. rewrite (String.compare_antisym b a).
  by destruct (String.compare a b).
Qed.

(** *** What a sweep does to the records *)

Lemma published_after_unpublish n : published_accessrestrict (set_publish false n) = false.
Proof. unfold published_accessrestrict. simpl. apply andb_false_r. Qed.

Lemma note_step_trans test a b c :
  note_step test a b → note_step test b c → note_step test a c.
Proof.
  intros [->|(-> & Hp & Ht)] Hbc; [exact Hbc|].
  destruct Hbc as [->|(_ & Hp' & _)].
  - right. done.
  - by rewrite published_after_unpublish in Hp'.
Qed.

Lemma Forall2_note_step_trans test l l' :
  Forall2 (note_step test) l l' →
  ∀ l'', Forall2 (note_step test) l' l'' → Forall2 (note_step test) l l''.
Proof.
  induction 1 as [|x y l l' Hxy _ IH]; intros l'' H2; inversion H2; subst;
    constructor; [by eapply note_step_trans | by apply IH].
Qed.

Lemma record_step_trans test a b c :
  record_step test a b → record_step test b c → record_step test a c.
Proof.
  intros [->|(l & l' & Hl & -> & Hll)] Hbc; [exact Hbc|].
  destruct Hbc as [->|(k & k' & Hk & -> & Hkk)].
  - right. eauto.
  - right. exists l, k'. simpl in Hk. injection Hk as <-.
    split; [exact Hl|]. split; [reflexivity|].
    by apply (Forall2_note_step_trans test l l').
Qed.

Lemma records_step_refl test recs : records_step test recs recs.
Proof. intros u. destruct (recs !! u); constructor. by left. Qed.

Lemma records_step_trans test a b c :
  records_step test a b → records_step test b c → records_step test a c.
Proof.
  intros Hab Hbc u. specialize (Hab u). specialize (Hbc u).
  destruct Hab as [x y Hxy|]; inversion Hbc; subst; constructor.
  eauto using record_step_trans.
Qed.

Lemma records_step_insert test recs u j l :
  recs !! u = Some j → notes j = Some l →
  records_step test recs (<[u := set_notes (map (Spec.unpublish_if test) l) j]> recs).
Proof.
  intros Hj Hl u'. destruct (decide (u = u')) as [<-|Hne].
  - rewrite lookup_insert_eq, Hj. constructor. right.
    exists l, (map (Spec.unpublish_if test) l). eauto using map_unpublish_if_step.
  - rewrite lookup_insert_ne by done. apply records_step_refl.
Qed.

(** An archival object at which the sweep raises was fetched, no more. *)
Lemma sweep_archival_object_err test u c e c' :
  sweep_archival_object test u c = (Err e, c') → c' = send (GET u) c.
Proof.
  unfold sweep_archival_object, bind at 1, get_aspace_json.
  destruct (records c !! u) as [j|]; [|by intros [= _ <-]].
  unfold bind at 1, lift at 1, subscript.
  destruct (notes j) as [l|]; [|by intros [= _ <-]].
  unfold bind at 1, lift.
  destruct (unpublish_notes test u (display_string j) l) as [[[l' update] es]|e'];
    [|by intros [= _ <-]].
  destruct update; unfold bind, ret, session_post; discriminate.
Qed.

(** What one archival object of a sweep leaves, raising or not. *)
Lemma sweep_archival_object_run test u c :
  (∃ e, sweep_archival_object test u c = (Err e, send (GET u) c))
  ∨ (∃ j l, records c !! u = Some j ∧ notes j = Some l
       ∧ ∃ entries c', sweep_archival_object test u c = (Ok entries, c')).
Proof.
  destruct (sweep_archival_object test u c) as [[es|e] c'] eqn:E.
  - right. destruct (sweep_archival_object_ok _ _ _ _ _ E) as (j & l & Hj & Hl & _).
    eauto 10.
  - left. apply sweep_archival_object_err in E as ->. eauto.
Qed.

Lemma sweep_archival_object_step test u c :
  records_step test (records c) (records (snd (sweep_archival_object test u c))).
Proof.
  destruct (sweep_archival_object_run test u c)
    as [[e ->]|(j & l & Hj & Hl & es & c' & H)].
  - apply records_step_refl.
  - rewrite H. apply sweep_archival_object_ok in H as (j' & l' & Hj' & Hl' & _ & ->).
    assert (j' = j) as -> by congruence. assert (l' = l) as -> by congruence.
    destruct (List.filter (Spec.unpublishes test) l); simpl.
    + apply records_step_refl.
    + by apply records_step_insert.
Qed.

Lemma sweep_step test uris : ∀ unpublished_log c,
  records_step test (records c) (records (snd (sweep test uris unpublished_log c))).
Proof.
  induction uris as [|u uris IH]; intros acc c; simpl.
  - apply records_step_refl.
  - pose proof (sweep_archival_object_step test u c) as Hu. unfold bind.
    destruct (sweep_archival_object test u c) as [[es|e] c1]; simpl in Hu.
    + eapply records_step_trans; [exact Hu | apply IH].
    + exact Hu.
Qed.

(** A sweep touches neither the trees nor the default list. *)
Lemma sweep_archival_object_frame test u c :
  let c' := snd (sweep_archival_object test u c) in
  trees c' = trees c
  ∧ default_archival_object_uris c' = default_archival_object_uris c.
Proof.
  destruct (sweep_archival_object_run test u c)
    as [[e ->]|(j & l & Hj & Hl & es & c' & H)]; [done|].
  rewrite H. apply sweep_archival_object_ok in H as (j' & l' & _ & _ & _ & ->).
  by destruct (List.filter (Spec.unpublishes test) l').
Qed.

Lemma sweep_frame test uris : ∀ unpublished_log c,
  let c' := snd (sweep test uris unpublished_log c) in
  trees c' = trees c
  ∧ default_archival_object_uris c' = default_archival_object_uris c.
Proof.
  induction uris as [|u uris IH]; intros acc c; simpl; [done|].
  pose proof (sweep_archival_object_frame test u c) as [Ht Hd]. unfold bind.
  destruct (sweep_archival_object test u c) as [[es|e] c1]; simpl in Ht, Hd;
    [|done].
  destruct (IH (acc ++ es) c1) as [Ht' Hd']. simpl in Ht', Hd'.
  split; congruence.
Qed.

(** Fetching the uris of a resource: the tree is read, the default list
    grows by the uris of the tree and is returned. *)
Lemma get_resource_archival_object_uris_run resource_number c :
  match trees c !! resource_number with
  | None =>
      get_resource_archival_object_uris resource_number c
      = (Err (CommunicationError not_found), send (GET_TREE resource_number) c)
  | Some tree =>
      let uris := default_archival_object_uris c
                  ++ extract_archival_object_uris_from_children tree [] in
      get_resource_archival_object_uris resource_number c
      = (Ok uris,
         set_default_archival_object_uris uris (send (GET_TREE resource_number) c))
  end.
Proof.
  unfold get_resource_archival_object_uris, bind, get_resource_tree_children.
  destruct (trees c !! resource_number) as [tree|]; [|reflexivity].
  by rewrite extract_default_run.
Qed.

Lemma record_step_only_unpublished test j j' :
  record_step test j j' → only_unpublished j j'.
Proof.
  intros [->|(l & l' & Hl & -> & Hll)]; [by left|]. right. exists l, l'.
  split; [exact Hl|]. split; [reflexivity|].
  eapply Forall2_impl; [exact Hll|]. intros n n' [->|(-> & Hp & _)]; [by left|].
  right. by apply andb_true_iff in Hp as [_ ->].
Qed.

Lemma records_step_lookup test recs recs' u j :
  records_step test recs recs' → recs !! u = Some j →
  ∃ j', recs' !! u = Some j' ∧ record_step test j j'.
Proof.
  intros H Hj. specialize (H u). rewrite Hj in H. inversion H; subst. eauto.
Qed.

(** *** Records a sweep passes over *)

Lemma unpublish_notes_calm test u d l :
  Forall (calm test) l → unpublish_notes test u d l = Ok (l, false, []).
Proof.
  induction 1 as [|n l Hn _ IH]; simpl; [done|]. rewrite IH.
  destruct Hn as [->|(text & -> & ->)]; [done|].
  by destruct (published_accessrestrict n).
Qed.

Lemma sweep_archival_object_quiet test u c j :
  records c !! u = Some j → quiet test j →
  sweep_archival_object test u c = (Ok [], send (GET u) c).
Proof.
  intros Hj (l & Hl & Hcalm).
  unfold sweep_archival_object, bind, get_aspace_json, lift, subscript.
  by rewrite Hj, Hl, (unpublish_notes_calm test u _ l Hcalm).
Qed.

Lemma sweep_quiet test uris : ∀ unpublished_log c,
  (∀ u, u ∈ uris → ∃ j, records c !! u = Some j ∧ quiet test j) →
  ∃ c', sweep test uris unpublished_log c = (Ok unpublished_log, c')
        ∧ records c' = records c.
Proof.
  induction uris as [|u uris IH]; intros acc c H; simpl.
  - by eexists.
  - destruct (H u) as (j & Hj & Hq); [by left|]. unfold bind.
    rewrite (sweep_archival_object_quiet test u c j Hj Hq), app_nil_r.
    apply (IH acc (send (GET u) c)). intros u' Hu'. apply H. by right.
Qed.

(** Every note of a loop that did not raise could be formatted and
    tested where it had to be. *)
Lemma unpublish_notes_tested test u d l : ∀ r,
  unpublish_notes test u d l = Ok r →
  Forall (λ n, published_accessrestrict n = false
               ∨ ∃ text b, format_note n = Ok text ∧ test text = Ok b) l.
Proof.
  induction l as [|n l IH]; intros r; simpl; [by constructor|].
  destruct (published_accessrestrict n) eqn:Ep.
  - destruct (format_note n) as [text|e] eqn:Ef; [|discriminate].
    destruct (test text) as [b|e] eqn:Et; [|discriminate].
    intros H.
    assert (∃ r', unpublish_notes test u d l = Ok r') as [r' Hr'].
    { destruct (unpublish_notes test u d l) as [r'|e']; [eauto|].
      destruct b; [destruct d|]; simpl in H; discriminate. }
    constructor; [right; eauto | by eapply IH].
  - destruct (unpublish_notes test u d l) as [r'|]; [|discriminate].
    intros _. constructor; [by left | by eapply IH].
Qed.

Lemma unpublish_if_calm test n :
  published_accessrestrict n = false
  ∨ (∃ text b, format_note n = Ok text ∧ test text = Ok b) →
  calm test (Spec.unpublish_if test n).
Proof.
  unfold Spec.unpublish_if, Spec.unpublishes.
  intros [Hp|(text & b & Hf & Ht)].
  - rewrite Hp. by left.
  - rewrite Hf, Ht. destruct (published_accessrestrict n) eqn:Ep; simpl.
    + destruct b; [left; apply published_after_unpublish | right; eauto].
    + by left.
Qed.

Lemma unpublish_if_none test l :
  List.filter (Spec.unpublishes test) l = [] → map (Spec.unpublish_if test) l = l.
Proof.
  induction l as [|n l IH]; simpl; [done|]. unfold Spec.unpublish_if at 1.
  destruct (Spec.unpublishes test n); [discriminate|]. intros H. by rewrite IH.
Qed.

Lemma sweep_archival_object_tested test u c entries c' :
  sweep_archival_object test u c = (Ok entries, c') →
  ∃ j l, records c !! u = Some j ∧ notes j = Some l
         ∧ Forall (calm test) (map (Spec.unpublish_if test) l).
Proof.
  unfold sweep_archival_object, bind at 1, get_aspace_json.
  destruct (records c !! u) as [j|] eqn:Ej; [|discriminate].
  unfold bind at 1, lift at 1, subscript.
  destruct (notes j) as [l|] eqn:El; [|discriminate].
  unfold bind at 1, lift.
  destruct (unpublish_notes test u (display_string j) l) as [r|e] eqn:E;
    [|discriminate].
  intros _. exists j, l. split; [done|]. split; [done|].
  apply Forall_fmap. eapply Forall_impl; [by eapply unpublish_notes_tested|].
  intros n Hn. by apply unpublish_if_calm.
Qed.

Lemma sweep_archival_object_leaves_quiet test u c entries c' :
  sweep_archival_object test u c = (Ok entries, c') →
  ∃ j', records c' !! u = Some j' ∧ quiet test j'.
Proof.
  intros H.
  destruct (sweep_archival_object_tested _ _ _ _ _ H) as (j & l & Hj & Hl & Hcalm).
  apply sweep_archival_object_ok in H as (j' & l' & Hj' & Hl' & _ & ->).
  assert (j' = j) as -> by congruence. assert (l' = l) as -> by congruence.
  destruct (List.filter (Spec.unpublishes test) l) eqn:E; simpl.
  - exists j. split; [done|]. exists l. split; [done|].
    by rewrite <- (unpublish_if_none test l E).
  - rewrite lookup_insert_eq. eexists. split; [done|].
    exists (map (Spec.unpublish_if test) l). done.
Qed.

Lemma sweep_archival_object_keeps_quiet test u' c entries c' u j :
  sweep_archival_object test u' c = (Ok entries, c') →
  records c !! u = Some j → quiet test j →
  ∃ j', records c' !! u = Some j' ∧ quiet test j'.
Proof.
  intros H Hj Hq. destruct (decide (u' = u)) as [->|Hne].
  - by eapply sweep_archival_object_leaves_quiet.
  - apply sweep_archival_object_ok in H as (j' & l' & _ & _ & _ & ->).
    exists j. split; [|done].
    destruct (List.filter (Spec.unpublishes test) l'); simpl; [done|].
    by rewrite lookup_insert_ne.
Qed.

Lemma sweep_leaves_quiet test uris : ∀ unpublished_log c log c',
  sweep test uris unpublished_log c = (Ok log, c') →
  ∀ u, u ∈ uris ∨ (∃ j, records c !! u = Some j ∧ quiet test j) →
       ∃ j', records c' !! u = Some j' ∧ quiet test j'.
Proof.
  induction uris as [|u0 uris IH]; intros acc c log c'; simpl.
  - intros [= _ <-] u [Hu|Hq]; [by apply elem_of_nil in Hu | done].
  - intros H u Hu. apply bind_inv_ok in H as (es & c1 & H1 & H2).
    apply (IH _ _ _ _ H2).
    destruct Hu as [[->|Hu]%elem_of_cons|(j & Hj & Hq)].
    + right. by eapply sweep_archival_object_leaves_quiet.
    + by left.
    + right. by eapply sweep_archival_object_keeps_quiet.
Qed.

(** *** The text sweep run twice *)

Lemma text_sweep_twice resource_number text c log c1 :
  unpublish_restrictions_by_text resource_number (Some text) c
  = (Ok (UnpublishedLog log), c1) →
  ∃ c2, unpublish_restrictions_by_text resource_number (Some text) c1
        = (Ok (UnpublishedLog []), c2)
        ∧ records c2 = records c1.
Proof.
  unfold unpublish_restrictions_by_text.
  destruct (PyStr.get_truthy (Some text)) as [t|]; [|discriminate].
  intros H. apply bind_inv_ok in H as (uris & c0 & Huris & H).
  apply bind_inv_ok in H as (l & c1' & Hsweep & H). injection H as <- <-.
  pose proof (get_resource_archival_object_uris_run resource_number c) as Hrun.
  destruct (trees c !! resource_number) as [tree|] eqn:Etree; [|congruence].
  simpl in Hrun. rewrite Hrun in Huris. injection Huris as <- <-.
  match type of Hsweep with
  | sweep ?test ?us ?acc ?c0 = _ =>
      destruct (sweep_frame test us acc c0) as [Htrees Hdefault]
  end.
  rewrite Hsweep in Htrees, Hdefault. simpl in Htrees, Hdefault.
  pose proof (get_resource_archival_object_uris_run resource_number c1') as Hrun'.
  rewrite Htrees, Etree, Hdefault in Hrun'. simpl in Hrun'.
  unfold bind at 1. rewrite Hrun'.
  edestruct (sweep_quiet (text_matches t)) as (c2 & Hc2 & Hrecs);
    [|unfold bind; rewrite Hc2; by eexists].
  intros u Hu. simpl.
  apply (sweep_leaves_quiet _ _ _ _ _ _ Hsweep). left.
  apply elem_of_app in Hu as [Hu|Hu]; [done|].
  apply elem_of_app. by right.
Qed.

Lemma text_sweep_records resource_number restriction_text c :
  records_step
    (text_matches (match restriction_text with Some t => t | None => "" end))
    (records c)
    (records (snd (unpublish_restrictions_by_text resource_number restriction_text c))).
Proof.
  unfold unpublish_restrictions_by_text.
  destruct restriction_text as [t|]; simpl; [|apply records_step_refl].
  destruct (PyStr.truthy t); [|apply records_step_refl].
  pose proof (get_resource_archival_object_uris_run resource_number c) as Hrun.
  unfold bind at 1.
  destruct (trees c !! resource_number) as [tree|]; rewrite Hrun;
    [|apply records_step_refl].
  pose proof (sweep_step (text_matches t)
                (default_archival_object_uris c
                 ++ extract_archival_object_uris_from_children tree []) []
                (set_default_archival_object_uris
                   (default_archival_object_uris c
                    ++ extract_archival_object_uris_from_children tree [])
                   (send (GET_TREE resource_number) c))) as Hstep.
  unfold bind.
  by destruct (sweep _ _ _ _) as [[l|e] c'].
Qed.

Lemma expiry_sweep_records xpath_date_normals today resource_number c :
  records_step (expired xpath_date_normals today) (records c)
    (records (snd (unpublish_expired_restrictions_for_resource
                     xpath_date_normals today resource_number c))).
Proof.
  unfold unpublish_expired_restrictions_for_resource.
  pose proof (get_resource_archival_object_uris_run resource_number c) as Hrun.
  unfold bind.
  destruct (trees c !! resource_number) as [tree|]; rewrite Hrun;
    [|apply records_step_refl].
  match goal with
  | |- context [sweep ?test ?us ?acc ?c0] => exact (sweep_step test us acc c0)
  end.
Qed.

(** C8: without a restriction text (none, or an empty one) the sweep
    returns its message and the client is as before: no request was sent,
    no record changed.  With a text, every record is still there after
    the sweep, however it ends, and a note of it changed only by being
    unpublished, and only if it was a published access-restriction note
    whose formatted text is the text given. *)
Theorem C8_text_sweep_without_text_does_nothing
  (resource_number : string) (c : client) :
  unpublish_restrictions_by_text resource_number None c
  = (Ok (Message "No restriction text provided"), c)
  ∧ unpublish_restrictions_by_text resource_number (Some "") c
    = (Ok (Message "No restriction text provided"), c)
  ∧ ∀ text u j, PyStr.truthy text = true → records c !! u = Some j →
      ∃ j', records (snd (unpublish_restrictions_by_text resource_number
                            (Some text) c)) !! u = Some j'
            ∧ (j' = j
               ∨ ∃ l l', notes j = Some l ∧ j' = set_notes l' j
                   ∧ Forall2 (λ n n', n' = n
                                      ∨ (n' = set_publish false n
                                         ∧ note_type n = "accessrestrict"
                                         ∧ publish n = true
                                         ∧ format_note n = Ok text)) l l').
Proof.
  split; [reflexivity|]. split; [reflexivity|].
  intros text u j _ Hj.
  destruct (records_step_lookup _ _ _ u j
              (text_sweep_records resource_number (Some text) c) Hj)
    as (j' & Hj' & Hstep).
  exists j'. split; [exact Hj'|].
  destruct Hstep as [->|(l & l' & Hl & -> & Hll)]; [by left|]. right.
  exists l, l'. split; [exact Hl|]. split; [reflexivity|].
  eapply Forall2_impl; [exact Hll|].
  intros n n' [->|(-> & Hp & t & Hf & Ht)]; [by left|]. right.
  apply andb_true_iff in Hp as [Hty Hp]. apply String.eqb_eq in Hty.
  injection Ht as Ht. apply String.eqb_eq in Ht as ->. done.
Qed.

Lemma C8_text_sweep_without_text_does_nothing_witness :
  PyStr.truthy Sample.until_2020 = true
  ∧ records Sample.restricted_backend !! Sample.ao "11"
    = Some (Sample.restricted "11"
              [Sample.restriction true Sample.until_2020; Sample.scope_note;
               Sample.restriction true Sample.until_2030;
               Sample.restriction true Sample.until_2020])
  ∧ records (snd (unpublish_restrictions_by_text "5" (Some Sample.until_2020)
                    Sample.restricted_backend)) !! Sample.ao "11"
    = Some (Sample.restricted "11"
              [Sample.restriction false Sample.until_2020; Sample.scope_note;
               Sample.restriction true Sample.until_2030;
               Sample.restriction false Sample.until_2020])
  ∧ ∃ j', records (snd (unpublish_restrictions_by_text "5" (Some Sample.until_2020)
                          Sample.restricted_backend)) !! Sample.ao "11" = Some j'
          ∧ (j' = Sample.restricted "11"
                    [Sample.restriction true Sample.until_2020; Sample.scope_note;
                     Sample.restriction true Sample.until_2030;
                     Sample.restriction true Sample.until_2020]
             ∨ ∃ l l',
                 notes (Sample.restricted "11"
                          [Sample.restriction true Sample.until_2020;
                           Sample.scope_note;
                           Sample.restriction true Sample.until_2030;
                           Sample.restriction true Sample.until_2020]) = Some l
                 ∧ j' = set_notes l'
                          (Sample.restricted "11"
                             [Sample.restriction true Sample.until_2020;
                              Sample.scope_note;
                              Sample.restriction true Sample.until_2030;
                              Sample.restriction true Sample.until_2020])
                 ∧ Forall2 (λ n n', n' = n
                                    ∨ (n' = set_publish false n
                                       ∧ note_type n = "accessrestrict"
                                       ∧ publish n = true
                                       ∧ format_note n = Ok Sample.until_2020))
                           l l').
Proof.
  split; [reflexivity|]. split; [reflexivity|]. split; [reflexivity|].
  exact (proj2 (proj2 (C8_text_sweep_without_text_does_nothing
                         "5" Sample.restricted_backend))
           Sample.until_2020 (Sample.ao "11") _ eq_refl eq_refl).
Defined.

(** *** Notes that cannot be formatted *)

Lemma unpublish_notes_first_stuck test u d pre n post e :
  Forall (λ m, published_accessrestrict m = false) pre →
  published_accessrestrict n = true → format_note n = Err e →
  unpublish_notes test u d (pre ++ n :: post) = Err e.
Proof.
  intros Hpre Hp Hf. induction Hpre as [|m pre Hm _ IH]; simpl.
  - by rewrite Hp, Hf.
  - by rewrite Hm, IH.
Qed.

Lemma unpublish_notes_stuck test u d l n e :
  n ∈ l → published_accessrestrict n = true → format_note n = Err e →
  ∃ e', unpublish_notes test u d l = Err e'.
Proof.
  intros Hin Hp Hf. induction l as [|m l IH]; [by apply elem_of_nil in Hin|].
  apply elem_of_cons in Hin as [<-|Hin]; simpl.
  - rewrite Hp, Hf. eauto.
  - destruct (IH Hin) as [e' ->].
    destruct (published_accessrestrict m); [|eauto].
    destruct (format_note m) as [text|]; [|eauto].
    destruct (test text) as [[]|]; [|eauto..].
    destruct (subscript _ d); eauto.
Qed.

Lemma sweep_archival_object_stuck test u c j :
  records c !! u = Some j → stuck j →
  ∃ e, sweep_archival_object test u c = (Err e, send (GET u) c).
Proof.
  intros Hj (l & n & e & Hl & Hin & Hp & Hf).
  unfold sweep_archival_object, bind, get_aspace_json, lift, subscript.
  rewrite Hj, Hl.
  destruct (unpublish_notes_stuck test u (display_string j) l n e Hin Hp Hf)
    as [e' ->].
  eauto.
Qed.

Lemma record_step_stuck test j j' : record_step test j j' → stuck j → stuck j'.
Proof.
  intros [->|(l & l' & Hl & -> & Hll)] Hstuck; [exact Hstuck|].
  destruct Hstuck as (l0 & n & e & Hl0 & Hin & Hp & Hf).
  assert (l0 = l) as -> by congruence.
  apply list_elem_of_lookup in Hin as [i Hi].
  destruct (Forall2_lookup_l _ _ _ _ _ Hll Hi) as (n' & Hi' & Hstep).
  assert (n' = n) as ->.
  { destruct Hstep as [->|(_ & _ & t & Ht & _)]; [done | congruence]. }
  exists l', n, e. split; [done|]. split; [|done].
  apply list_elem_of_lookup. eauto.
Qed.

(** A sweep that reaches a record with such a note raises; the record is
    as it was when the sweep reaches it, so the sweep raises there or
    before. *)
Lemma sweep_stuck test uris : ∀ unpublished_log c u j,
  u ∈ uris → records c !! u = Some j → stuck j →
  ∃ e c', sweep test uris unpublished_log c = (Err e, c').
Proof.
  induction uris as [|u0 uris IH]; intros acc c u j Hin Hj Hstuck;
    [by apply elem_of_nil in Hin|].
  simpl. unfold bind.
  destruct (sweep_archival_object test u0 c) as [[es|e] c1] eqn:E; [|eauto].
  destruct (decide (u0 = u)) as [->|Hne].
  - destruct (sweep_archival_object_stuck test u c j Hj Hstuck) as [e He].
    congruence.
  - apply elem_of_cons in Hin as [->|Hin]; [done|].
    pose proof (sweep_archival_object_step test u0 c) as Hstep.
    rewrite E in Hstep. simpl in Hstep.
    destruct (records_step_lookup _ _ _ u j Hstep Hj) as (j' & Hj' & Hjj').
    eapply IH; [exact Hin | exact Hj' | by eapply record_step_stuck].
Qed.

(** C10: [format_note] returns the first content of a single-part note
    and the content of the first subnote of any other note, and raises an
    [IndexError] when that list is empty; it returns a value only when
    the list it reads is non-empty.  The loop over the notes of either
    sweep raises that [IndexError] at the first published
    access-restriction note when it is such a note, and a sweep over uris
    one of whose records has such a note does not return a log. *)
Theorem C10_format_note_raises_on_empty_content :
  (∀ n, jsonmodel_type n = "note_singlepart" →
     (∀ text rest, content n = Some (text :: rest) → format_note n = Ok text)
     ∧ (content n = Some [] → format_note n = Err IndexError))
  ∧ (∀ n, jsonmodel_type n ≠ "note_singlepart" →
       (∀ s rest, subnotes n = Some (s :: rest) →
          format_note n = subscript "content" (subnote_content s))
       ∧ (subnotes n = Some [] → format_note n = Err IndexError))
  ∧ (∀ n text, format_note n = Ok text →
       (∃ rest, content n = Some (text :: rest))
       ∨ (∃ s rest, subnotes n = Some (s :: rest) ∧ subnote_content s = Some text))
  ∧ (∀ test u d pre n post,
       Forall (λ m, published_accessrestrict m = false) pre →
       published_accessrestrict n = true → format_note n = Err IndexError →
       unpublish_notes test u d (pre ++ n :: post) = Err IndexError)
  ∧ (∀ xpath_date_normals today resource_number c tree u j l n,
       trees c !! resource_number = Some tree →
       u ∈ default_archival_object_uris c
           ++ extract_archival_object_uris_from_children tree [] →
       records c !! u = Some j → notes j = Some l → n ∈ l →
       published_accessrestrict n = true → format_note n = Err IndexError →
       ∃ e, fst (unpublish_expired_restrictions_for_resource xpath_date_normals
                   today resource_number c) = Err e)
  ∧ (∀ text resource_number c tree u j l n,
       PyStr.truthy text = true →
       trees c !! resource_number = Some tree →
       u ∈ default_archival_object_uris c
           ++ extract_archival_object_uris_from_children tree [] →
       records c !! u = Some j → notes j = Some l → n ∈ l →
       published_accessrestrict n = true → format_note n = Err IndexError →
       ∃ e, fst (unpublish_restrictions_by_text resource_number (Some text) c)
            = Err e).
Proof.
  split; [|split; [|split; [|split; [|split]]]].
  - intros n Hty. unfold format_note. rewrite Hty. simpl.
    split; [intros text rest ->|intros ->]; reflexivity.
  - intros n Hty. unfold format_note.
    apply String.eqb_neq in Hty. rewrite Hty.
    split; [intros s rest ->|intros ->]; reflexivity.
  - intros n text. unfold format_note, subscript.
    destruct (String.eqb (jsonmodel_type n) "note_singlepart").
    + destruct (content n) as [[|t rest]|]; try discriminate.
      intros [= ->]. left. eauto.
    + destruct (subnotes n) as [[|s rest]|]; try discriminate.
      destruct (subnote_content s) as [t|] eqn:Es; [|discriminate].
      intros [= ->]. right. eauto.
  - intros test u d pre n post. apply unpublish_notes_first_stuck.
  - intros xp today rn c tree u j l n Htree Hin Hj Hl Hn Hp Hf.
    unfold unpublish_expired_restrictions_for_resource.
    pose proof (get_resource_archival_object_uris_run rn c) as Hrun.
    rewrite Htree in Hrun. unfold bind. rewrite Hrun.
    edestruct (sweep_stuck (expired xp today)) as (e & c' & ->);
      [exact Hin | exact Hj | by exists l, n, IndexError | eauto].
  - intros text rn c tree u j l n Htext Htree Hin Hj Hl Hn Hp Hf.
    unfold unpublish_restrictions_by_text, PyStr.get_truthy. rewrite Htext.
    pose proof (get_resource_archival_object_uris_run rn c) as Hrun.
    rewrite Htree in Hrun. unfold bind at 1. rewrite Hrun. unfold bind.
    edestruct (sweep_stuck (text_matches text)) as (e & c' & ->);
      [exact Hin | exact Hj | by exists l, n, IndexError | eauto].
Qed.

Lemma C10_format_note_raises_on_empty_content_witness :
  format_note Sample.empty_restriction = Err IndexError
  ∧ fst (unpublish_expired_restrictions_for_resource Sample.xpath_date_normals
           Sample.today "5" Sample.broken_backend) = Err IndexError
  ∧ fst (unpublish_restrictions_by_text "5" (Some Sample.until_2020)
           Sample.broken_backend) = Err IndexError
  ∧ (∃ e, fst (unpublish_expired_restrictions_for_resource
                 Sample.xpath_date_normals Sample.today "5" Sample.broken_backend)
          = Err e)
  ∧ (∃ e, fst (unpublish_restrictions_by_text "5" (Some Sample.until_2020)
                 Sample.broken_backend) = Err e).
Proof.
  split; [|split; [reflexivity|split; [reflexivity|split]]].
  - refine (proj2 (proj1 (proj2 C10_format_note_raises_on_empty_content)
                     Sample.empty_restriction _) eq_refl).
    discriminate.
  - refine (proj1 (proj2 (proj2 (proj2 (proj2
              C10_format_note_raises_on_empty_content))))
              Sample.xpath_date_normals Sample.today "5" Sample.broken_backend
              [Sample.series] (Sample.ao "11") _ _ Sample.empty_restriction
              eq_refl _ eq_refl eq_refl _ eq_refl eq_refl).
    + apply list_elem_of_In. vm_compute. tauto.
    + apply list_elem_of_In. vm_compute. tauto.
  - refine (proj2 (proj2 (proj2 (proj2 (proj2
              C10_format_note_raises_on_empty_content))))
              Sample.until_2020 "5" Sample.broken_backend
              [Sample.series] (Sample.ao "11") _ _ Sample.empty_restriction
              eq_refl eq_refl _ eq_refl eq_refl _ eq_refl eq_refl).
    + apply list_elem_of_In. vm_compute. tauto.
    + apply list_elem_of_In. vm_compute. tauto.
Defined.

(** ** Orphan association cleanup *)

Lemma only_deleted_refl recs : only_deleted recs recs.
Proof. intros u. by left. Qed.

Lemma only_deleted_trans a b c :
  only_deleted a b → only_deleted b c → only_deleted a c.
Proof.
  intros Hab Hbc u. destruct (Hbc u) as [->|(Hc & j & Hj & Hs)]; [apply Hab|].
  destruct (Hab u) as [Hb|(Hb & _)]; [|congruence].
  right. split; [exact Hc|]. exists j. by rewrite <- Hb.
Qed.

Lemma deleted_uris_app a b : deleted_uris (a ++ b) = deleted_uris a ++ deleted_uris b.
Proof. unfold deleted_uris. apply flat_map_app. Qed.

(** One referenced object: it is fetched at most once and either left as
    it is or deleted, and then it was a sole owner. *)
Lemma delete_single_resource_instances_run u c :
  let c' := snd (delete_single_resource_instances u c) in
  (records c' = records c
   ∧ ∃ tr, trace c' = trace c ++ tr ∧ deleted_uris tr = [])
  ∨ (∃ j, records c !! u = Some j ∧ sole_owner u j
          ∧ records c' = delete u (records c)
          ∧ trace c' = trace c ++ [GET u; DELETE u]).
Proof.
  unfold delete_single_resource_instances, sole_owner.
  destruct (PyStr.contains "digital_objects" u) eqn:Edo;
    [|destruct (PyStr.contains "top_containers" u) eqn:Etc].
  - unfold bind, get_aspace_json, lift, subscript.
    destruct (records c !! u) as [j|] eqn:Ej; [|left; split; [done|by exists [GET u]]].
    destruct (linked_instances j) as [l|] eqn:El;
      [|left; split; [done|by exists [GET u]]].
    destruct (length l =? 1) eqn:Elen; [|left; split; [done|by exists [GET u]]].
    right. exists j. unfold delete_aspace_object. simpl. rewrite Ej. simpl.
    apply Nat.eqb_eq in Elen. split; [done|]. split; [left; eauto|].
    split; [done|]. by rewrite <- app_assoc.
  - unfold bind, get_aspace_json, lift, subscript.
    destruct (records c !! u) as [j|] eqn:Ej; [|left; split; [done|by exists [GET u]]].
    destruct (collection j) as [l|] eqn:El;
      [|left; split; [done|by exists [GET u]]].
    destruct (length l =? 1) eqn:Elen; [|left; split; [done|by exists [GET u]]].
    right. exists j. unfold delete_aspace_object. simpl. rewrite Ej. simpl.
    apply Nat.eqb_eq in Elen. split; [done|]. split; [right; eauto|].
    split; [done|]. by rewrite <- app_assoc.
  - left. split; [done|]. exists []. by rewrite app_nil_r.
Qed.

Lemma only_deleted_delete recs u j :
  recs !! u = Some j → sole_owner u j → only_deleted recs (delete u recs).
Proof.
  intros Hj Hs v. destruct (decide (u = v)) as [<-|Hne].
  - right. rewrite lookup_delete_eq. eauto.
  - left. by rewrite lookup_delete_ne.
Qed.

Lemma for_each_only_deleted l : ∀ c,
  only_deleted (records c)
    (records (snd (for_each l delete_single_resource_instances c))).
Proof.
  induction l as [|u l IH]; intros c; simpl; [apply only_deleted_refl|].
  unfold bind.
  pose proof (delete_single_resource_instances_run u c) as Hrun.
  assert (only_deleted (records c)
            (records (snd (delete_single_resource_instances u c)))) as Hstep.
  { destruct Hrun as [(-> & _)|(j & Hj & Hs & -> & _)];
      [apply only_deleted_refl | by apply (only_deleted_delete _ u j)]. }
  destruct (delete_single_resource_instances u c) as [[[]|e] c1]; simpl in Hstep;
    [|exact Hstep].
  eapply only_deleted_trans; [exact Hstep | apply IH].
Qed.

(** Over a list without duplicates no uri is deleted twice. *)
Lemma for_each_delete_once l : ∀ c,
  NoDup l →
  ∃ tr, trace (snd (for_each l delete_single_resource_instances c)) = trace c ++ tr
        ∧ NoDup (deleted_uris tr) ∧ ∀ v, v ∈ deleted_uris tr → v ∈ l.
Proof.
  induction l as [|u l IH]; intros c Hnd; simpl.
  - exists []. rewrite app_nil_r.
    split; [done|]. split; [constructor | by intros v Hv].
  - apply NoDup_cons in Hnd as [Hu Hnd]. unfold bind.
    pose proof (delete_single_resource_instances_run u c) as Hrun.
    destruct (delete_single_resource_instances u c) as [[[]|e] c1];
      simpl in Hrun.
    + destruct (IH c1 Hnd) as (tr2 & Htr2 & Hnd2 & Hin2).
      destruct Hrun as [(_ & tr1 & Htr1 & Hd1)|(j & _ & _ & _ & Htr1)].
      * exists (tr1 ++ tr2).
        rewrite Htr2, Htr1, <- app_assoc, deleted_uris_app, Hd1. simpl.
        split; [done|]. split; [done|]. intros v Hv. right. by apply Hin2.
      * exists ([GET u; DELETE u] ++ tr2).
        rewrite Htr2, Htr1, <- app_assoc. split; [done|]. simpl.
        split; [apply NoDup_cons; split; [|done]; intros Hv; by apply Hu, Hin2|].
        intros v [->|Hv]%elem_of_cons; [by left | right; by apply Hin2].
    + simpl.
      destruct Hrun as [(_ & tr1 & Htr1 & Hd1)|(j & _ & _ & _ & Htr1)].
      * exists tr1. rewrite Hd1.
        split; [done|]. split; [constructor | by intros v Hv%elem_of_nil].
      * exists [GET u; DELETE u]. split; [done|]. simpl.
        split; [apply NoDup_singleton|]. intros v ->%list_elem_of_singleton. by left.
Qed.

Lemma find_instance_uris_state u filter c :
  snd (find_instance_uris u filter c) = send (GET u) c.
Proof.
  unfold find_instance_uris, bind, get_aspace_json, lift, subscript.
  destruct (records c !! u) as [j|]; [|done].
  by destruct (instances j).
Qed.

Lemma collect_instance_uris_state l : ∀ acc c,
  let c' := snd (collect_instance_uris l acc c) in
  records c' = records c
  ∧ ∃ tr, trace c' = trace c ++ tr ∧ deleted_uris tr = [].
Proof.
  induction l as [|u l IH]; intros acc c; simpl.
  - split; [done|]. exists []. by rewrite app_nil_r.
  - unfold bind. pose proof (find_instance_uris_state u None c) as Hs.
    destruct (find_instance_uris u None c) as [[us|e] c1]; simpl in Hs; subst c1.
    + destruct (IH (acc ++ us) (send (GET u) c)) as (Hr & tr & Htr & Hd).
      split; [done|]. exists (GET u :: tr).
      simpl in Htr. by rewrite Htr, <- app_assoc.
    + split; [done|]. by exists [GET u].
Qed.

(** The cleanup changes no record: it leaves it or deletes it. *)
Lemma cleanup_only_deleted set_order resource_number c :
  only_deleted (records c)
    (records (snd (remove_resource_associations set_order resource_number c))).
Proof.
  unfold remove_resource_associations, bind at 1, get_resource_tree_children.
  destruct (trees c !! resource_number) as [tree|]; [|apply only_deleted_refl].
  unfold bind at 1, find_children_with_instances_default. unfold bind.
  match goal with
  | |- context [collect_instance_uris ?l ?acc ?c0] =>
      destruct (collect_instance_uris_state l acc c0) as (Hr & _);
      destruct (collect_instance_uris l acc c0) as [[us|e] c1]
  end; simpl in Hr; [|simpl; rewrite Hr; apply only_deleted_refl].
  pose proof (for_each_only_deleted (set_order us) c1) as Hdel.
  by rewrite Hr in Hdel.
Qed.

Lemma NoDup_filter_list {A} (f : A → bool) (l : list A) :
  NoDup l → NoDup (List.filter f l).
Proof.
  induction 1 as [|x l Hx _ IH]; simpl; [constructor|].
  destruct (f x); [|done]. constructor; [|done].
  rewrite list_elem_of_In, List.filter_In, <- list_elem_of_In. tauto.
Qed.

Lemma fetched_uris_app a b : fetched_uris (a ++ b) = fetched_uris a ++ fetched_uris b.
Proof. unfold fetched_uris. apply flat_map_app. Qed.

(** One referenced object that can be counted: the call returns, having
    fetched the object when it looks at it, and deletes it exactly when it
    is a sole owner. *)
Lemma delete_single_resource_instances_countable u c :
  countable (records c) u →
  ∃ c', delete_single_resource_instances u c = (Ok tt, c')
    ∧ ((records c' = records c
        ∧ (∀ j, records c !! u = Some j → ¬ sole_owner u j)
        ∧ trace c' = trace c ++ (if referenced_object u then [GET u] else []))
       ∨ (∃ j, records c !! u = Some j ∧ sole_owner u j
               ∧ referenced_object u = true
               ∧ records c' = delete u (records c)
               ∧ trace c' = trace c ++ [GET u; DELETE u])).
Proof.
  intros [Hdo Htc]. unfold delete_single_resource_instances, referenced_object,
    sole_owner.
  destruct (PyStr.contains "digital_objects" u) eqn:Edo;
    [|destruct (PyStr.contains "top_containers" u) eqn:Etc].
  - destruct (Hdo eq_refl) as (j & l & Hj & Hl).
    unfold bind, get_aspace_json, lift, subscript. rewrite Hj, Hl.
    destruct (length l =? 1) eqn:Elen.
    + unfold delete_aspace_object. simpl. rewrite Hj. eexists. split; [done|].
      right. exists j. apply Nat.eqb_eq in Elen.
      split; [done|]. split; [left; eauto|]. split; [done|]. split; [done|].
      simpl. by rewrite <- app_assoc.
    + eexists. split; [done|]. left. split; [done|]. split; [|done].
      apply Nat.eqb_neq in Elen.
      intros j' [= <-] [(_ & l' & Hl' & Hlen)|(? & _)]; congruence.
  - destruct (Htc eq_refl eq_refl) as (j & l & Hj & Hl).
    unfold bind, get_aspace_json, lift, subscript. rewrite Hj, Hl.
    destruct (length l =? 1) eqn:Elen.
    + unfold delete_aspace_object. simpl. rewrite Hj. eexists. split; [done|].
      right. exists j. apply Nat.eqb_eq in Elen.
      split; [done|]. split; [right; eauto|]. split; [done|]. split; [done|].
      simpl. by rewrite <- app_assoc.
    + eexists. split; [done|]. left. split; [done|]. split; [|done].
      apply Nat.eqb_neq in Elen.
      intros j' [= <-] [(? & _)|(_ & _ & l' & Hl' & Hlen)]; congruence.
  - eexists. split; [done|]. left. split; [done|].
    split; [|by rewrite app_nil_r].
    intros j' _ [(? & _)|(_ & ? & _)]; congruence.
Qed.

Lemma countable_delete recs u v :
  u ≠ v → countable recs v → countable (delete u recs) v.
Proof.
  intros Hne [Hdo Htc]. split; intros; rewrite lookup_delete_ne by done; auto.
Qed.

(** Over a list that names each object once and only objects that can be
    counted, the loop returns: it fetches every object it looks at once,
    in order, and deletes exactly the sole owners on the list. *)
Lemma for_each_delete_all l : ∀ c,
  NoDup l → (∀ u, u ∈ l → countable (records c) u) →
  ∃ c' tr,
    for_each l delete_single_resource_instances c = (Ok tt, c')
    ∧ trace c' = trace c ++ tr
    ∧ fetched_uris tr = List.filter referenced_object l
    ∧ NoDup (deleted_uris tr)
    ∧ (∀ u, u ∈ deleted_uris tr
            ↔ u ∈ l ∧ ∃ j, records c !! u = Some j ∧ sole_owner u j)
    ∧ (∀ u, u ∉ l → records c' !! u = records c !! u)
    ∧ (∀ u j, u ∈ l → records c !! u = Some j →
              (sole_owner u j → records c' !! u = None)
              ∧ (¬ sole_owner u j → records c' !! u = Some j)).
Proof.
  induction l as [|u l IH]; intros c Hnd Hall.
  - exists c, []. simpl. rewrite app_nil_r. split; [done|]. split; [done|].
    split; [done|]. split; [constructor|].
    split; [|split; [done|by intros u j Hu%elem_of_nil]].
    intros u. split; [by intros H%elem_of_nil | by intros [H%elem_of_nil _]].
  - apply NoDup_cons in Hnd as [Hu Hnd].
    destruct (delete_single_resource_instances_countable u c) as (c1 & H1 & Hstep);
      [apply Hall; by left|].
    assert (∀ v, v ≠ u → records c1 !! v = records c !! v) as Hother.
    { intros v Hv. destruct Hstep as [(-> & _)|(j & _ & _ & _ & -> & _)]; [done|].
      by rewrite lookup_delete_ne. }
    assert (∀ v, v ∈ l → v ≠ u) as Hl by (intros v Hv ->; done).
    destruct (IH c1 Hnd) as (c' & tr2 & H2 & Htr2 & Hf2 & Hnd2 & Hd2 & Hout2 & Hin2).
    { intros v Hv. destruct (Hall v) as [Hdo Htc]; [by right|].
      split; intros; rewrite (Hother v (Hl v Hv)); auto. }
    simpl for_each. unfold bind. rewrite H1.
    destruct Hstep as [(Hrecs & Hnot & Htr1)|(j & Hj & Hsole & Href & Hrecs & Htr1)].
    + exists c', ((if referenced_object u then [GET u] else []) ++ tr2).
      split; [exact H2|]. split; [by rewrite Htr2, Htr1, <- app_assoc|].
      assert (deleted_uris (if referenced_object u then [GET u] else []) = [])
        as Hd1 by (by destruct (referenced_object u)).
      split; [|split; [|split; [|split]]].
      * rewrite fetched_uris_app, Hf2. simpl. by destruct (referenced_object u).
      * by rewrite deleted_uris_app, Hd1.
      * intros v. rewrite deleted_uris_app.
        rewrite Hd1. simpl. rewrite Hd2, elem_of_cons. split.
        -- intros (Hv & j & Hj & Hs). rewrite (Hother v (Hl v Hv)) in Hj. eauto.
        -- intros ([->|Hv] & j & Hj & Hs); [by destruct (Hnot j Hj)|].
           rewrite <- (Hother v (Hl v Hv)) in Hj. eauto.
      * intros v [Hne Hv]%not_elem_of_cons. by rewrite (Hout2 v Hv), Hother.
      * intros v j [->|Hv]%elem_of_cons Hj.
        -- rewrite (Hout2 u Hu), Hrecs, Hj. split; [|done].
           intros Hs. by destruct (Hnot j Hj).
        -- apply Hin2; [done|]. by rewrite (Hother v (Hl v Hv)).
    + exists c', ([GET u; DELETE u] ++ tr2).
      split; [exact H2|]. split; [by rewrite Htr2, Htr1, <- app_assoc|].
      split; [|split; [|split; [|split]]].
      * rewrite fetched_uris_app, Hf2. simpl. by rewrite Href.
      * rewrite deleted_uris_app. simpl. constructor; [|done].
        rewrite Hd2. by intros [? _].
      * intros v. rewrite deleted_uris_app. simpl.
        rewrite !elem_of_cons, Hd2. split.
        -- intros [->|(Hv & j' & Hj' & Hs)]; [eauto|].
           rewrite (Hother v (Hl v Hv)) in Hj'. eauto.
        -- intros ([->|Hv] & j' & Hj' & Hs); [by left|]. right.
           rewrite <- (Hother v (Hl v Hv)) in Hj'. eauto.
      * intros v [Hne Hv]%not_elem_of_cons. by rewrite (Hout2 v Hv), Hother.
      * intros v j' [->|Hv]%elem_of_cons Hj'.
        -- rewrite (Hout2 u Hu), Hrecs, lookup_delete_eq.
           assert (j' = j) as -> by congruence. split; [done|]. by intros [].
        -- apply Hin2; [done|]. by rewrite (Hother v (Hl v Hv)).
Qed.

(** C9: [set(instance_uris)] lists the distinct referenced uris in some
    order, which is left open.  Whatever the cleanup does and however it
    ends, every record of the backend is afterwards as it was or gone, and
    one that is gone was a digital object with exactly one linked instance
    or a top container in exactly one collection; no uri is deleted twice;
    and an object that is shared is fetched and passed over without an
    error or any other trace.  When the referenced uris were collected and
    every referenced object can be counted, the cleanup returns, however
    often a uri was referenced: each digital object and top container
    referenced is fetched exactly once, in the order of the set; the
    objects deleted are exactly the referenced sole owners, each once; and
    every other record is as it was. *)
Theorem C9_cleanup_deletes_only_sole_owners
  (set_order : list string → list string) (resource_number : string) (c : client) :
  (∀ l, set_order l ≡ₚ remove_dups l) →
  let c' := snd (remove_resource_associations set_order resource_number c) in
  only_deleted (records c) (records c')
  ∧ (∃ tr, trace c' = trace c ++ tr ∧ NoDup (deleted_uris tr))
  ∧ (∀ u j l c0, records c0 !! u = Some j →
       PyStr.contains "digital_objects" u = true →
       linked_instances j = Some l → length l ≠ 1 →
       delete_single_resource_instances u c0 = (Ok tt, send (GET u) c0))
  ∧ (∀ u j l c0, records c0 !! u = Some j →
       PyStr.contains "digital_objects" u = false →
       PyStr.contains "top_containers" u = true →
       collection j = Some l → length l ≠ 1 →
       delete_single_resource_instances u c0 = (Ok tt, send (GET u) c0))
  ∧ (∀ instance_uris c1,
       (let* resource_tree := get_resource_tree_children resource_number in
        let* children_with_instances :=
          find_children_with_instances_default resource_tree None in
        collect_instance_uris children_with_instances []) c
       = (Ok instance_uris, c1) →
       (∀ u, u ∈ instance_uris → countable (records c) u) →
       ∃ tr,
         remove_resource_associations set_order resource_number c = (Ok tt, c')
         ∧ trace c' = trace c1 ++ tr
         ∧ fetched_uris tr = List.filter referenced_object (set_order instance_uris)
         ∧ NoDup (fetched_uris tr)
         ∧ (∀ u, u ∈ fetched_uris tr
                 ↔ u ∈ instance_uris ∧ referenced_object u = true)
         ∧ NoDup (deleted_uris tr)
         ∧ (∀ u, u ∈ deleted_uris tr
                 ↔ u ∈ instance_uris
                   ∧ ∃ j, records c !! u = Some j ∧ sole_owner u j)
         ∧ (∀ u, u ∉ instance_uris → records c' !! u = records c !! u)
         ∧ (∀ u j, u ∈ instance_uris → records c !! u = Some j →
                   (sole_owner u j → records c' !! u = None)
                   ∧ (¬ sole_owner u j → records c' !! u = Some j))).
Proof.
  intros Hset.
  assert (∀ l, NoDup (set_order l)) as Hnd
    by (intros l; rewrite (Hset l); apply NoDup_remove_dups).
  assert (∀ l u, u ∈ set_order l ↔ u ∈ l) as Hmem
    by (intros l u; rewrite (Hset l); apply elem_of_remove_dups).
  split; [|split; [|split; [|split]]].
  - apply cleanup_only_deleted.
  - unfold remove_resource_associations, bind at 1, get_resource_tree_children.
    destruct (trees c !! resource_number) as [tree|];
      [|exists [GET_TREE resource_number]; split; [done|constructor]].
    unfold bind at 1, find_children_with_instances_default. unfold bind.
    match goal with
    | |- context [collect_instance_uris ?l ?acc ?c0] =>
        destruct (collect_instance_uris_state l acc c0) as (_ & tr1 & Htr1 & Hd1);
        destruct (collect_instance_uris l acc c0) as [[us|e] c1]
    end; simpl in Htr1.
    + destruct (for_each_delete_once (set_order us) c1 (Hnd us))
        as (tr2 & Htr2 & Hnd2 & _).
      exists (GET_TREE resource_number :: tr1 ++ tr2).
      rewrite Htr2, Htr1, <- !app_assoc. split; [done|].
      change (NoDup (deleted_uris (tr1 ++ tr2))).
      by rewrite deleted_uris_app, Hd1.
    + exists (GET_TREE resource_number :: tr1). simpl.
      rewrite Htr1, <- app_assoc. split; [done|].
      change (NoDup (deleted_uris tr1)). rewrite Hd1. constructor.
  - intros u j l c0 Hj Hdo Hl Hlen. unfold delete_single_resource_instances.
    rewrite Hdo. unfold bind, get_aspace_json, lift, subscript.
    rewrite Hj, Hl. apply Nat.eqb_neq in Hlen. by rewrite Hlen.
  - intros u j l c0 Hj Hdo Htc Hl Hlen. unfold delete_single_resource_instances.
    rewrite Hdo, Htc. unfold bind, get_aspace_json, lift, subscript.
    rewrite Hj, Hl. apply Nat.eqb_neq in Hlen. by rewrite Hlen.
  - intros us c1 Hus Hall.
    apply bind_inv_ok in Hus as (tree & c0 & Htree & Hus).
    apply bind_inv_ok in Hus as (children & c00 & Hchildren & Hus).
    assert (records c0 = records c) as Hr0.
    { unfold get_resource_tree_children in Htree.
      destruct (trees c !! resource_number); [|discriminate]. by injection Htree as _ <-. }
    assert (records c00 = records c0) as Hr00.
    { unfold find_children_with_instances_default in Hchildren.
      by injection Hchildren as _ <-. }
    pose proof (collect_instance_uris_state children [] c00) as Hc.
    rewrite Hus in Hc. simpl in Hc. destruct Hc as (Hr1 & _).
    assert (records c1 = records c) as Hr by congruence.
    destruct (for_each_delete_all (set_order us) c1 (Hnd us))
      as (c2 & tr & Hrun & Htr & Hf & Hnd2 & Hd & Hout & Hin).
    { intros u Hu. rewrite Hr. by apply Hall, Hmem. }
    assert (remove_resource_associations set_order resource_number c = (Ok tt, c2))
      as Hall2.
    { unfold remove_resource_associations, bind. rewrite Htree, Hchildren, Hus.
      exact Hrun. }
    rewrite Hall2. simpl. rewrite Hr in Hd, Hout, Hin.
    exists tr. split; [done|]. split; [done|]. split; [done|].
    split; [rewrite Hf; by apply NoDup_filter_list|].
    split; [|split; [done|split; [|split]]].
    + intros u. rewrite Hf, list_elem_of_In, List.filter_In, <- list_elem_of_In.
      by rewrite Hmem.
    + intros u. by rewrite Hd, Hmem.
    + intros u Hu. apply Hout. by rewrite Hmem.
    + intros u j Hu. apply Hin. by rewrite Hmem.
Qed.

Lemma C9_cleanup_deletes_only_sole_owners_witness :
  let c' := snd (remove_resource_associations remove_dups "5" Sample.cleanup_backend) in
  let instance_uris :=
    [Sample.dobj "3"; Sample.top "1"; Sample.top "2";
     Sample.top "1"; Sample.dobj "3"; Sample.dobj "4"] in
  (∀ l : list string, remove_dups l ≡ₚ remove_dups l)
  ∧ fst (remove_resource_associations (λ l, l) "5" Sample.cleanup_backend)
    = Err (CommunicationError not_found)
  ∧ deleted_uris (trace c') = [Sample.top "1"; Sample.dobj "3"]
  ∧ records c' !! Sample.top "1" = None
  ∧ records c' !! Sample.dobj "3" = None
  ∧ records c' !! Sample.top "2" = records Sample.cleanup_backend !! Sample.top "2"
  ∧ records c' !! Sample.dobj "4" = records Sample.cleanup_backend !! Sample.dobj "4"
  ∧ only_deleted (records Sample.cleanup_backend) (records c')
  ∧ (∃ tr, trace c' = trace Sample.cleanup_backend ++ tr ∧ NoDup (deleted_uris tr))
  ∧ ∃ tr,
      remove_resource_associations remove_dups "5" Sample.cleanup_backend = (Ok tt, c')
      ∧ fetched_uris tr
        = List.filter referenced_object (remove_dups instance_uris)
      ∧ NoDup (fetched_uris tr)
      ∧ NoDup (deleted_uris tr)
      ∧ (∀ u, u ∈ deleted_uris tr
              ↔ u ∈ instance_uris
                ∧ ∃ j, records Sample.cleanup_backend !! u = Some j ∧ sole_owner u j)
      ∧ (∀ u, u ∉ instance_uris →
              records c' !! u = records Sample.cleanup_backend !! u).
Proof.
  intros c' instance_uris. split; [done|]. split; [reflexivity|].
  do 5 (split; [reflexivity|]).
  pose proof (C9_cleanup_deletes_only_sole_owners remove_dups "5"
                Sample.cleanup_backend (λ l, reflexivity (remove_dups l))) as H.
  split; [exact (proj1 H)|]. split; [exact (proj1 (proj2 H))|].
  destruct (proj2 (proj2 (proj2 (proj2 H))) instance_uris
              (snd ((let* resource_tree := get_resource_tree_children "5" in
                     let* children_with_instances :=
                       find_children_with_instances_default resource_tree None in
                     collect_instance_uris children_with_instances [])
                      Sample.cleanup_backend)))
    as (tr & Hrun & _ & Hf & Hnf & _ & Hnd & Hd & Hout & _).
  { vm_compute. reflexivity. }
  { intros u Hu. apply list_elem_of_In in Hu. vm_compute in Hu.
    destruct Hu as [<-|[<-|[<-|[<-|[<-|[<-|[]]]]]]];
      (split; [intros Hdo | intros Hdo Htc]; try (vm_compute in Hdo; discriminate);
       eexists _, _; split; reflexivity). }
  exists tr. done.
Defined.

(** ** Idempotence and the direction of the publish flag *)

(** C7: after a text sweep that returned its log, the same sweep on the
    same resource with the same text returns an empty log and writes
    nothing; and across either sweep, however it ends, every record of the
    backend is still there and differs at most by notes that went from
    published to unpublished.  The cleanup and the merge change no record
    at all: a record there afterwards is the record that was there. *)
Theorem C7_second_text_sweep_logs_nothing
  (resource_number text : string) (c c1 : client) (log : list log_entry) :
  unpublish_restrictions_by_text resource_number (Some text) c
  = (Ok (UnpublishedLog log), c1) →
  (∃ c2, unpublish_restrictions_by_text resource_number (Some text) c1
         = (Ok (UnpublishedLog []), c2)
         ∧ records c2 = records c1)
  ∧ (∀ rn restriction_text c0 u j, records c0 !! u = Some j →
       ∃ j', records (snd (unpublish_restrictions_by_text rn restriction_text c0)) !! u
             = Some j'
             ∧ only_unpublished j j')
  ∧ (∀ xpath_date_normals today rn c0 u j, records c0 !! u = Some j →
       ∃ j', records (snd (unpublish_expired_restrictions_for_resource
                             xpath_date_normals today rn c0)) !! u
             = Some j'
             ∧ only_unpublished j j')
  ∧ (∀ set_order rn c0 u j',
       records (snd (remove_resource_associations set_order rn c0)) !! u = Some j' →
       records c0 !! u = Some j')
  ∧ (∀ source_id target_id c0 u j',
       records (snd (merge_top_containers source_id target_id c0)) !! u = Some j' →
       records c0 !! u = Some j').
Proof.
  intros H. split; [by eapply text_sweep_twice|]. split; [|split; [|split]].
  - intros rn rt c0 u j Hj.
    destruct (records_step_lookup _ _ _ u j (text_sweep_records rn rt c0) Hj)
      as (j' & Hj' & Hstep).
    eauto using record_step_only_unpublished.
  - intros xp today rn c0 u j Hj.
    destruct (records_step_lookup _ _ _ u j
                (expiry_sweep_records xp today rn c0) Hj) as (j' & Hj' & Hstep).
    eauto using record_step_only_unpublished.
  - intros set_order rn c0 u j' Hj'.
    destruct (cleanup_only_deleted set_order rn c0 u) as [Heq|[Hnone _]];
      congruence.
  - intros source_id target_id c0 u j'.
    destruct (merge_top_containers source_id target_id c0) as [r c'] eqn:E.
    simpl. destruct (merge_records _ _ _ _ _ E) as [->| ->]; [done|].
    intros [_ Hj']%lookup_delete_Some. exact Hj'.
Qed.

Lemma C7_second_text_sweep_logs_nothing_witness :
  let r := unpublish_restrictions_by_text "5" (Some Sample.until_2020)
             Sample.restricted_backend in
  let log := [LogEntry (Sample.ao "11") "Folder 11" Sample.until_2020;
              LogEntry (Sample.ao "11") "Folder 11" Sample.until_2020] in
  fst r = Ok (UnpublishedLog log)
  ∧ ∃ c2, unpublish_restrictions_by_text "5" (Some Sample.until_2020) (snd r)
          = (Ok (UnpublishedLog []), c2)
          ∧ records c2 = records (snd r).
Proof.
  intros r log. split; [reflexivity|].
  refine (proj1 (C7_second_text_sweep_logs_nothing "5" Sample.until_2020
                   Sample.restricted_backend (snd r) log _)).
  vm_compute. reflexivity.
Defined.

(** ** The expiry sweep *)

Lemma unpublish_notes_readable test u d l :
  Forall (λ n, published_accessrestrict n = false
               ∨ ∃ text b, format_note n = Ok text ∧ test text = Ok b) l →
  ∃ r, unpublish_notes test u (Some d) l = Ok r.
Proof.
  induction 1 as [|n l Hn _ [[[l' update] entries] IH]]; simpl; [eauto|].
  rewrite IH. destruct Hn as [->|(text & b & -> & ->)]; [eauto|].
  destruct (published_accessrestrict n); [destruct b|]; simpl; eauto.
Qed.

Lemma sweep_archival_object_returns test u c j :
  records c !! u = Some j → readable test j →
  ∃ entries c', sweep_archival_object test u c = (Ok entries, c').
Proof.
  intros Hj (l & d & Hl & Hd & Hall).
  unfold sweep_archival_object, bind, get_aspace_json, lift, subscript.
  rewrite Hj, Hl, Hd.
  destruct (unpublish_notes_readable test u d l Hall) as [[[l' update] es] ->].
  destruct update; unfold ret, session_post; by eexists _, _.
Qed.

Lemma readable_after_unpublish test j l :
  notes j = Some l → readable test j →
  readable test (set_notes (map (Spec.unpublish_if test) l) j).
Proof.
  intros Hl (l0 & d & Hl0 & Hd & Hall). assert (l0 = l) as -> by congruence.
  exists (map (Spec.unpublish_if test) l), d. split; [done|]. split; [done|].
  apply Forall_fmap. eapply Forall_impl; [exact Hall|]. intros n Hn. simpl.
  destruct (unpublish_if_calm test n Hn) as [Hp|(text & Hf & Ht)]; eauto.
Qed.

(** A sweep over readable records returns. *)
Lemma sweep_returns test uris : ∀ unpublished_log c,
  (∀ u, u ∈ uris → ∃ j, records c !! u = Some j ∧ readable test j) →
  ∃ log c', sweep test uris unpublished_log c = (Ok log, c').
Proof.
  induction uris as [|u uris IH]; intros acc c Hall; simpl.
  - unfold ret. eauto.
  - destruct (Hall u) as (j & Hj & Hread); [by left|].
    destruct (sweep_archival_object_returns test u c j Hj Hread) as (es & c1 & H1).
    unfold bind. rewrite H1. apply IH. intros u' Hu'.
    destruct (Hall u') as (j' & Hj' & Hread'); [by right|].
    apply sweep_archival_object_ok in H1 as (j0 & l & Hj0 & Hl & _ & ->).
    assert (j0 = j) as -> by congruence.
    destruct (List.filter (Spec.unpublishes test) l); simpl; [eauto|].
    destruct (decide (u = u')) as [<-|Hne].
    + rewrite lookup_insert_eq. assert (j' = j) as -> by congruence.
      eauto using readable_after_unpublish.
    + rewrite lookup_insert_ne by done. eauto.
Qed.

Lemma posted_uris_app a b : posted_uris (a ++ b) = posted_uris a ++ posted_uris b.
Proof. unfold posted_uris. apply flat_map_app. Qed.

(** *** The records, the write-backs and the log of a sweep that returned *)

Lemma unpublish_if_settled test n :
  Spec.unpublishes test (Spec.unpublish_if test n) = false.
Proof.
  unfold Spec.unpublish_if. destruct (Spec.unpublishes test n) eqn:E; [|exact E].
  unfold Spec.unpublishes. by rewrite published_after_unpublish.
Qed.

Lemma unpublish_if_idempotent test n :
  Spec.unpublish_if test (Spec.unpublish_if test n) = Spec.unpublish_if test n.
Proof.
  unfold Spec.unpublish_if at 1. by rewrite unpublish_if_settled.
Qed.

Lemma filter_after_unpublish test l :
  List.filter (Spec.unpublishes test) (map (Spec.unpublish_if test) l) = [].
Proof.
  induction l as [|n l IH]; simpl; [done|]. by rewrite unpublish_if_settled.
Qed.

Lemma due_after_unpublish test j : due test (unpublish_record test j) = [].
Proof.
  unfold due, unpublish_record. destruct (notes j) as [l|] eqn:El; [|by rewrite El].
  simpl. apply filter_after_unpublish.
Qed.

Lemma unpublish_record_idempotent test j :
  unpublish_record test (unpublish_record test j) = unpublish_record test j.
Proof.
  unfold unpublish_record. destruct (notes j) as [l|] eqn:El; [|by rewrite El].
  simpl. unfold set_notes. simpl. f_equal. f_equal.
  rewrite map_map. apply map_ext. intros n. apply unpublish_if_idempotent.
Qed.

Lemma unpublish_record_none test j :
  due test j = [] → unpublish_record test j = j.
Proof.
  unfold due, unpublish_record. destruct (notes j) as [l|] eqn:El; [|done].
  intros H. rewrite (unpublish_if_none test l H). destruct j. simpl in El.
  by rewrite El.
Qed.

(** One visit: the record is there with its notes, and afterwards it is
    the unpublished record; a POST is sent and entries are logged exactly
    when a note was due. *)
Lemma sweep_archival_object_visit test u c entries c' :
  sweep_archival_object test u c = (Ok entries, c') →
  ∃ j l, records c !! u = Some j ∧ notes j = Some l
    ∧ records c' = <[u := unpublish_record test j]> (records c)
    ∧ entries = due_entries test (records c) u
    ∧ trace c' = trace c ++ GET u :: match due test j with [] => [] | _ => [POST u] end.
Proof.
  intros H. apply sweep_archival_object_ok in H as (j & l & Hj & Hl & -> & ->).
  exists j, l. split; [done|]. split; [done|].
  unfold due_entries, due. rewrite Hj, Hl.
  destruct (List.filter (Spec.unpublishes test) l) as [|n hits] eqn:E; simpl.
  - split; [|done]. rewrite unpublish_record_none; [by rewrite insert_id|].
    unfold due. by rewrite Hl.
  - unfold unpublish_record. rewrite Hl. split; [done|]. split; [done|].
    by rewrite <- app_assoc.
Qed.

Lemma elem_of_first_visits uris u : u ∈ first_visits uris ↔ u ∈ uris.
Proof.
  induction uris as [|v uris IH]; simpl; [done|].
  rewrite !elem_of_cons, <- IH, list_elem_of_In, List.filter_In, <- list_elem_of_In.
  destruct (String.eqb_spec u v) as [->|Hne]; simpl; [tauto|].
  split; [intros [?|[? _]]; tauto | intros [?|?]; [tauto | right; done]].
Qed.

Lemma NoDup_first_visits uris : NoDup (first_visits uris).
Proof.
  induction uris as [|v uris IH]; simpl; constructor.
  - rewrite list_elem_of_In, List.filter_In. intros [_ H].
    by rewrite String.eqb_refl in H.
  - by apply NoDup_filter_list.
Qed.

(** After the visit of [u0], what the later visits find due is what was
    due before at the uris other than [u0]. *)
Lemma flat_map_after_visit {B} (f g : string → list B) u0 (l : list string) :
  f u0 = [] → (∀ v, v ≠ u0 → f v = g v) →
  flat_map f l = flat_map g (List.filter (λ v, negb (String.eqb v u0)) l).
Proof.
  intros H0 Hne. induction l as [|v l IH]; simpl; [done|].
  destruct (String.eqb_spec v u0) as [->|Hv]; simpl.
  - by rewrite H0.
  - by rewrite IH, Hne.
Qed.

Lemma sweep_outcome test uris : ∀ unpublished_log c log c',
  sweep test uris unpublished_log c = (Ok log, c') →
  (∀ u, u ∈ uris → ∃ j l, records c !! u = Some j ∧ notes j = Some l)
  ∧ (∀ u, u ∈ uris → records c' !! u = unpublish_record test <$> records c !! u)
  ∧ (∀ u, u ∉ uris → records c' !! u = records c !! u)
  ∧ log = unpublished_log ++ flat_map (due_entries test (records c)) (first_visits uris)
  ∧ ∃ tr, trace c' = trace c ++ tr
      ∧ posted_uris tr
        = flat_map (λ u, match due_entries test (records c) u with
                         | [] => [] | _ => [u] end) (first_visits uris).
Proof.
  induction uris as [|u0 uris IH]; intros acc c log c'; simpl.
  - intros [= <- <-]. split; [by intros u Hu%elem_of_nil|].
    split; [by intros u Hu%elem_of_nil|]. split; [done|].
    rewrite app_nil_r. split; [done|]. exists []. by rewrite app_nil_r.
  - intros H. apply bind_inv_ok in H as (entries & c1 & H1 & H2).
    apply sweep_archival_object_visit in H1 as (j & l & Hj & Hl & Hrecs & -> & Htr1).
    apply IH in H2 as (Hthere & Hin & Hout & -> & tr & Htr & Hposted).
    assert (due_entries test (records c1) u0 = []) as Hsettled.
    { unfold due_entries. rewrite Hrecs, lookup_insert_eq.
      by rewrite due_after_unpublish. }
    assert (∀ v, v ≠ u0 →
                 due_entries test (records c1) v = due_entries test (records c) v)
      as Hother.
    { intros v Hv. unfold due_entries. by rewrite Hrecs, lookup_insert_ne. }
    split; [|split; [|split; [|split]]].
    + intros u [->|Hu]%elem_of_cons; [eauto|].
      destruct (Hthere u Hu) as (j1 & l1 & Hj1 & Hl1). rewrite Hrecs in Hj1.
      destruct (decide (u0 = u)) as [<-|Hne]; [eauto|].
      rewrite lookup_insert_ne in Hj1 by done. eauto.
    + intros u Hu. destruct (decide (u ∈ uris)) as [Hr|Hr].
      * rewrite (Hin u Hr), Hrecs. destruct (decide (u0 = u)) as [<-|Hne].
        -- rewrite lookup_insert_eq, Hj. simpl.
           by rewrite unpublish_record_idempotent.
        -- by rewrite lookup_insert_ne.
      * rewrite (Hout u Hr), Hrecs.
        apply elem_of_cons in Hu as [->|Hu]; [|done].
        by rewrite lookup_insert_eq, Hj.
    + intros u Hu. apply not_elem_of_cons in Hu as [Hne Hu].
      rewrite (Hout u Hu), Hrecs. by rewrite lookup_insert_ne.
    + rewrite <- app_assoc. f_equal. f_equal.
      by apply flat_map_after_visit.
    + exists (GET u0 :: match due test j with [] => [] | _ => [POST u0] end ++ tr).
      split.
      * rewrite Htr, Htr1, <- app_assoc. done.
      * change (posted_uris (GET u0 :: ?t)) with (posted_uris t).
        rewrite posted_uris_app, Hposted.
        rewrite (flat_map_after_visit _
                   (λ u, match due_entries test (records c) u with
                         | [] => [] | _ => [u] end) u0).
        -- f_equal. unfold due_entries at 1. rewrite Hj.
           by destruct (due test j).
        -- by rewrite Hsettled.
        -- intros v Hv. by rewrite (Hother v Hv).
Qed.

Lemma elem_of_flat_map_due {B} (f : string → list B) (l : list string) u :
  u ∈ flat_map (λ v, match f v with [] => [] | _ => [v] end) l
  ↔ u ∈ l ∧ f u ≠ [].
Proof.
  induction l as [|v l IH]; simpl.
  - split; [by intros H%elem_of_nil | by intros [H%elem_of_nil _]].
  - rewrite elem_of_app, IH, elem_of_cons.
    destruct (f v) eqn:E.
    + split; [intros [H%elem_of_nil|[? ?]]; [done|tauto]|].
      intros [[->|?] ?]; [congruence | tauto].
    + rewrite list_elem_of_singleton.
      split; [intros [->|[? ?]]; [split; [by left|congruence] | tauto]|].
      intros [[->|?] ?]; [by left | tauto].
Qed.

Lemma NoDup_flat_map_due {B} (f : string → list B) (l : list string) :
  NoDup l → NoDup (flat_map (λ v, match f v with [] => [] | _ => [v] end) l).
Proof.
  induction 1 as [|v l Hv _ IH]; simpl; [constructor|].
  destruct (f v); simpl; [done|]. constructor; [|done].
  rewrite elem_of_flat_map_due. tauto.
Qed.

Lemma due_entries_some test recs u :
  due_entries test recs u ≠ [] ↔ ∃ j, recs !! u = Some j ∧ due test j ≠ [].
Proof.
  unfold due_entries. destruct (recs !! u) as [j|].
  - split.
    + intros H. exists j. split; [done|]. intros E. by rewrite E in H.
    + intros (j' & [= <-] & H) E. by destruct (due test j).
  - split; [done | by intros (j & ? & _)].
Qed.

Lemma unpublish_record_fields test j l :
  notes j = Some l →
  same_but_notes j (unpublish_record test j)
  ∧ ∃ l', notes (unpublish_record test j) = Some l'
      ∧ Forall2 (λ n n', same_but_publish n n'
                         ∧ publish n' = (if Spec.unpublishes test n then false
                                         else publish n)) l l'.
Proof.
  intros Hl. unfold unpublish_record. rewrite Hl. split; [by repeat split|].
  exists (map (Spec.unpublish_if test) l). split; [done|].
  clear Hl. induction l as [|n l IH]; simpl; constructor; [|exact IH].
  unfold Spec.unpublish_if. by destruct (Spec.unpublishes test n).
Qed.

(** C5: a sweep for expired restrictions that returns has sent the
    requests, returned the log and left the records of the specification's
    sweep over the uris of the tree (after those the default list already
    held).  Written out: a record off the list is as it was; a record on
    it keeps every key but [notes], and each of its notes keeps every key
    but [publish], which is [False] afterwards when the note was to be
    unpublished and as before otherwise; the record is written back once
    when it had such a note and never otherwise; and the log lists, record
    by record in the order of their first visit, one entry per unpublished
    note in the order of the notes.  A note is to be unpublished exactly
    when it is a published access-restriction note whose first date element
    has a [normal] attribute strictly below [today]; a date equal to or
    after [today] leaves it.  The sweep returns whenever the resource has a
    tree and every record on the way can be read. *)
Theorem C5_expiry_sweep_unpublishes_exactly_the_expired
  (xpath_date_normals : string → result (list (option string)))
  (today resource_number : string) (c : client) :
  (∀ log c',
     unpublish_expired_restrictions_for_resource xpath_date_normals today
       resource_number c = (Ok log, c') →
     ∃ tree tr,
     trees c !! resource_number = Some tree
     ∧ Spec.sweep (expired xpath_date_normals today)
         (extract_archival_object_uris_from_children tree
            (default_archival_object_uris c))
         (records c)
       = (tr, log, records c')
     ∧ trace c' = trace c ++ GET_TREE resource_number :: tr)
  ∧ (∀ log c',
     unpublish_expired_restrictions_for_resource xpath_date_normals today
       resource_number c = (Ok log, c') →
     ∃ tree tr,
     trees c !! resource_number = Some tree
     ∧ (∀ u, u ∉ default_archival_object_uris c
                 ++ extract_archival_object_uris_from_children tree [] →
             records c' !! u = records c !! u)
     ∧ (∀ u, u ∈ default_archival_object_uris c
                 ++ extract_archival_object_uris_from_children tree [] →
             ∃ j j' l l',
               records c !! u = Some j ∧ records c' !! u = Some j'
               ∧ same_but_notes j j'
               ∧ notes j = Some l ∧ notes j' = Some l'
               ∧ Forall2 (λ n n',
                    same_but_publish n n'
                    ∧ publish n'
                      = (if Spec.unpublishes (expired xpath_date_normals today) n
                         then false else publish n)) l l')
     ∧ trace c' = trace c ++ GET_TREE resource_number :: tr
     ∧ NoDup (posted_uris tr)
     ∧ (∀ u, u ∈ posted_uris tr
             ↔ u ∈ default_archival_object_uris c
                   ++ extract_archival_object_uris_from_children tree []
               ∧ ∃ j, records c !! u = Some j
                      ∧ due (expired xpath_date_normals today) j ≠ [])
     ∧ log = flat_map (due_entries (expired xpath_date_normals today) (records c))
               (first_visits
                  (default_archival_object_uris c
                   ++ extract_archival_object_uris_from_children tree [])))
  ∧ (∀ n, Spec.unpublishes (expired xpath_date_normals today) n = true
          ↔ note_type n = "accessrestrict" ∧ publish n = true
            ∧ ∃ text normal rest,
                format_note n = Ok text
                ∧ xpath_date_normals
                    ("<accessrestrict>" +:+ text +:+ "</accessrestrict>")
                  = Ok (Some normal :: rest)
                ∧ PyStr.lt normal today = true)
  ∧ (∀ normal, normal = today ∨ PyStr.lt today normal = true →
               PyStr.lt normal today = false)
  ∧ (∀ tree,
       trees c !! resource_number = Some tree →
       (∀ u, u ∈ default_archival_object_uris c
                 ++ extract_archival_object_uris_from_children tree [] →
             ∃ j, records c !! u = Some j
                  ∧ readable (expired xpath_date_normals today) j) →
       ∃ log c',
         unpublish_expired_restrictions_for_resource xpath_date_normals today
           resource_number c = (Ok log, c')).
Proof.
  split; [|split; [|split; [|split]]].
  - intros log c' H. unfold unpublish_expired_restrictions_for_resource,
      get_resource_archival_object_uris in H.
    apply bind_inv_ok in H as (uris & c1 & H1 & H2).
    apply bind_inv_ok in H1 as (tree & c0 & Htree & Huris).
    unfold get_resource_tree_children in Htree.
    destruct (trees c !! resource_number) as [t|] eqn:Et; [|discriminate].
    injection Htree as <- <-.
    unfold extract_archival_object_uris_from_children_default in Huris.
    injection Huris as <- <-.
    apply sweep_refines in H2 as (tr & lg & Hspec & -> & Htr).
    exists t, tr. split; [reflexivity|]. split; [exact Hspec|].
    simpl in Htr. rewrite Htr, <- app_assoc. done.
  - intros log c' H. unfold unpublish_expired_restrictions_for_resource in H.
    apply bind_inv_ok in H as (uris & c1 & H1 & H2).
    pose proof (get_resource_archival_object_uris_run resource_number c) as Hrun.
    destruct (trees c !! resource_number) as [t|] eqn:Et; [|congruence].
    simpl in Hrun. rewrite Hrun in H1. injection H1 as <- <-.
    apply sweep_outcome in H2 as (Hthere & Hin & Hout & -> & tr & Htr & Hposted).
    simpl in Hthere, Hin, Hout, Htr.
    exists t, tr. split; [reflexivity|]. split; [exact Hout|].
    split; [|split; [|split; [|split]]].
    + intros u Hu. destruct (Hthere u Hu) as (j & l & Hj & Hl).
      destruct (unpublish_record_fields (expired xpath_date_normals today) j l Hl)
        as (Hsame & l' & Hl' & Hall).
      exists j, (unpublish_record (expired xpath_date_normals today) j), l, l'.
      rewrite (Hin u Hu), Hj. done.
    + by rewrite Htr, <- app_assoc.
    + rewrite Hposted. apply NoDup_flat_map_due, NoDup_first_visits.
    + intros u. rewrite Hposted, elem_of_flat_map_due, elem_of_first_visits.
      by rewrite due_entries_some.
    + done.
  - intros n. unfold Spec.unpublishes, published_accessrestrict, expired, subscript.
    split.
    + intros [[Ht Hp]%andb_true_iff Hx]%andb_true_iff.
      apply String.eqb_eq in Ht. repeat split; [done..|].
      destruct (format_note n) as [text|]; [|discriminate].
      destruct (xpath_date_normals _) as [[|[normal|] rest]|] eqn:E;
        try discriminate.
      exists text, normal, rest. done.
    + intros (-> & -> & text & normal & rest & -> & -> & ->). done.
  - intros normal [->|Hlt]; [apply lt_irreflexive | by apply lt_asymmetric].
  - intros tree Htree Hall.
    unfold unpublish_expired_restrictions_for_resource.
    pose proof (get_resource_archival_object_uris_run resource_number c) as Hrun.
    rewrite Htree in Hrun. unfold bind. rewrite Hrun.
    by apply sweep_returns.
Qed.

Lemma C5_expiry_sweep_unpublishes_exactly_the_expired_witness :
  let r := unpublish_expired_restrictions_for_resource Sample.xpath_date_normals
             Sample.today "5" Sample.restricted_backend in
  let log := [LogEntry (Sample.ao "11") "Folder 11" Sample.until_2020;
              LogEntry (Sample.ao "11") "Folder 11" Sample.until_2020] in
  fst r = Ok log
  ∧ trace (snd r)
    = [GET_TREE "5"; GET (Sample.ao "10"); GET (Sample.ao "11");
       POST (Sample.ao "11"); GET (Sample.ao "12")]
  ∧ records (snd r) !! Sample.ao "11"
    = Some (Sample.restricted "11"
              [Sample.restriction false Sample.until_2020; Sample.scope_note;
               Sample.restriction true Sample.until_2030;
               Sample.restriction false Sample.until_2020])
  ∧ records (snd r) !! Sample.ao "12"
    = Some (Sample.restricted "12"
              [Sample.restriction true Sample.until_today;
               Sample.restriction false Sample.until_2020])
  ∧ (∃ tree tr,
      trees Sample.restricted_backend !! "5" = Some tree
      ∧ Spec.sweep (expired Sample.xpath_date_normals Sample.today)
          (extract_archival_object_uris_from_children tree
             (default_archival_object_uris Sample.restricted_backend))
          (records Sample.restricted_backend)
        = (tr, log, records (snd r))
      ∧ trace (snd r) = trace Sample.restricted_backend ++ GET_TREE "5" :: tr)
  ∧ (∃ tr,
      trace (snd r) = trace Sample.restricted_backend ++ GET_TREE "5" :: tr
      ∧ NoDup (posted_uris tr)
      ∧ (Sample.ao "11" ∈ posted_uris tr)
      ∧ ∃ j' l',
          records (snd r) !! Sample.ao "11" = Some j' ∧ notes j' = Some l'
          ∧ Forall2 (λ n n',
               same_but_publish n n'
               ∧ publish n'
                 = (if Spec.unpublishes
                         (expired Sample.xpath_date_normals Sample.today) n
                    then false else publish n))
              [Sample.restriction true Sample.until_2020; Sample.scope_note;
               Sample.restriction true Sample.until_2030;
               Sample.restriction true Sample.until_2020] l')
  ∧ ∃ log' c',
      unpublish_expired_restrictions_for_resource Sample.xpath_date_normals
        Sample.today "5" Sample.restricted_backend = (Ok log', c').
Proof.
  intros r log. split; [reflexivity|]. split; [reflexivity|].
  split; [reflexivity|]. split; [reflexivity|]. split; [|split].
  - refine (proj1 (C5_expiry_sweep_unpublishes_exactly_the_expired
                     Sample.xpath_date_normals Sample.today "5"
                     Sample.restricted_backend) log (snd r) _).
    vm_compute. reflexivity.
  - destruct (proj1 (proj2 (C5_expiry_sweep_unpublishes_exactly_the_expired
                              Sample.xpath_date_normals Sample.today "5"
                              Sample.restricted_backend)) log (snd r))
      as (tree & tr & Htree & _ & Hin & Htr & Hnd & Hposted & _).
    { vm_compute. reflexivity. }
    injection Htree as <-.
    exists tr. split; [exact Htr|]. split; [exact Hnd|]. split.
    + apply Hposted. split.
      * apply list_elem_of_In. vm_compute. tauto.
      * eexists. split; [reflexivity|]. vm_compute. discriminate.
    + destruct (Hin (Sample.ao "11")) as (j & j' & l & l' & Hj & Hj' & _ & Hl & Hl' & Hall).
      { apply list_elem_of_In. vm_compute. tauto. }
      injection Hj as <-. injection Hl as <-. eauto.
  - refine (proj2 (proj2 (proj2 (proj2 (C5_expiry_sweep_unpublishes_exactly_the_expired
                                   Sample.xpath_date_normals Sample.today "5"
                                   Sample.restricted_backend))))
              [Sample.series] eq_refl _).
    intros u Hu. apply list_elem_of_In in Hu. vm_compute in Hu.
    destruct Hu as [<-|[<-|[<-|[]]]];
      (eexists; split; [reflexivity|]; eexists _, _;
       split; [reflexivity|]; split; [reflexivity|];
       repeat (constructor;
               [first [left; reflexivity | right; eexists _, _; split; reflexivity]|]);
       constructor).
Defined.

(** * Further properties *)

(** ** The walkers and the nodes they visit *)

Lemma fold_walk_flat_map (walk : tree_node → list string → list string)
  (out : tree_node → list string) cs :
  Forall (λ c, ∀ acc, walk c acc = acc ++ out c) cs →
  ∀ acc, fold_left (λ a c, walk c a) cs acc = acc ++ flat_map out cs.
Proof.
  induction 1 as [|c cs Hc _ IH]; intros acc; simpl.
  - by rewrite app_nil_r.
  - by rewrite IH, Hc, app_assoc.
Qed.

Lemma map_flat_map {A B C} (f : B → C) (g : A → list B) l :
  map f (flat_map g l) = flat_map (λ x, map f (g x)) l.
Proof. induction l as [|x l IH]; simpl; [done|]. by rewrite map_app, IH. Qed.

Lemma filter_flat_map {A B} (p : B → bool) (g : A → list B) l :
  List.filter p (flat_map g l) = flat_map (λ x, List.filter p (g x)) l.
Proof. induction l as [|x l IH]; simpl; [done|]. by rewrite List.filter_app, IH. Qed.

Lemma flat_map_ext_Forall {A B} (f g : A → list B) l :
  Forall (λ x, f x = g x) l → flat_map f l = flat_map g l.
Proof. induction 1 as [|x l Hx _ IH]; simpl; [done|]. by rewrite Hx, IH. Qed.

Lemma extract_node_visited t : ∀ acc,
  extract_node t acc = acc ++ map node_uri (visited_node t).
Proof.
  induction t as [u hc its cs IH] using tree_node_induction. intros acc.
  destruct hc; cbn; [|done].
  rewrite (fold_walk_flat_map extract_node (λ c, map node_uri (visited_node c)) cs IH).
  by rewrite map_flat_map, <- app_assoc.
Qed.

Lemma extract_visited children acc :
  extract_archival_object_uris_from_children children acc
  = acc ++ map node_uri (visited children).
Proof.
  unfold extract_archival_object_uris_from_children, visited.
  rewrite map_flat_map.
  apply (fold_walk_flat_map extract_node). apply Forall_forall. intros t _.
  apply extract_node_visited.
Qed.

Lemma find_node_visited it t : ∀ acc,
  find_node it t acc
  = acc ++ map node_uri (List.filter (carries it) (visited_node t)).
Proof.
  induction t as [u hc its cs IH] using tree_node_induction. intros acc.
  simpl. unfold carries at 1. simpl.
  destruct hc.
  - rewrite (fold_walk_flat_map (find_node it)
               (λ c, map node_uri (List.filter (carries it) (visited_node c))) cs IH).
    destruct (qualifies it its); simpl;
      rewrite filter_flat_map, map_flat_map, <- ?app_assoc; done.
  - destruct (qualifies it its); simpl; by rewrite ?app_nil_r.
Qed.

Lemma find_visited children acc it :
  find_children_with_instances children acc it
  = acc ++ map node_uri (List.filter (carries it) (visited children)).
Proof.
  unfold find_children_with_instances, visited.
  rewrite filter_flat_map, map_flat_map.
  apply (fold_walk_flat_map (find_node it)). apply Forall_forall. intros t _.
  apply find_node_visited.
Qed.

Lemma map_filter_sublist {A B} (f : A → B) (p q : A → bool) l :
  (∀ x, p x = true → q x = true) →
  map f (List.filter p l) `sublist_of` map f (List.filter q l).
Proof.
  intros Hpq. induction l as [|x l IH]; simpl; [constructor|].
  destruct (p x) eqn:Ep.
  - rewrite (Hpq x Ep). simpl. by constructor.
  - destruct (q x); simpl; [by constructor | done].
Qed.

Lemma filter_true {A} (l : list A) : List.filter (λ _, true) l = l.
Proof. induction l as [|x l IH]; simpl; [done|]. by rewrite IH. Qed.

Lemma carries_any it t : carries it t = true → carries None t = true.
Proof.
  unfold carries, qualifies. destruct (node_instance_types t); [done|].
  intros _. reflexivity.
Qed.

(** X1: both walkers go through the same nodes in the same order, a node
    before what is under it and the children of a node only when its
    [has_children] is set: [extract_archival_object_uris_from_children]
    appends the uri of every such node to the accumulator, and
    [find_children_with_instances] the uris of those whose
    [instance_types] is non-empty and, with a filter, holds the filter. *)
Theorem X1_walkers_list_the_visited_nodes
  (children : list tree_node) (acc : list string) (instance_type : option string) :
  extract_archival_object_uris_from_children children acc
  = acc ++ map node_uri (visited children)
  ∧ find_children_with_instances children acc instance_type
    = acc ++ map node_uri
               (List.filter (λ t, qualifies instance_type (node_instance_types t))
                            (visited children)).
Proof. split; [apply extract_visited | apply find_visited]. Qed.

(** X2: on any tree the uris with instances are a sublist of all the uris,
    and the uris with instances of one type a sublist of the uris with
    instances; so neither list is longer than the one it is taken from. *)
Theorem X2_found_uris_are_a_sublist_of_extracted_uris
  (children : list tree_node) (instance_type : option string) :
  let all := extract_archival_object_uris_from_children children [] in
  let any := find_children_with_instances children [] None in
  let some := find_children_with_instances children [] instance_type in
  some `sublist_of` any ∧ any `sublist_of` all
  ∧ length some ≤ length any ∧ length any ≤ length all.
Proof.
  assert (find_children_with_instances children [] instance_type
            `sublist_of` find_children_with_instances children [] None) as H1.
  { rewrite !find_visited. simpl. apply map_filter_sublist, carries_any. }
  assert (find_children_with_instances children [] None
            `sublist_of` extract_archival_object_uris_from_children children [])
    as H2.
  { rewrite find_visited, extract_visited. simpl.
    rewrite <- (filter_true (visited children)) at 2.
    by apply map_filter_sublist. }
  simpl. split; [exact H1|]. split; [exact H2|].
  split; by apply sublist_length.
Qed.

(** X3: a node whose [has_children] is not set hides what is listed under
    it: replacing its children by none changes neither walker's result. *)
Theorem X3_children_of_a_childless_node_are_not_visited
  (before after : list tree_node) (u : string) (its : list string)
  (hidden : list tree_node) (acc : list string) (instance_type : option string) :
  extract_archival_object_uris_from_children
    (before ++ TreeNode u false its hidden :: after) acc
  = extract_archival_object_uris_from_children
      (before ++ TreeNode u false its [] :: after) acc
  ∧ find_children_with_instances
      (before ++ TreeNode u false its hidden :: after) acc instance_type
    = find_children_with_instances
        (before ++ TreeNode u false its [] :: after) acc instance_type.
Proof.
  rewrite !extract_visited, !find_visited. unfold visited.
  rewrite !flat_map_app. simpl. rewrite !List.filter_app. simpl.
  change (carries instance_type (TreeNode u false its hidden))
    with (qualifies instance_type its).
  change (carries instance_type (TreeNode u false its []))
    with (qualifies instance_type its).
  rewrite !map_app. simpl.
  split; [done|]. by destruct (qualifies instance_type its).
Qed.

(** ** Stripping and sanitizing *)

Lemma rstrip_idempotent s : PyStr.rstrip (PyStr.rstrip s) = PyStr.rstrip s.
Proof.
  induction s as [|c s IH]; [done|].
  change (PyStr.rstrip (String c s))
    with (match PyStr.rstrip s with
          | EmptyString =>
              if PyStr.isspace c then EmptyString else String c EmptyString
          | r => String c r
          end).
  destruct (PyStr.rstrip s) as [|c' r] eqn:E.
  - destruct (PyStr.isspace c) eqn:Ec; [done|]. simpl. by rewrite Ec.
  - change (PyStr.rstrip (String c (String c' r)))
      with (match PyStr.rstrip (String c' r) with
            | EmptyString =>
                if PyStr.isspace c then EmptyString else String c EmptyString
            | r0 => String c r0
            end).
    by rewrite IH.
Qed.

Lemma lstrip_cases s :
  PyStr.lstrip s = ""
  ∨ ∃ c r, PyStr.lstrip s = String c r ∧ PyStr.isspace c = false.
Proof.
  induction s as [|c s IH]; [by left|]. simpl.
  destruct (PyStr.isspace c) eqn:Ec; [exact IH|]. right. eauto.
Qed.

Lemma rstrip_keeps_head c r :
  PyStr.isspace c = false → ∃ r', PyStr.rstrip (String c r) = String c r'.
Proof.
  intros Hc. simpl. destruct (PyStr.rstrip r); [rewrite Hc|]; eauto.
Qed.

Lemma strip_idempotent s : PyStr.strip (PyStr.strip s) = PyStr.strip s.
Proof.
  unfold PyStr.strip.
  destruct (lstrip_cases s) as [->|(c & r & -> & Hc)]; [done|].
  destruct (rstrip_keeps_head c r Hc) as [r' E]. rewrite E.
  assert (PyStr.lstrip (String c r') = String c r') as ->
    by (simpl; by rewrite Hc).
  rewrite <- E. apply rstrip_idempotent.
Qed.

Lemma tag_body_length_sub_tags s :
  Re.tag_body_length s = None →
  Re.tag_body_length (Re.sub_tags_from 0 s) = None.
Proof.
  induction s as [|c s IH]; [done|]. simpl.
  destruct (Ascii.eqb c ">") eqn:Egt; [discriminate|].
  destruct (Ascii.eqb c Re.newline) eqn:Enl.
  - intros _. apply Ascii.eqb_eq in Enl as ->. reflexivity.
  - intros H. assert (Re.tag_body_length s = None) as Hs
      by (by destruct (Re.tag_body_length s)).
    rewrite Hs.
    destruct (Ascii.eqb c "<"); simpl; by rewrite Egt, Enl, (IH Hs).
Qed.

Lemma sub_tags_tagless s : ∀ skip, tagless (Re.sub_tags_from skip s).
Proof.
  induction s as [|c s IH]; intros skip; [done|]. simpl.
  destruct skip as [|k]; [|apply IH].
  destruct (Ascii.eqb c "<") eqn:Elt.
  - destruct (Re.tag_body_length s) as [n|] eqn:E; [apply IH|].
    split; [|apply IH]. intros _. by apply tag_body_length_sub_tags.
  - split; [|apply IH]. intros ->. discriminate.
Qed.

Lemma tagless_sub_tags s : tagless s → Re.sub_tags_from 0 s = s.
Proof.
  induction s as [|c s IH]; [done|]. intros [Hc Hs]. simpl.
  destruct (Ascii.eqb c "<") eqn:Elt.
  - apply Ascii.eqb_eq in Elt. rewrite (Hc Elt). by rewrite (IH Hs).
  - by rewrite (IH Hs).
Qed.

Lemma tagless_lstrip s : tagless s → tagless (PyStr.lstrip s).
Proof.
  induction s as [|c s IH]; [done|]. intros [Hc Hs]. simpl.
  destruct (PyStr.isspace c); [by apply IH | by split].
Qed.

Lemma tag_body_length_rstrip s :
  Re.tag_body_length s = None → Re.tag_body_length (PyStr.rstrip s) = None.
Proof.
  induction s as [|c s IH]; [done|]. simpl.
  destruct (Ascii.eqb c ">") eqn:Egt; [discriminate|].
  destruct (Ascii.eqb c Re.newline) eqn:Enl.
  - intros _. destruct (PyStr.rstrip s); [destruct (PyStr.isspace c)|];
      simpl; by rewrite ?Egt, ?Enl.
  - intros H. assert (Re.tag_body_length s = None) as Hs
      by (by destruct (Re.tag_body_length s)).
    specialize (IH Hs).
    destruct (PyStr.rstrip s); [destruct (PyStr.isspace c)|];
      simpl; rewrite ?Egt, ?Enl; [done..|].
    simpl in IH. by rewrite IH.
Qed.

Lemma tagless_rstrip s : tagless s → tagless (PyStr.rstrip s).
Proof.
  induction s as [|c s IH]; [done|]. intros [Hc Hs]. specialize (IH Hs).
  pose proof (λ H, tag_body_length_rstrip s (Hc H)) as Hc'. simpl.
  destruct (PyStr.rstrip s) as [|c' r]; [destruct (PyStr.isspace c)|];
    simpl; try done.
Qed.

Lemma sanitize_title_tagless t : tagless (sanitize_title t).
Proof.
  unfold sanitize_title, PyStr.strip, Re.sub_tags.
  apply tagless_rstrip, tagless_lstrip, sub_tags_tagless.
Qed.

(** X4: [sanitize_title] is idempotent: its result has no white space at
    either end and nothing left for the regular expression to remove, so
    sanitizing a sanitized title gives it back. *)
Theorem X4_sanitize_title_is_idempotent (t : string) :
  sanitize_title (sanitize_title t) = sanitize_title t
  ∧ PyStr.strip (sanitize_title t) = sanitize_title t
  ∧ Re.sub_tags (sanitize_title t) = sanitize_title t.
Proof.
  assert (Re.sub_tags (sanitize_title t) = sanitize_title t) as Hsub
    by apply tagless_sub_tags, sanitize_title_tagless.
  assert (PyStr.strip (sanitize_title t) = sanitize_title t) as Hstrip
    by apply strip_idempotent.
  split; [|done]. unfold sanitize_title at 1. by rewrite Hsub.
Qed.

(** ** Punctuation *)

Lemma endswith_append suffix s : PyText.endswith suffix (s +:+ suffix) = true.
Proof.
  induction s as [|c s IH].
  - destruct suffix; simpl; [done|]. by rewrite Ascii.eqb_refl, String.eqb_refl.
  - change (PyText.endswith suffix (String c (s +:+ suffix)) = true). simpl.
    rewrite IH. apply orb_true_r.
Qed.

Lemma verify_punctuation_punctuated s : punctuated (verify_punctuation s) = true.
Proof.
  unfold verify_punctuation. fold (punctuated s).
  destruct (punctuated s) eqn:E; simpl; [exact E|].
  unfold punctuated. by rewrite endswith_append.
Qed.

Lemma verify_punctuation_fixed s : punctuated s = true → verify_punctuation s = s.
Proof. unfold verify_punctuation. fold (punctuated s). by intros ->. Qed.

(** X5: [verify_punctuation] returns its argument or its argument with a
    full stop appended, the result always ends in a full stop, a closing
    parenthesis or a hyphen, and a second application changes nothing; the
    empty string becomes a full stop. *)
Theorem X5_verify_punctuation_is_idempotent (s : string) :
  verify_punctuation (verify_punctuation s) = verify_punctuation s
  ∧ (verify_punctuation s = s ∨ verify_punctuation s = s +:+ ".")
  ∧ punctuated (verify_punctuation s) = true
  ∧ (punctuated s = false → verify_punctuation s = s +:+ ".")
  ∧ verify_punctuation "" = ".".
Proof.
  split; [apply verify_punctuation_fixed, verify_punctuation_punctuated|].
  split; [|split; [apply verify_punctuation_punctuated|split; [|done]]].
  - unfold verify_punctuation. destruct (negb _); eauto.
  - unfold verify_punctuation. fold (punctuated s). by intros ->.
Qed.

(** X6: when [construct_agent_name] returns, the name ends in a full
    stop, a closing parenthesis or a hyphen, the agent was fetched and
    nothing else was sent or changed; for a linked agent without terms the
    name is the punctuated title of the agent. *)
Theorem X6_construct_agent_name_is_punctuated
  (la : linked_agent) (c c' : client) (s : string) :
  construct_agent_name la c = (Ok s, c') →
  punctuated s = true
  ∧ ∃ ref agent name,
      agent_ref la = Some ref ∧ records c !! ref = Some agent
      ∧ title agent = Some name ∧ c' = send (GET ref) c
      ∧ (agent_terms la = None ∨ agent_terms la = Some [] →
         s = verify_punctuation name).
Proof.
  unfold construct_agent_name, bind, lift, subscript, get_aspace_json.
  destruct (agent_ref la) as [ref|]; [|discriminate].
  destruct (records c !! ref) as [agent|] eqn:Eagent; [|discriminate].
  destruct (title agent) as [name|] eqn:Ename; [|discriminate].
  destruct (agent_terms la) as [[|t ts]|].
  - intros [= <- <-]. split; [apply verify_punctuation_punctuated|].
    exists ref, agent, name. done.
  - destruct (term_texts (t :: ts)) as [texts|]; [|discriminate].
    intros [= <- <-]. split; [apply verify_punctuation_punctuated|].
    exists ref, agent, name. repeat split; try done. by intros [|].
  - intros [= <- <-]. split; [apply verify_punctuation_punctuated|].
    exists ref, agent, name. done.
Qed.

Lemma X6_construct_agent_name_is_punctuated_witness :
  construct_agent_name Cases.correspondent Cases.agent_backend
  = (Ok "Smith, John -- Correspondence.",
     send (GET Cases.agent_uri) Cases.agent_backend)
  ∧ punctuated "Smith, John -- Correspondence." = true.
Proof.
  split; [reflexivity|].
  exact (proj1 (X6_construct_agent_name_is_punctuated Cases.correspondent
                  Cases.agent_backend _ _ eq_refl)).
Defined.

(** ** Extents *)

Lemma append_not_empty_l a b : a ≠ "" → a +:+ b ≠ "".
Proof. destruct a; [done|]. discriminate. Qed.

Lemma parse_extent_not_empty e s : parse_extent e = Ok s → s ≠ "".
Proof.
  unfold parse_extent, subscript.
  destruct (number e) as [n|]; [|discriminate].
  destruct (extent_type e) as [t|]; [|discriminate].
  assert (n +:+ " " +:+ t ≠ "") as Hne by (destruct n; discriminate).
  destruct (parenthetical_parts e); intros [= <-]; [done|].
  by apply append_not_empty_l.
Qed.

Lemma parse_extents_loop_ok l : ∀ acc r,
  parse_extents_loop l acc = Ok r →
  ∃ ss, Forall2 (λ e s, parse_extent e = Ok s) l ss ∧ r = acc ++ ss.
Proof.
  induction l as [|e l IH]; intros acc r; simpl.
  - intros [= <-]. exists []. by rewrite app_nil_r.
  - destruct (parse_extent e) as [s|] eqn:E; [|discriminate]. intros H.
    apply IH in H as (ss & Hss & ->). exists (s :: ss).
    split; [by constructor | by rewrite <- app_assoc].
Qed.

Lemma join_not_empty sep s ss : s ≠ "" → PyStr.join sep (s :: ss) ≠ "".
Proof.
  intros Hs. unfold PyStr.join. simpl. destruct ss; [done|].
  by apply append_not_empty_l.
Qed.

(** X7: when [parse_extents] returns, it returns the extents as the loop
    body formats them, one by one and in order, joined by "; "; the result
    is the empty string exactly when the record has no extents. *)
Theorem X7_parse_extents_joins_the_extents (j : extents_json) (s : string) :
  parse_extents j = Ok s →
  let l := match extents j with Some l => l | None => [] end in
  (∃ ss, Forall2 (λ e parsed, parse_extent e = Ok parsed) l ss
         ∧ s = match ss with [] => "" | _ => PyStr.join "; " ss end)
  ∧ (s = "" ↔ l = []).
Proof.
  intros H l. unfold parse_extents in H. fold l in H.
  destruct (parse_extents_loop l []) as [r|] eqn:E; [|discriminate].
  apply parse_extents_loop_ok in E as (ss & Hss & ->). simpl in H.
  assert (s = match ss with [] => "" | _ => PyStr.join "; " ss end) as Hs
    by (destruct ss; by injection H as <-).
  split; [eauto|]. rewrite Hs.
  destruct Hss as [|e p l' ss' Hp Hrest]; [done|].
  split; [|discriminate]. intros Hempty. exfalso.
  by apply (join_not_empty "; " p ss' (parse_extent_not_empty e p Hp)).
Qed.

Lemma X7_parse_extents_joins_the_extents_witness :
  parse_extents Cases.measured = Ok "3 boxes (10x12); 2 folders (in 1 box)"
  ∧ ("3 boxes (10x12); 2 folders (in 1 box)" = ""
     ↔ [Cases.boxes; Cases.folders] = []).
Proof.
  split; [reflexivity|].
  exact (proj2 (X7_parse_extents_joins_the_extents Cases.measured _ eq_refl)).
Defined.

(** X8: [parse_extents] raises a [KeyError] at the first extent without a
    [number] or an [extent_type], whatever the extents after it are, and
    returns the empty string without an error when the [extents] key is
    absent or empty. *)
Theorem X8_parse_extents_needs_number_and_type
  (before : list extent) (e : extent) (after : list extent) (ss : list string) :
  Forall2 (λ x parsed, parse_extent x = Ok parsed) before ss →
  (number e = None →
   parse_extents (ExtentsJson (Some (before ++ e :: after)))
   = Err (KeyError "number"))
  ∧ (number e ≠ None → extent_type e = None →
     parse_extents (ExtentsJson (Some (before ++ e :: after)))
     = Err (KeyError "extent_type"))
  ∧ parse_extents (ExtentsJson None) = Ok ""
  ∧ parse_extents (ExtentsJson (Some [])) = Ok "".
Proof.
  intros Hbefore.
  assert (∀ err, parse_extent e = Err err →
            ∀ acc, parse_extents_loop (before ++ e :: after) acc = Err err) as Hloop.
  { intros err He. induction Hbefore as [|x p l ps Hx _ IH]; intros acc; simpl.
    - by rewrite He.
    - rewrite Hx. apply IH. }
  split; [|split; [|done]].
  - intros Hn. unfold parse_extents. simpl.
    rewrite (Hloop (KeyError "number")); [done|].
    unfold parse_extent. by rewrite Hn.
  - intros Hn Ht. unfold parse_extents. simpl.
    rewrite (Hloop (KeyError "extent_type")); [done|].
    unfold parse_extent. destruct (number e); [|done]. by rewrite Ht.
Qed.

Lemma X8_parse_extents_needs_number_and_type_witness :
  parse_extents
    (ExtentsJson (Some ([Cases.boxes] ++ Extent None (Some "reels") None None None
                          :: [Cases.folders])))
  = Err (KeyError "number").
Proof.
  refine (proj1 (X8_parse_extents_needs_number_and_type
                   [Cases.boxes] (Extent None (Some "reels") None None None)
                   [Cases.folders] ["3 boxes (10x12)"] _) eq_refl).
  repeat constructor.
Defined.

(** ** Dates that do not show *)

Lemma trimmed_expressions_app t a b :
  Spec.trimmed_expressions t (a ++ b)
  = Spec.trimmed_expressions t a ++ Spec.trimmed_expressions t b.
Proof. unfold Spec.trimmed_expressions. by rewrite List.filter_app, map_app. Qed.

Lemma trimmed_expressions_skip t d l :
  date_type d ≠ t → Spec.trimmed_expressions t (d :: l) = Spec.trimmed_expressions t l.
Proof.
  intros Hne. unfold Spec.trimmed_expressions, Spec.of_type. simpl.
  apply String.eqb_neq in Hne. by rewrite Hne.
Qed.

Lemma trimmed_expressions_found t b l :
  b ∈ l → date_type b = t → ∃ x xs, Spec.trimmed_expressions t l = x :: xs.
Proof.
  intros Hin Ht. induction l as [|d l IH]; [by apply elem_of_nil in Hin|].
  unfold Spec.trimmed_expressions, Spec.of_type in *. simpl.
  destruct (String.eqb (date_type d) t) eqn:E; simpl; [eauto|].
  apply elem_of_cons in Hin as [->|Hin]; [|by apply IH].
  apply String.eqb_neq in E. done.
Qed.

(** X9: a date entry that is not inclusive does not show in
    [format_dates] when it is not a bulk entry either, or when a bulk entry
    comes before it: only the first bulk entry is surfaced, and entries of
    other types are passed over. *)
Theorem X9_format_dates_passes_over_later_bulk_and_other_types
  (j j' : aspace_json) (before : list date) (d : date) (after : list date) :
  get_dates j' = before ++ d :: after →
  get_dates j = before ++ after →
  date_type d ≠ "inclusive" →
  (date_type d ≠ "bulk" ∨ ∃ b, b ∈ before ∧ date_type b = "bulk") →
  format_dates j' = format_dates j.
Proof.
  intros Hj' Hj Hinc Hbulk. rewrite !format_dates_joins_all, Hj', Hj.
  unfold Spec.format_dates. rewrite !trimmed_expressions_app.
  rewrite (trimmed_expressions_skip "inclusive" d after Hinc).
  destruct Hbulk as [Hb|(b & Hin & Hb)].
  - by rewrite (trimmed_expressions_skip "bulk" d after Hb).
  - by destruct (trimmed_expressions_found "bulk" b before Hin Hb) as (x & xs & ->).
Qed.

Lemma X9_format_dates_passes_over_later_bulk_and_other_types_witness :
  format_dates (Cases.dated [Sample.inclusive_1900_1910; Sample.bulk_1905;
                             Cases.bulk_1907])
  = format_dates (Cases.dated [Sample.inclusive_1900_1910; Sample.bulk_1905])
  ∧ format_dates (Cases.dated [Cases.other_date; Sample.inclusive_1900_1910])
    = format_dates (Cases.dated [Sample.inclusive_1900_1910]).
Proof.
  split.
  - refine (X9_format_dates_passes_over_later_bulk_and_other_types
              (Cases.dated [Sample.inclusive_1900_1910; Sample.bulk_1905])
              (Cases.dated [Sample.inclusive_1900_1910; Sample.bulk_1905;
                            Cases.bulk_1907])
              [Sample.inclusive_1900_1910; Sample.bulk_1905] Cases.bulk_1907 []
              eq_refl eq_refl _ _); [discriminate|].
    right. exists Sample.bulk_1905. split; [|reflexivity].
    apply list_elem_of_In. simpl. tauto.
  - refine (X9_format_dates_passes_over_later_bulk_and_other_types
              (Cases.dated [Sample.inclusive_1900_1910])
              (Cases.dated [Cases.other_date; Sample.inclusive_1900_1910])
              [] Cases.other_date [Sample.inclusive_1900_1910]
              eq_refl eq_refl _ _); [discriminate|].
    left. discriminate.
Defined.

(** ** Notes by type *)

Lemma matching_notes_first t before n after :
  Forall (λ m, note_type m ≠ t) before → note_type n = t →
  matching_notes t (before ++ n :: after) = n :: matching_notes t after.
Proof.
  intros Hbefore Hn. unfold matching_notes.
  induction Hbefore as [|m l Hm _ IH]; simpl.
  - rewrite Hn. by rewrite String.eqb_refl.
  - apply String.eqb_neq in Hm. by rewrite Hm.
Qed.

Lemma matching_notes_none t l :
  Forall (λ m, note_type m ≠ t) l → matching_notes t l = [].
Proof.
  unfold matching_notes. induction 1 as [|m l Hm _ IH]; simpl; [done|].
  apply String.eqb_neq in Hm. by rewrite Hm.
Qed.

(** X10: [find_note_by_type] is [format_note] of the first note of the
    type, whatever comes after it, its errors included, and the empty
    string when no note has the type; [find_notes_by_type] returns the
    notes of the type in their order and never an empty list: without a
    note of the type it returns the empty string. *)
Theorem X10_find_note_by_type_formats_the_first_match
  (j : aspace_json) (t : string) :
  (∀ before n after,
     notes j = Some (before ++ n :: after) →
     Forall (λ m, note_type m ≠ t) before → note_type n = t →
     find_note_by_type j t = format_note n
     ∧ find_notes_by_type j t = Ok (Notes (n :: matching_notes t after)))
  ∧ (∀ l, notes j = Some l → Forall (λ m, note_type m ≠ t) l →
       find_note_by_type j t = Ok "" ∧ find_notes_by_type j t = Ok NoNotes)
  ∧ find_notes_by_type j t ≠ Ok (Notes [])
  ∧ (notes j = None →
     find_note_by_type j t = Err (KeyError "notes")
     ∧ find_notes_by_type j t = Err (KeyError "notes")).
Proof.
  unfold find_note_by_type, find_notes_by_type, subscript.
  split; [|split; [|split]].
  - intros before n after -> Hbefore Hn.
    by rewrite (matching_notes_first t before n after Hbefore Hn).
  - intros l -> Hl. by rewrite (matching_notes_none t l Hl).
  - destruct (notes j) as [l|]; [|discriminate].
    destruct (matching_notes t l); discriminate.
  - by intros ->.
Qed.

Lemma X10_find_note_by_type_formats_the_first_match_witness :
  find_note_by_type Cases.noted "accessrestrict" = Ok Sample.until_2020
  ∧ find_notes_by_type Cases.noted "accessrestrict"
    = Ok (Notes [Sample.restriction true Sample.until_2020;
                 Sample.restriction true Sample.until_2030])
  ∧ find_note_by_type Cases.noted "odd" = Ok ""
  ∧ find_notes_by_type Cases.noted "odd" = Ok NoNotes.
Proof.
  pose proof (proj1 (X10_find_note_by_type_formats_the_first_match
                       Cases.noted "accessrestrict")
                [Sample.scope_note] (Sample.restriction true Sample.until_2020)
                [Sample.restriction true Sample.until_2030] eq_refl) as H1.
  pose proof (proj1 (proj2 (X10_find_note_by_type_formats_the_first_match
                              Cases.noted "odd")) _ eq_refl) as H2.
  split; [|split; [|split]].
  - apply H1; [repeat constructor; discriminate | reflexivity].
  - apply H1; [repeat constructor; discriminate | reflexivity].
  - apply H2. repeat constructor; discriminate.
  - apply H2. repeat constructor; discriminate.
Defined.

(** ** The most proximate date *)

Lemma get_most_proximate_date_nearest recs j n j' :
  nearest_dated recs j n j' →
  ∀ fuel c, records c = recs → n ≤ fuel →
    ∃ c', get_most_proximate_date fuel j c = (Ok (Returned (format_dates j')), c')
          ∧ records c' = recs ∧ length (trace c') = length (trace c) + n.
Proof.
  induction 1 as [j Hd | j Hd Hp | j p pj n j' Hd Hp Hpj _ IH];
    intros fuel c Hrecs Hle.
  - exists c. destruct fuel; simpl; rewrite Hd; (split; [done|]); split; try done; lia.
  - exists c. destruct fuel; simpl; rewrite Hd, Hp; (split; [done|]);
      split; try done; lia.
  - destruct fuel as [|fuel]; [lia|]. simpl. rewrite Hd, Hp.
    unfold bind, get_aspace_json. rewrite Hrecs, Hpj.
    destruct (IH fuel (send (GET p) c) Hrecs) as (c' & -> & Hr & Hlen); [lia|].
    exists c'. split; [done|]. split; [done|].
    rewrite Hlen. simpl. rewrite length_app. simpl. lia.
Qed.

(** X11: [get_most_proximate_date] formats the dates of the nearest
    record, going up from the record itself, that has dates, or of the
    root when none has (the empty string then); it fetches one parent per
    step and changes no record, and it stops at a dated record whatever
    lies above it. *)
Theorem X11_most_proximate_date_is_that_of_the_nearest_dated_record
  (j j' : aspace_json) (n fuel : nat) (c : client) :
  nearest_dated (records c) j n j' → n ≤ fuel →
  ∃ c', get_most_proximate_date fuel j c = (Ok (Returned (format_dates j')), c')
        ∧ records c' = records c
        ∧ length (trace c') = length (trace c) + n.
Proof.
  intros Hnear Hle.
  by apply (get_most_proximate_date_nearest (records c) j n j').
Qed.

Lemma X11_most_proximate_date_is_that_of_the_nearest_dated_record_witness :
  fst (get_most_proximate_date 5 Cases.undated_child Sample.chain_backend)
  = Ok (Returned "1900-1910")
  ∧ ∃ c', get_most_proximate_date 5 Cases.undated_child Sample.chain_backend
          = (Ok (Returned (format_dates Sample.child_record)), c')
          ∧ records c' = records Sample.chain_backend
          ∧ length (trace c') = length (trace Sample.chain_backend) + 1.
Proof.
  split; [reflexivity|].
  refine (X11_most_proximate_date_is_that_of_the_nearest_dated_record
            Cases.undated_child Sample.child_record 1 5 Sample.chain_backend _ _);
    [|lia].
  eapply nearest_up; [reflexivity | reflexivity | reflexivity |].
  by apply nearest_here.
Defined.

(** X12: on a parent chain that runs into a cycle of records without
    dates [get_most_proximate_date] is still in its loop after any number
    of iterations. *)
Theorem X12_most_proximate_date_loops_on_an_undated_cycle
  (inside : aspace_json → Prop) (j : aspace_json) (c : client) (fuel : nat) :
  chain_cyclic (records c) inside → (∀ x, inside x → has_dates x = false) →
  inside j →
  fst (get_most_proximate_date fuel j c) = Ok StillLooping.
Proof.
  intros Hcyc Hdates. revert j c Hcyc.
  induction fuel as [|fuel IH]; intros j c Hcyc Hin;
    destruct (Hcyc j Hin) as (p & pj & Hp & Hpj & Hin'); simpl;
    rewrite (Hdates j Hin), Hp; [done|].
  unfold bind, get_aspace_json. rewrite Hpj. by apply IH.
Qed.

Lemma X12_most_proximate_date_loops_on_an_undated_cycle_witness :
  fst (get_most_proximate_date 9 Sample.own_parent Sample.cyclic_backend)
  = Ok StillLooping.
Proof.
  refine (X12_most_proximate_date_loops_on_an_undated_cycle
            (λ x, x = Sample.own_parent) Sample.own_parent Sample.cyclic_backend 9
            own_parent_cyclic _ eq_refl).
  by intros x ->.
Defined.

(** ** The hierarchy of a record *)

Lemma make_display_string_own j c :
  make_display_string j false c = (Ok (own_display_string j), c).
Proof.
  unfold make_display_string, own_display_string.
  by destruct (get_title j), (has_dates j).
Qed.

Lemma build_hierarchy_loop_ancestors recs j l :
  ancestors recs j l →
  ∀ fuel titles c, records c = recs → length l ≤ fuel →
    build_hierarchy_loop fuel j titles c
    = (Ok (Returned (titles ++ map (λ p, own_display_string p.2) l)),
       send_all (map (λ p, GET p.1) l) c).
Proof.
  induction 1 as [j Hroot | j p pj l Hp Hpj _ IH]; intros fuel titles c Hrecs Hle.
  - destruct fuel; simpl; rewrite Hroot; by rewrite app_nil_r.
  - destruct fuel as [|fuel]; [simpl in Hle; lia|]. simpl. rewrite Hp.
    unfold bind at 1, get_aspace_json. rewrite Hrecs, Hpj.
    unfold bind. rewrite make_display_string_own.
    rewrite (IH fuel _ (send (GET p) c) Hrecs); [|simpl in Hle; lia].
    by rewrite <- app_assoc.
Qed.

Lemma all_strings_some ss : all_strings (map Some ss) = Ok ss.
Proof. induction ss as [|s ss IH]; simpl; [done|]. by rewrite IH. Qed.

Lemma all_strings_none l :
  None ∈ l →
  all_strings l = Err (TypeError "sequence item: expected str instance, NoneType found").
Proof.
  induction l as [|o l IH]; [by intros ?%elem_of_nil|].
  intros Hin. simpl. destruct o as [s|]; [|done].
  apply elem_of_cons in Hin as [|Hin]; [done|]. by rewrite (IH Hin).
Qed.

Lemma build_hierarchy_ancestors j l fuel delimiter c :
  ancestors (records c) j l → length l ≤ fuel →
  build_hierarchy fuel j delimiter c
  = (match rev (map (λ p, own_display_string p.2) l) with
     | [] => Ok (Returned "")
     | titles =>
         match all_strings titles with
         | Ok ss => Ok (Returned (PyStr.join (" " +:+ delimiter +:+ " ") ss))
         | Err e => Err e
         end
     end,
     send_all (map (λ p, GET p.1) l) c).
Proof.
  intros Hanc Hle. unfold build_hierarchy, bind.
  rewrite (build_hierarchy_loop_ancestors _ j l Hanc fuel [] c eq_refl Hle).
  simpl app. destruct (rev _) as [|o titles]; [done|].
  unfold lift. by destruct (all_strings (o :: titles)).
Qed.

(** X13: for a record whose parent chain ends, [build_hierarchy] fetches
    each ancestor once, nearest first, changes no record, and returns the
    display strings of the ancestors, the oldest first, joined by the
    delimiter between spaces; for a record without a parent that is the
    empty string and nothing is fetched. *)
Theorem X13_build_hierarchy_joins_the_ancestors_oldest_first
  (j : aspace_json) (l : list (string * aspace_json)) (names : list string)
  (fuel : nat) (delimiter : string) (c : client) :
  ancestors (records c) j l → length l ≤ fuel →
  map (λ p, own_display_string p.2) l = map Some names →
  build_hierarchy fuel j delimiter c
  = (Ok (Returned (match names with
                   | [] => ""
                   | _ => PyStr.join (" " +:+ delimiter +:+ " ") (rev names)
                   end)),
     send_all (map (λ p, GET p.1) l) c).
Proof.
  intros Hanc Hle Hnames.
  rewrite (build_hierarchy_ancestors j l fuel delimiter c Hanc Hle), Hnames.
  rewrite <- map_rev. destruct names as [|n names]; [done|].
  destruct (rev (n :: names)) as [|x xs] eqn:E.
  - apply (f_equal (@length _)) in E. rewrite length_rev in E. done.
  - simpl. by rewrite all_strings_some.
Qed.

Lemma X13_build_hierarchy_joins_the_ancestors_oldest_first_witness :
  build_hierarchy 5 Sample.child_record ">" Sample.chain_backend
  = (Ok (Returned "Correspondence > Outgoing, 1900-1910 (bulk 1905)"),
     send_all [GET (Sample.ao "21"); GET (Sample.ao "20")] Sample.chain_backend).
Proof.
  refine (X13_build_hierarchy_joins_the_ancestors_oldest_first
            Sample.child_record
            [(Sample.ao "21", Sample.parent_record); (Sample.ao "20", Sample.grandparent)]
            ["Outgoing, 1900-1910 (bulk 1905)"; "Correspondence"]
            5 ">" Sample.chain_backend _ _ eq_refl); [|simpl; lia].
  eapply ancestors_parent; [reflexivity | reflexivity |].
  eapply ancestors_parent; [reflexivity | reflexivity |].
  by apply ancestors_root.
Defined.

(** X14: when an ancestor has neither a title nor dates, its display
    string is [None] and [build_hierarchy], after fetching the whole
    chain, raises a [TypeError] at the join. *)
Theorem X14_build_hierarchy_raises_on_an_ancestor_without_title_and_dates
  (j : aspace_json) (l : list (string * aspace_json)) (p : string * aspace_json)
  (fuel : nat) (delimiter : string) (c : client) :
  ancestors (records c) j l → length l ≤ fuel →
  p ∈ l → get_title p.2 = None → has_dates p.2 = false →
  build_hierarchy fuel j delimiter c
  = (Err (TypeError "sequence item: expected str instance, NoneType found"),
     send_all (map (λ p, GET p.1) l) c).
Proof.
  intros Hanc Hle Hin Ht Hd.
  rewrite (build_hierarchy_ancestors j l fuel delimiter c Hanc Hle).
  assert (None ∈ rev (map (λ p, own_display_string p.2) l)) as Hnone.
  { apply list_elem_of_In, (proj1 (in_rev _ _)), in_map_iff. exists p.
    split; [|by apply list_elem_of_In].
    unfold own_display_string. by rewrite Ht, Hd. }
  destruct (rev _) as [|o titles]; [by apply elem_of_nil in Hnone|].
  by rewrite (all_strings_none _ Hnone).
Qed.

Lemma X14_build_hierarchy_raises_on_an_ancestor_without_title_and_dates_witness :
  build_hierarchy 3 Cases.orphan_child ">" Cases.untitled_backend
  = (Err (TypeError "sequence item: expected str instance, NoneType found"),
     send_all [GET (Sample.ao "30")] Cases.untitled_backend).
Proof.
  refine (X14_build_hierarchy_raises_on_an_ancestor_without_title_and_dates
            Cases.orphan_child [(Sample.ao "30", Cases.untitled_parent)]
            (Sample.ao "30", Cases.untitled_parent) 3 ">" Cases.untitled_backend
            _ _ _ eq_refl eq_refl); [|simpl; lia|by left].
  eapply ancestors_parent; [reflexivity | reflexivity |].
  by apply ancestors_root.
Defined.

(** ** Merging containers: the edges *)

(** X15: when no archival object refers to the source, the merge deletes
    the source container and nothing else; the target is never fetched, so
    it need not exist.  When the source does not exist either, the merge
    raises the [CommunicationError] of the delete. *)
Theorem X15_merge_without_referencing_objects_deletes_the_source
  (source_id target_id : string) (c : client) :
  container_metadata c !! source_id = Some [] →
  let source_uri := top_container_uri c source_id in
  let c' := send (DELETE source_uri) (send (GET_METADATA source_id) c) in
  (is_Some (records c !! source_uri) →
   merge_top_containers source_id target_id c
   = (Ok tt, set_records (delete source_uri) c'))
  ∧ (records c !! source_uri = None →
     merge_top_containers source_id target_id c
     = (Err (CommunicationError not_found), c')).
Proof.
  intros Hmeta. cbv zeta.
  unfold merge_top_containers, bind at 1 3, get_metadata_for_container.
  rewrite Hmeta. simpl for_each. unfold bind, ret, delete_aspace_object.
  change (records (send (GET_METADATA source_id) c)) with (records c).
  change (top_container_uri (send (GET_METADATA source_id) c) source_id)
    with (top_container_uri c source_id).
  split; [intros [j Hj] | intros Hj]; by rewrite Hj.
Qed.

Lemma X15_merge_without_referencing_objects_deletes_the_source_witness :
  merge_top_containers "1" "404" Cases.empty_merge_backend
  = (Ok tt,
     set_records (delete (Sample.top "1"))
       (send (DELETE (Sample.top "1"))
             (send (GET_METADATA "1") Cases.empty_merge_backend))).
Proof.
  refine (proj1 (X15_merge_without_referencing_objects_deletes_the_source
                   "1" "404" Cases.empty_merge_backend eq_refl) _).
  by eexists.
Defined.

Lemma repoint_instances_without_container source_uri target_uri l i :
  i ∈ l → top_container_ref i = None →
  repoint_instances source_uri target_uri l = Err (KeyError "sub_container").
Proof.
  intros Hin Hi. induction l as [|x l IH]; [by apply elem_of_nil in Hin|].
  simpl. destruct (top_container_ref x) as [r|] eqn:Ex; [|done].
  apply elem_of_cons in Hin as [->|Hin]; [congruence|].
  by rewrite (IH Hin).
Qed.

(** X16: the merge reads every instance of a referencing object at its
    sub-container; an object that also has an instance without one, such
    as the digital-object instances [make_digital_object_instance] makes,
    stops the merge with a [KeyError] right after it was fetched: nothing
    is written or deleted. *)
Theorem X16_merge_raises_on_an_instance_without_sub_container
  (source_id target_id u : string) (us : list string) (c : client)
  (j : aspace_json) (l : list instance) (i : instance) :
  container_metadata c !! source_id = Some (u :: us) →
  records c !! u = Some j → instances j = Some l →
  i ∈ l → top_container_ref i = None →
  merge_top_containers source_id target_id c
  = (Err (KeyError "sub_container"),
     send (GET u) (send (GET_METADATA source_id) c)).
Proof.
  intros Hmeta Hj Hl Hin Hi.
  unfold merge_top_containers, bind at 1, get_metadata_for_container.
  rewrite Hmeta. simpl for_each. unfold bind at 1. unfold bind at 1.
  unfold merge_one, bind, get_aspace_json, lift, subscript. simpl records.
  rewrite Hj, Hl.
  by rewrite (repoint_instances_without_container _ _ l i Hin Hi).
Qed.

Lemma X16_merge_raises_on_an_instance_without_sub_container_witness :
  merge_top_containers "1" "2" Cases.digital_merge_backend
  = (Err (KeyError "sub_container"),
     send (GET (Sample.ao "1")) (send (GET_METADATA "1") Cases.digital_merge_backend)).
Proof.
  refine (X16_merge_raises_on_an_instance_without_sub_container
            "1" "2" (Sample.ao "1") [] Cases.digital_merge_backend _ _
            (make_digital_object_instance (Sample.dobj "3"))
            eq_refl eq_refl eq_refl _ eq_refl).
  apply list_elem_of_In. simpl. tauto.
Defined.

(** ** The posting methods *)

(** X17: every method that posts through [post_aspace_json] raises
    before a request is sent and leaves the client as it was:
    [post_aspace_json] itself, [update_top_container] and
    [post_digital_object] raise the [TypeError] of the call of [_post];
    [update_aspace_object] raises a [KeyError] for a record without [uri],
    its [ArchivesSpaceError] for a uri other than the record's, and the
    [TypeError] otherwise. *)
Theorem X17_posting_through_post_aspace_json_always_raises
  (aspace_uri container_id : string) (json : aspace_json) (c : client) :
  let unexpected := TypeError "_post() got an unexpected keyword argument" in
  post_aspace_json aspace_uri json c = (Err unexpected, c)
  ∧ update_top_container container_id json c = (Err unexpected, c)
  ∧ post_digital_object json c = (Err unexpected, c)
  ∧ update_aspace_object aspace_uri json c
    = (Err (match uri json with
            | None => KeyError "uri"
            | Some u =>
                if String.eqb aspace_uri u then unexpected
                else ArchivesSpaceError "Unable to update object"
            end), c).
Proof.
  repeat split.
  unfold update_aspace_object, bind, lift, subscript.
  destruct (uri json) as [u|]; [|done].
  by destruct (String.eqb aspace_uri u).
Qed.

(** ** Instances and their uris *)

Lemma instance_uris_of_digital_objects ds :
  instance_uris_of (map make_digital_object_instance ds) = Ok ds.
Proof. induction ds as [|d ds IH]; simpl; [done|]. by rewrite IH. Qed.

Lemma filter_digital_objects ds :
  List.filter (λ i, String.eqb (instance_type i) "digital_object")
              (map make_digital_object_instance ds)
  = map make_digital_object_instance ds.
Proof. induction ds as [|d ds IH]; simpl; [done|]. by rewrite IH. Qed.

(** X18: the instances [make_digital_object_instance] makes are read back
    by [find_instance_uris]: for a record whose instances were made from a
    list of digital-object uris it returns that list, in order, without a
    filter and with the filter ["digital_object"], after the one fetch of
    the record. *)
Theorem X18_find_instance_uris_reads_back_digital_object_instances
  (u : string) (j : aspace_json) (ds : list string) (c : client) :
  records c !! u = Some j →
  instances j = Some (map make_digital_object_instance ds) →
  find_instance_uris u None c = (Ok ds, send (GET u) c)
  ∧ find_instance_uris u (Some "digital_object") c = (Ok ds, send (GET u) c).
Proof.
  intros Hj Hl.
  unfold find_instance_uris, bind, get_aspace_json, lift, subscript.
  rewrite Hj, Hl. simpl PyStr.get_truthy.
  cbv iota beta.
  rewrite filter_digital_objects. by rewrite instance_uris_of_digital_objects.
Qed.

Lemma X18_find_instance_uris_reads_back_digital_object_instances_witness :
  find_instance_uris (Sample.ao "1") None Cases.digitized_backend
  = (Ok [Sample.dobj "3"; Sample.dobj "4"],
     send (GET (Sample.ao "1")) Cases.digitized_backend).
Proof.
  exact (proj1 (X18_find_instance_uris_reads_back_digital_object_instances
                  (Sample.ao "1") _ [Sample.dobj "3"; Sample.dobj "4"]
                  Cases.digitized_backend eq_refl eq_refl)).
Defined.

Lemma instance_uris_of_filter p l us :
  instance_uris_of l = Ok us →
  ∃ us', instance_uris_of (List.filter p l) = Ok us' ∧ us' `sublist_of` us.
Proof.
  revert us. induction l as [|i l IH]; intros us; simpl.
  - intros [= <-]. by exists [].
  - destruct (instance_uri i) as [u|] eqn:Ei; [|discriminate].
    destruct (instance_uris_of l) as [us0|]; [|discriminate].
    intros [= <-]. destruct (IH us0 eq_refl) as (us' & Hus' & Hsub).
    destruct (p i); simpl.
    + rewrite Ei, Hus'. exists (u :: us'). split; [done | by constructor].
    + exists us'. split; [done | by constructor].
Qed.

(** X19: when [find_instance_uris] returns the uris of all the instances
    of a record, it also returns with any filter, and what it returns then
    is a sublist of them. *)
Theorem X19_filtered_instance_uris_are_a_sublist
  (u : string) (filter : option string) (c c' : client) (us : list string) :
  find_instance_uris u None c = (Ok us, c') →
  ∃ us', find_instance_uris u filter c = (Ok us', c') ∧ us' `sublist_of` us.
Proof.
  unfold find_instance_uris, bind, get_aspace_json, lift, subscript.
  destruct (records c !! u) as [j|]; [|discriminate].
  destruct (instances j) as [l|]; [|discriminate]. simpl PyStr.get_truthy.
  destruct (instance_uris_of l) as [us0|] eqn:E; [|discriminate].
  intros [= <- <-].
  destruct (PyStr.get_truthy filter) as [t|].
  - destruct (instance_uris_of_filter
                (λ i, String.eqb (instance_type i) t) l us0 E) as (us' & -> & Hsub).
    eauto.
  - rewrite E. eauto.
Qed.

Lemma X19_filtered_instance_uris_are_a_sublist_witness :
  ∃ us', find_instance_uris (Sample.ao "11") (Some "digital_object")
           Sample.cleanup_backend
         = (Ok us', send (GET (Sample.ao "11")) Sample.cleanup_backend)
         ∧ us' `sublist_of` [Sample.dobj "3"; Sample.top "1"; Sample.top "2"].
Proof.
  exact (X19_filtered_instance_uris_are_a_sublist (Sample.ao "11")
           (Some "digital_object") Sample.cleanup_backend _ _ eq_refl).
Defined.

(** ** What the bulk operations never send *)

Lemma delete_single_resource_instances_trace u c :
  ∃ tr, trace (snd (delete_single_resource_instances u c)) = trace c ++ tr
        ∧ posted_uris tr = [].
Proof.
  unfold delete_single_resource_instances.
  assert (∀ key (field : aspace_json → option (list string)),
            ∃ tr, trace (snd ((let* x := get_aspace_json u in
                               let* l := lift (subscript key (field x)) in
                               if length l =? 1 then delete_aspace_object u
                               else ret tt) c)) = trace c ++ tr
                  ∧ posted_uris tr = []) as Hbranch.
  { intros key field. unfold bind, get_aspace_json, lift, subscript.
    destruct (records c !! u) as [j|] eqn:Ej; [|by exists [GET u]].
    destruct (field j) as [l|]; [|by exists [GET u]].
    destruct (length l =? 1); [|by exists [GET u]].
    unfold delete_aspace_object. simpl. rewrite Ej. simpl.
    exists [GET u; DELETE u]. by rewrite <- app_assoc. }
  destruct (PyStr.contains "digital_objects" u); [apply Hbranch|].
  destruct (PyStr.contains "top_containers" u); [apply Hbranch|].
  exists []. by rewrite app_nil_r.
Qed.

Lemma for_each_delete_trace l : ∀ c,
  ∃ tr, trace (snd (for_each l delete_single_resource_instances c)) = trace c ++ tr
        ∧ posted_uris tr = [].
Proof.
  induction l as [|u l IH]; intros c; simpl.
  - exists []. by rewrite app_nil_r.
  - unfold bind.
    destruct (delete_single_resource_instances_trace u c) as (tr1 & Htr1 & Hp1).
    destruct (delete_single_resource_instances u c) as [[[]|e] c1]; simpl in Htr1.
    + destruct (IH c1) as (tr2 & Htr2 & Hp2). exists (tr1 ++ tr2).
      by rewrite Htr2, Htr1, <- app_assoc, posted_uris_app, Hp1, Hp2.
    + by exists tr1.
Qed.

Lemma collect_instance_uris_trace l : ∀ acc c,
  ∃ tr, trace (snd (collect_instance_uris l acc c)) = trace c ++ tr
        ∧ posted_uris tr = [].
Proof.
  induction l as [|u l IH]; intros acc c; simpl.
  - exists []. by rewrite app_nil_r.
  - unfold bind. pose proof (find_instance_uris_state u None c) as Hs.
    destruct (find_instance_uris u None c) as [[us|e] c1]; simpl in Hs; subst c1.
    + destruct (IH (acc ++ us) (send (GET u) c)) as (tr & Htr & Hp).
      exists (GET u :: tr). simpl in Htr. by rewrite Htr, <- app_assoc.
    + by exists [GET u].
Qed.

(** X20: the cleanup only reads and deletes: whatever the order of the
    set and however it ends, nothing is posted. *)
Theorem X20_cleanup_never_posts
  (set_order : list string → list string) (resource_number : string) (c : client) :
  ∃ tr, trace (snd (remove_resource_associations set_order resource_number c))
        = trace c ++ tr
        ∧ posted_uris tr = [].
Proof.
  unfold remove_resource_associations, bind at 1, get_resource_tree_children.
  destruct (trees c !! resource_number) as [tree|];
    [|by exists [GET_TREE resource_number]].
  unfold bind at 1, find_children_with_instances_default. unfold bind.
  match goal with
  | |- context [collect_instance_uris ?l ?acc ?c0] =>
      destruct (collect_instance_uris_trace l acc c0) as (tr1 & Htr1 & Hp1);
      destruct (collect_instance_uris l acc c0) as [[us|e] c1]
  end; simpl in Htr1.
  - destruct (for_each_delete_trace (set_order us) c1) as (tr2 & Htr2 & Hp2).
    exists (GET_TREE resource_number :: tr1 ++ tr2).
    rewrite Htr2, Htr1, <- !app_assoc. split; [done|].
    change (posted_uris (tr1 ++ tr2) = []). by rewrite posted_uris_app, Hp1, Hp2.
  - exists (GET_TREE resource_number :: tr1). simpl.
    rewrite Htr1, <- app_assoc. done.
Qed.

Lemma sweep_archival_object_trace test u c :
  ∃ tr, trace (snd (sweep_archival_object test u c)) = trace c ++ tr
        ∧ deleted_uris tr = [] ∧ ∀ v, v ∈ posted_uris tr → v = u.
Proof.
  destruct (sweep_archival_object_run test u c)
    as [[e ->]|(j & l & _ & _ & es & c' & H)].
  - exists [GET u]. split; [done|]. split; [done|]. by intros v ?%elem_of_nil.
  - rewrite H. apply sweep_archival_object_ok in H as (j' & l' & _ & _ & _ & ->).
    destruct (List.filter (Spec.unpublishes test) l'); simpl.
    + exists [GET u]. split; [done|]. split; [done|]. by intros v ?%elem_of_nil.
    + exists [GET u; POST u]. rewrite <- app_assoc. split; [done|]. split; [done|].
      by intros v ->%list_elem_of_singleton.
Qed.

Lemma sweep_trace test uris : ∀ acc c,
  ∃ tr, trace (snd (sweep test uris acc c)) = trace c ++ tr
        ∧ deleted_uris tr = [] ∧ ∀ v, v ∈ posted_uris tr → v ∈ uris.
Proof.
  induction uris as [|u uris IH]; intros acc c; simpl.
  - exists []. rewrite app_nil_r. split; [done|]. split; [done|].
    by intros v ?%elem_of_nil.
  - unfold bind.
    destruct (sweep_archival_object_trace test u c) as (tr1 & Htr1 & Hd1 & Hp1).
    destruct (sweep_archival_object test u c) as [[es|e] c1]; simpl in Htr1.
    + destruct (IH (acc ++ es) c1) as (tr2 & Htr2 & Hd2 & Hp2).
      exists (tr1 ++ tr2). rewrite Htr2, Htr1, <- app_assoc.
      split; [done|]. rewrite deleted_uris_app, Hd1, Hd2. split; [done|].
      intros v. rewrite posted_uris_app.
      intros [->%Hp1|Hv%Hp2]%elem_of_app; [by left | by right].
    + exists tr1. split; [done|]. split; [done|].
      intros v ->%Hp1. by left.
Qed.

Lemma records_step_same_uris test recs recs' :
  records_step test recs recs' → ∀ u, recs' !! u = None ↔ recs !! u = None.
Proof.
  intros H u. specialize (H u). by destruct H.
Qed.

(** X21: the sweeps never delete: whatever the resource, the text or the
    day, and however the sweep ends, no DELETE is sent and the backend
    holds a record at exactly the uris it held one at before. *)
Theorem X21_sweeps_never_delete
  (xpath_date_normals : string → result (list (option string)))
  (today resource_number : string) (restriction_text : option string) (c : client) :
  let expiry := snd (unpublish_expired_restrictions_for_resource
                       xpath_date_normals today resource_number c) in
  let by_text := snd (unpublish_restrictions_by_text resource_number
                        restriction_text c) in
  (∀ u, records expiry !! u = None ↔ records c !! u = None)
  ∧ (∃ tr, trace expiry = trace c ++ tr ∧ deleted_uris tr = [])
  ∧ (∀ u, records by_text !! u = None ↔ records c !! u = None)
  ∧ (∃ tr, trace by_text = trace c ++ tr ∧ deleted_uris tr = []).
Proof.
  assert (∀ test, ∃ tr,
            trace (snd ((let* uris := get_resource_archival_object_uris
                                        resource_number in
                         sweep test uris []) c)) = trace c ++ tr
            ∧ deleted_uris tr = []) as Htrace.
  { intros test. unfold bind.
    pose proof (get_resource_archival_object_uris_run resource_number c) as Hrun.
    destruct (trees c !! resource_number) as [tree|]; rewrite Hrun;
      [|by exists [GET_TREE resource_number]].
    match goal with
    | |- context [sweep ?t ?us ?acc ?c0] =>
        destruct (sweep_trace t us acc c0) as (tr & Htr & Hd & _)
    end.
    exists (GET_TREE resource_number :: tr). simpl in Htr.
    by rewrite Htr, <- app_assoc. }
  split; [|split; [|split]].
  - eapply records_step_same_uris, expiry_sweep_records.
  - apply Htrace.
  - eapply records_step_same_uris, text_sweep_records.
  - unfold unpublish_restrictions_by_text.
    destruct (PyStr.get_truthy restriction_text) as [text|];
      [|exists []; by rewrite app_nil_r].
    destruct (Htrace (text_matches text)) as (tr & Htr & Hd).
    exists tr. split; [|done]. rewrite <- Htr. unfold bind.
    destruct (get_resource_archival_object_uris resource_number c) as [[us|e] c0];
      [|done].
    by destruct (sweep (text_matches text) us [] c0) as [[l|e] c1].
Qed.

(** ** What the sweeps log *)

Lemma sweep_log test uris : ∀ acc c log c',
  sweep test uris acc c = (Ok log, c') →
  ∃ lg, log = acc ++ lg
        ∧ Forall (λ e, log_uri e ∈ uris ∧ test (log_restriction e) = Ok true) lg.
Proof.
  induction uris as [|u uris IH]; intros acc c log c'; simpl.
  - intros [= <- <-]. exists []. by rewrite app_nil_r.
  - intros H. apply bind_inv_ok in H as (es & c1 & H1 & H2).
    apply sweep_archival_object_ok in H1 as (j & l & _ & _ & -> & _).
    apply IH in H2 as (lg & -> & Hlg).
    exists (map (Spec.entry u j) (List.filter (Spec.unpublishes test) l) ++ lg).
    split; [by rewrite app_assoc|]. apply Forall_app. split.
    + apply Forall_forall. intros e (n & -> & Hn)%list_elem_of_fmap.
      apply list_elem_of_In, List.filter_In in Hn as [_ Hn].
      apply unpublishes_inv in Hn as (_ & text & Hf & Ht).
      unfold Spec.entry. simpl. rewrite Hf. split; [by left | done].
    + eapply Forall_impl; [exact Hlg|]. intros e [He Ht]. split; [by right | done].
Qed.

(** X22: every entry of the log a text sweep returns carries the text
    that was asked for as its restriction, and the uri of an archival
    object of the resource's tree (or one the default list held before). *)
Theorem X22_text_sweep_logs_only_the_text
  (resource_number text : string) (c c' : client) (log : list log_entry) :
  unpublish_restrictions_by_text resource_number (Some text) c
  = (Ok (UnpublishedLog log), c') →
  ∃ tree, trees c !! resource_number = Some tree
    ∧ Forall (λ e, log_restriction e = text
                   ∧ log_uri e ∈ default_archival_object_uris c
                       ++ extract_archival_object_uris_from_children tree []) log.
Proof.
  unfold unpublish_restrictions_by_text.
  destruct (PyStr.get_truthy (Some text)) as [t|] eqn:Et; [|discriminate].
  assert (t = text) as ->.
  { simpl in Et. destruct (PyStr.truthy text); congruence. }
  intros H. apply bind_inv_ok in H as (uris & c0 & Huris & H).
  apply bind_inv_ok in H as (l & c1 & Hsweep & H). injection H as <- <-.
  pose proof (get_resource_archival_object_uris_run resource_number c) as Hrun.
  destruct (trees c !! resource_number) as [tree|]; [|congruence].
  simpl in Hrun. rewrite Hrun in Huris. injection Huris as <- <-.
  exists tree. split; [done|].
  apply sweep_log in Hsweep as (lg & -> & Hlg). simpl.
  eapply Forall_impl; [exact Hlg|]. intros e [He Ht]. split; [|done].
  unfold text_matches in Ht. injection Ht as Ht. by apply String.eqb_eq in Ht.
Qed.

Lemma X22_text_sweep_logs_only_the_text_witness :
  ∃ tree, trees Sample.restricted_backend !! "5" = Some tree
    ∧ Forall (λ e, log_restriction e = Sample.until_2020
                   ∧ log_uri e ∈ default_archival_object_uris Sample.restricted_backend
                       ++ extract_archival_object_uris_from_children tree [])
             [LogEntry (Sample.ao "11") "Folder 11" Sample.until_2020;
              LogEntry (Sample.ao "11") "Folder 11" Sample.until_2020].
Proof.
  refine (X22_text_sweep_logs_only_the_text "5" Sample.until_2020
            Sample.restricted_backend
            (snd (unpublish_restrictions_by_text "5" (Some Sample.until_2020)
                    Sample.restricted_backend)) _ _).
  vm_compute. reflexivity.
Defined.

(** X23: after an expiry sweep that returned its log, the same sweep on
    the same resource for the same day returns an empty log and writes
    nothing. *)
Theorem X23_second_expiry_sweep_logs_nothing
  (xpath_date_normals : string → result (list (option string)))
  (today resource_number : string) (c c1 : client) (log : list log_entry) :
  unpublish_expired_restrictions_for_resource xpath_date_normals today
    resource_number c = (Ok log, c1) →
  ∃ c2, unpublish_expired_restrictions_for_resource xpath_date_normals today
          resource_number c1 = (Ok [], c2)
        ∧ records c2 = records c1.
Proof.
  unfold unpublish_expired_restrictions_for_resource.
  intros H. apply bind_inv_ok in H as (uris & c0 & Huris & Hsweep).
  pose proof (get_resource_archival_object_uris_run resource_number c) as Hrun.
  destruct (trees c !! resource_number) as [tree|] eqn:Etree; [|congruence].
  simpl in Hrun. rewrite Hrun in Huris. injection Huris as <- <-.
  match type of Hsweep with
  | sweep ?test ?us ?acc ?c0 = _ =>
      destruct (sweep_frame test us acc c0) as [Htrees Hdefault]
  end.
  rewrite Hsweep in Htrees, Hdefault. simpl in Htrees, Hdefault.
  pose proof (get_resource_archival_object_uris_run resource_number c1) as Hrun'.
  rewrite Htrees, Etree, Hdefault in Hrun'. simpl in Hrun'.
  unfold bind at 1. rewrite Hrun'.
  edestruct (sweep_quiet (expired xpath_date_normals today)) as (c2 & Hc2 & Hrecs);
    [|exists c2; split; [exact Hc2 | exact Hrecs]].
  intros u Hu. simpl.
  apply (sweep_leaves_quiet _ _ _ _ _ _ Hsweep). left.
  apply elem_of_app in Hu as [Hu|Hu]; [done|].
  apply elem_of_app. by right.
Qed.

Lemma X23_second_expiry_sweep_logs_nothing_witness :
  let r := unpublish_expired_restrictions_for_resource Sample.xpath_date_normals
             Sample.today "5" Sample.restricted_backend in
  (∃ log, fst r = Ok log ∧ log ≠ [])
  ∧ ∃ c2, unpublish_expired_restrictions_for_resource Sample.xpath_date_normals
            Sample.today "5" (snd r) = (Ok [], c2)
          ∧ records c2 = records (snd r).
Proof.
  intros r. split; [eexists; split; [reflexivity | discriminate]|].
  refine (X23_second_expiry_sweep_logs_nothing Sample.xpath_date_normals
            Sample.today "5" Sample.restricted_backend (snd r) _ _).
  vm_compute. reflexivity.
Defined.

(** ** The default lists across resources *)

(** X24: the uris [get_resource_archival_object_uris] returns for a
    resource begin with everything an earlier call returned, for this or
    any other resource: the second result is the first followed by the
    uris of the second resource's tree.  The same holds of
    [get_resource_children_with_instances]. *)
Theorem X24_uris_of_an_earlier_resource_come_first
  (first second : string) (instance_type instance_type' : option string)
  (c c1 c2 : client) (us us2 : list string) :
  (get_resource_archival_object_uris first c = (Ok us, c1) →
   get_resource_archival_object_uris second c1 = (Ok us2, c2) →
   ∃ tree, trees c !! second = Some tree
           ∧ us2 = us ++ extract_archival_object_uris_from_children tree [])
  ∧ (get_resource_children_with_instances first instance_type c = (Ok us, c1) →
     get_resource_children_with_instances second instance_type' c1 = (Ok us2, c2) →
     ∃ tree, trees c !! second = Some tree
             ∧ us2 = us ++ find_children_with_instances tree [] instance_type').
Proof.
  split.
  - intros H1 H2.
    pose proof (get_resource_archival_object_uris_run first c) as Hrun1.
    destruct (trees c !! first) as [tree1|]; [|congruence].
    simpl in Hrun1. rewrite Hrun1 in H1. injection H1 as <- <-.
    pose proof (get_resource_archival_object_uris_run second
                  (set_default_archival_object_uris
                     (default_archival_object_uris c
                      ++ extract_archival_object_uris_from_children tree1 [])
                     (send (GET_TREE first) c))) as Hrun2.
    simpl in Hrun2.
    destruct (trees c !! second) as [tree2|]; [|congruence].
    rewrite Hrun2 in H2. injection H2 as <- <-. eauto.
  - unfold get_resource_children_with_instances, bind, get_resource_tree_children.
    destruct (trees c !! first) as [tree1|]; [|discriminate].
    rewrite find_default_run. intros [= <- <-]. simpl.
    destruct (trees c !! second) as [tree2|]; [|discriminate].
    rewrite find_default_run. intros [= <- <-]. eauto.
Qed.

Lemma X24_uris_of_an_earlier_resource_come_first_witness :
  let r1 := get_resource_archival_object_uris "5" Cases.two_resources in
  let r2 := get_resource_archival_object_uris "6" (snd r1) in
  fst r2 = Ok [Sample.ao "10"; Sample.ao "11"; Sample.ao "12"; Sample.ao "1"]
  ∧ ∃ tree, trees Cases.two_resources !! "6" = Some tree
            ∧ [Sample.ao "10"; Sample.ao "11"; Sample.ao "12"; Sample.ao "1"]
              = [Sample.ao "10"; Sample.ao "11"; Sample.ao "12"]
                ++ extract_archival_object_uris_from_children tree [].
Proof.
  intros r1 r2. split; [reflexivity|].
  refine (proj1 (X24_uris_of_an_earlier_resource_come_first "5" "6" None None
                   Cases.two_resources (snd r1) (snd r2) _ _) _ _);
    vm_compute; reflexivity.
Defined.

(** ** Splitting at a character *)

Lemma split_without sep s : PyText.has_char sep s = false → PyText.split sep s = [s].
Proof.
  induction s as [|c s IH]; [done|]. simpl.
  destruct (Ascii.eqb c sep); [discriminate|]. simpl. intros H. by rewrite IH.
Qed.

Lemma split_at sep a s :
  PyText.has_char sep a = false →
  PyText.split sep (a +:+ String sep s) = a :: PyText.split sep s.
Proof.
  induction a as [|c a IH]; simpl.
  - intros _. by rewrite Ascii.eqb_refl.
  - destruct (Ascii.eqb c sep); [discriminate|]. simpl. intros H.
    by rewrite (IH H).
Qed.

Lemma split_not_empty sep s : ∃ piece pieces, PyText.split sep s = piece :: pieces.
Proof.
  destruct s as [|c s]; simpl; [eauto|].
  destruct (Ascii.eqb c sep); [eauto|]. destruct (PyText.split sep s); eauto.
Qed.

Lemma join_split sep s :
  PyStr.join (String sep "") (PyText.split sep s) = s.
Proof.
  unfold PyStr.join. induction s as [|c s IH]; [done|].
  destruct (split_not_empty sep s) as (piece & pieces & E).
  simpl PyText.split. rewrite E in IH |- *.
  destruct (Ascii.eqb c sep) eqn:Ec.
  - apply Ascii.eqb_eq in Ec as ->.
    change (String.concat (String sep "") ("" :: piece :: pieces))
      with (String sep (String.concat (String sep "") (piece :: pieces))).
    by rewrite IH.
  - destruct pieces as [|q qs].
    + simpl in *. by rewrite IH.
    + change (String.concat (String sep "") (String c piece :: q :: qs))
        with (String c (String.concat (String sep "") (piece :: q :: qs))).
      by rewrite IH.
Qed.

Lemma split_ends_with sep prefix n :
  PyText.has_char sep n = false →
  ∃ piece pieces,
    PyText.split sep (prefix +:+ String sep n) = piece :: pieces ++ [n].
Proof.
  intros Hn. induction prefix as [|c p (piece & pieces & IH)]; simpl.
  - rewrite Ascii.eqb_refl, (split_without sep n Hn). by exists "", [].
  - destruct (Ascii.eqb c sep).
    + rewrite IH. by exists "", (piece :: pieces).
    + rewrite IH. by exists (String c piece), pieces.
Qed.

(** X25: [make_archival_object_link] never raises, and for a uri that
    ends in a slash followed by a number without a slash the link ends in
    that number: the front end, the resource, and the last piece of the
    uri. *)
Theorem X25_archival_object_link_ends_in_the_last_piece_of_the_uri
  (frontend_url resource_number aspace_uri : string) :
  (∃ link, make_archival_object_link frontend_url resource_number aspace_uri
           = Ok link)
  ∧ (∀ prefix n, aspace_uri = prefix +:+ "/" +:+ n →
       PyText.has_char "/" n = false →
       make_archival_object_link frontend_url resource_number aspace_uri
       = Ok (frontend_url +:+ "/resources/" +:+ resource_number
             +:+ "#tree::archival_object_" +:+ n))
  ∧ (PyText.has_char "/" aspace_uri = false →
     make_archival_object_link frontend_url resource_number aspace_uri
     = Ok (frontend_url +:+ "/resources/" +:+ resource_number
           +:+ "#tree::archival_object_" +:+ aspace_uri)).
Proof.
  unfold make_archival_object_link, PyText.last_item. split; [|split].
  - destruct (split_not_empty "/" aspace_uri) as (piece & pieces & ->).
    destruct (rev (piece :: pieces)) as [|x xs] eqn:E; [|eauto].
    apply (f_equal (@length _)) in E. rewrite length_rev in E. done.
  - intros prefix n -> Hn.
    change (prefix +:+ "/" +:+ n) with (prefix +:+ String "/" n).
    destruct (split_ends_with "/" prefix n Hn) as (piece & pieces & ->).
    simpl. by rewrite rev_app_distr.
  - intros H. by rewrite (split_without "/" aspace_uri H).
Qed.

Lemma X25_archival_object_link_ends_in_the_last_piece_of_the_uri_witness :
  make_archival_object_link "https://aspace.example" "5" (Sample.ao "11")
  = Ok "https://aspace.example/resources/5#tree::archival_object_11".
Proof.
  exact (proj1 (proj2 (X25_archival_object_link_ends_in_the_last_piece_of_the_uri
                         "https://aspace.example" "5" (Sample.ao "11")))
           "/repositories/2/archival_objects" "11" eq_refl eq_refl).
Defined.

(** X26: with an [ead_id], [get_collection_id] returns what follows the
    second hyphen of it, and the empty string when it has fewer than two
    hyphens; the identifier in [id_0] is not looked at then, but a record
    without [id_0] raises a [KeyError] even when it has an [ead_id]. *)
Theorem X26_collection_id_is_what_follows_the_second_hyphen
  (leading_digits_and_dots : string → option string) (r : resource_ids) :
  (id_0 r = None → get_collection_id leading_digits_and_dots r = Err (KeyError "id_0"))
  ∧ (∀ a b rest, is_Some (id_0 r) →
       ead_id r = Some (a +:+ "-" +:+ b +:+ "-" +:+ rest) →
       PyText.has_char "-" a = false → PyText.has_char "-" b = false →
       get_collection_id leading_digits_and_dots r = Ok rest)
  ∧ (∀ a b, is_Some (id_0 r) →
       ead_id r = Some (a +:+ "-" +:+ b) →
       PyText.has_char "-" a = false → PyText.has_char "-" b = false →
       get_collection_id leading_digits_and_dots r = Ok "").
Proof.
  unfold get_collection_id, subscript. split; [by intros ->|]. split.
  - intros a b rest [id ->] -> Ha Hb.
    assert (PyStr.get_truthy (Some (a +:+ "-" +:+ b +:+ "-" +:+ rest))
            = Some (a +:+ "-" +:+ b +:+ "-" +:+ rest)) as ->
      by (by destruct a).
    change (a +:+ "-" +:+ b +:+ "-" +:+ rest)
      with (a +:+ String "-" (b +:+ String "-" rest)).
    rewrite (split_at "-" a _ Ha), (split_at "-" b _ Hb).
    exact (f_equal Ok (join_split "-" rest)).
  - intros a b [id ->] -> Ha Hb.
    assert (PyStr.get_truthy (Some (a +:+ "-" +:+ b)) = Some (a +:+ "-" +:+ b))
      as -> by (by destruct a).
    change (a +:+ "-" +:+ b) with (a +:+ String "-" b).
    by rewrite (split_at "-" a _ Ha), (split_without "-" b Hb).
Qed.

Lemma X26_collection_id_is_what_follows_the_second_hyphen_witness :
  get_collection_id (λ _, None) (ResourceIds (Some "umich-bhl-2014.1-rev") (Some "x"))
  = Ok "2014.1-rev".
Proof.
  exact (proj1 (proj2 (X26_collection_id_is_what_follows_the_second_hyphen
                         (λ _, None)
                         (ResourceIds (Some "umich-bhl-2014.1-rev") (Some "x"))))
           "umich" "bhl" "2014.1-rev" (ex_intro _ "x" eq_refl)
           eq_refl eq_refl eq_refl).
Defined.
